(** * Atmosphere: reconciliation and enforcement engine

    A shallow embedding of the periodic jobs of [service/tasks/monitoring.py],
    of the status history ledger of [core/models/instance_history.py] and of
    the account validation plugin of [jetstream/plugins/auth/validation.py],
    with the properties the specification states about them.

    Conventions.  Timestamps and durations are integers ([Z], a count of
    clock ticks).  A nullable column is an [option].  A database table is a
    list of rows, a query is a [filter] over it, and [save] replaces the row
    with the same primary key.  Code that raises returns the exception as a
    value, next to the store it leaves behind. *)

From Stdlib Require Import ZArith List String Bool Lia.
Import ListNotations.

Set Implicit Arguments.

(** ** Query helpers shared by the jobs *)

Module Query.

Section OrderBy.
Context {A : Type}.
Variable key : A -> string.

(** [order_by] is the ORDER BY of a queryset on a text column: a stable
    insertion sort on the key. *)
Fixpoint insert_by (x : A) (l : list A) : list A :=
  match l with
  | [] => [x]
  | y :: l' =>
      if String.leb (key x) (key y) then x :: l else y :: insert_by x l'
  end.

Definition order_by (l : list A) : list A := fold_right insert_by [] l.

End OrderBy.

(** [count] of a filtered queryset. *)
Definition count {A : Type} (p : A -> bool) (l : list A) : nat :=
  List.length (filter p l).

End Query.

(** ** Text helpers: [lower] and [strip] of Python's text *)

Module Text.

(** [lower], on the ASCII letters. *)
Definition lower_char (c : Ascii.ascii) : Ascii.ascii :=
  let n := Ascii.nat_of_ascii c in
  if Nat.leb 65 n && Nat.leb n 90 then Ascii.ascii_of_nat (n + 32) else c.

Fixpoint lower (s : string) : string :=
  match s with
  | EmptyString => EmptyString
  | String c rest => String (lower_char c) (lower rest)
  end.

(** A text is held as its UTF-8 bytes. *)
Definition utf8 (bytes : list nat) : string :=
  fold_right (fun b rest => String (Ascii.ascii_of_nat b) rest) EmptyString
    bytes.

(** The white space that [strip] takes away: the code points 9 to 13 and
    28 to 32, U+0085, U+00A0, U+1680, U+2000 to U+200A, U+2028, U+2029,
    U+202F, U+205F and U+3000. *)
Definition whitespace : list string :=
  map utf8
    ([[9]; [10]; [11]; [12]; [13]; [28]; [29]; [30]; [31]; [32];
      [194; 133]; [194; 160]; [225; 154; 128]]
     ++ map (fun low => [226; 128; low]) (seq 128 11)
     ++ [[226; 128; 168]; [226; 128; 169]; [226; 128; 175];
         [226; 129; 159]; [227; 128; 128]]).

Fixpoint reverse_onto (s onto : string) : string :=
  match s with
  | EmptyString => onto
  | String c rest => reverse_onto rest (String c onto)
  end.

Definition reverse (s : string) : string := reverse_onto s EmptyString.

(** What is left of [s] after [prefix], when [s] starts with it. *)
Fixpoint drop_prefix (prefix s : string) : option string :=
  match prefix, s with
  | EmptyString, _ => Some s
  | String a prefix', String b s' =>
      if Ascii.eqb a b then drop_prefix prefix' s' else None
  | String _ _, EmptyString => None
  end.

(** What is left of [s] after one of [spaces], when [s] starts with one. *)
Definition drop_space (spaces : list string) (s : string) : option string :=
  fold_right
    (fun space found =>
       match drop_prefix space s with
       | Some rest => Some rest
       | None => found
       end)
    None spaces.

(** White space is dropped from the front for as long as there is some;
    [rounds] is never used up when it is the length of the text. *)
Fixpoint drop_spaces (spaces : list string) (rounds : nat) (s : string)
  : string :=
  match rounds with
  | O => s
  | S rounds' =>
      match drop_space spaces s with
      | Some rest => drop_spaces spaces rounds' rest
      | None => s
      end
  end.

Definition lstrip (s : string) : string :=
  drop_spaces whitespace (String.length s) s.

Definition rstrip (s : string) : string :=
  reverse
    (drop_spaces (map reverse whitespace) (String.length s) (reverse s)).

Definition strip (s : string) : string := lstrip (rstrip s).

End Text.

(** ** Calls that write to the store and may raise *)

Module Effects.

(** A call either returns a value or raises. *)
Inductive Outcome (E A : Type) : Type :=
| Returned (value : A)
| Raised (e : E).

Arguments Returned {E A} value.
Arguments Raised {E A} e.

(** A state and exception monad over the store [S]: a call that raises still
    hands back the store with the writes made before the exception. *)
Definition M (S E A : Type) : Type := S -> Outcome E A * S.

Definition ret {S E A : Type} (a : A) : M S E A := fun s => (Returned a, s).

Definition raise {S E A : Type} (e : E) : M S E A := fun s => (Raised e, s).

Definition bind {S E A B : Type} (c : M S E A) (k : A -> M S E B)
  : M S E B :=
  fun s =>
    match c s with
    | (Returned a, s') => k a s'
    | (Raised e, s') => (Raised e, s')
    end.

(** [with transaction.atomic():] an exception leaving the block rolls the
    store back to what it was on entry, and goes on propagating. *)
Definition atomic {S E A : Type} (body : M S E A) : M S E A :=
  fun s =>
    match body s with
    | (Returned a, s') => (Returned a, s')
    | (Raised e, _) => (Raised e, s)
    end.

(** A [for] loop over an evaluated queryset. *)
Fixpoint for_each {S E A : Type} (body : A -> M S E unit) (rows : list A)
  : M S E unit :=
  match rows with
  | [] => ret tt
  | row :: rest => bind (body row) (fun _ => for_each body rest)
  end.

Module Notations.
Notation "x <- c ;; k" := (bind c (fun x => k))
  (at level 61, c at next level, right associativity).
Notation "c ;; k" := (bind c (fun _ => k))
  (at level 61, right associativity).
End Notations.

End Effects.

(** ** Allocation enforcement: [monitor_allocation_sources] *)

Module Enforcement.

Inductive EnforcementOverrideChoice : Type :=
| NO_OVERRIDE
| ALWAYS_ENFORCE
| NEVER_ENFORCE.

Definition choice_eqb (a b : EnforcementOverrideChoice) : bool :=
  match a, b with
  | NO_OVERRIDE, NO_OVERRIDE => true
  | ALWAYS_ENFORCE, ALWAYS_ENFORCE => true
  | NEVER_ENFORCE, NEVER_ENFORCE => true
  | _, _ => false
  end.

Record AtmosphereUser : Type := { username : string }.

Record AllocationSource : Type :=
  { name : string;
    all_users : list AtmosphereUser }.

(** What one iteration of the inner loop does with its user. *)
Inductive Step : Type :=
| Continue          (* nothing dispatched for this user *)
| Dispatch          (* [apply_async(args=(allocation_source, user))] *)
| AssertionError.   (* the [assert] in the enforcing branch fails *)

(** How the whole task ends. *)
Inductive Completion : Type :=
| Finished
| Raised_AssertionError.

(** A unit of work handed to [allocation_source_overage_enforcement_for_user]. *)
Definition Task : Type := (AllocationSource * AtmosphereUser)%type.

(** The decision table of the specification, row by row. *)
Definition decision_table (over_allocation : bool)
  (override : EnforcementOverrideChoice) : bool :=
  match over_allocation, override with
  | true, NEVER_ENFORCE => false
  | false, ALWAYS_ENFORCE => true
  | true, NO_OVERRIDE => true
  | true, ALWAYS_ENFORCE => true
  | false, NO_OVERRIDE => false
  | false, NEVER_ENFORCE => false
  end.

(** The three [if] statements of the loop body, in order. *)
Definition enforce_step (over_allocation : bool)
  (enforcement_override_choice : EnforcementOverrideChoice) : Step :=
  if over_allocation && choice_eqb enforcement_override_choice NEVER_ENFORCE
  then Continue
  else
    (* [not over_allocation and choice == ALWAYS_ENFORCE] only logs *)
    if over_allocation || choice_eqb enforcement_override_choice ALWAYS_ENFORCE
    then
      if choice_eqb enforcement_override_choice NO_OVERRIDE
         || choice_eqb enforcement_override_choice ALWAYS_ENFORCE
      then Dispatch
      else AssertionError
    else Continue.

(** [usernames and user.username not in usernames] *)
Definition not_in_the_list (usernames : list string) (user : AtmosphereUser)
  : bool :=
  negb (match usernames with [] => true | _ => false end)
  && negb (existsb (String.eqb (username user)) usernames).

Section MonitorAllocationSources.
(** [AllocationSource.is_over_allocation] and the override plugin are
    collaborators of the task. *)
Variable is_over_allocation : AllocationSource -> AtmosphereUser -> bool.
Variable get_enforcement_override :
  AtmosphereUser -> AllocationSource -> EnforcementOverrideChoice.

Definition user_step (usernames : list string)
  (allocation_source : AllocationSource) (user : AtmosphereUser) : Step :=
  if not_in_the_list usernames user then Continue
  else enforce_step (is_over_allocation allocation_source user)
         (get_enforcement_override user allocation_source).

(** The inner loop; [queue] is the list of tasks dispatched so far. *)
Fixpoint for_users (usernames : list string)
  (allocation_source : AllocationSource) (users : list AtmosphereUser)
  (queue : list Task) : Completion * list Task :=
  match users with
  | [] => (Finished, queue)
  | user :: rest =>
      match user_step usernames allocation_source user with
      | Continue => for_users usernames allocation_source rest queue
      | Dispatch =>
          for_users usernames allocation_source rest
            (queue ++ [(allocation_source, user)])
      | AssertionError => (Raised_AssertionError, queue)
      end
  end.

(** The outer loop. *)
Fixpoint for_sources (usernames : list string)
  (allocation_sources : list AllocationSource) (queue : list Task)
  : Completion * list Task :=
  match allocation_sources with
  | [] => (Finished, queue)
  | allocation_source :: rest =>
      match for_users usernames allocation_source
              (Query.order_by username (all_users allocation_source)) queue
      with
      | (Finished, queue') => for_sources usernames rest queue'
      | (Raised_AssertionError, queue') => (Raised_AssertionError, queue')
      end
  end.

Definition monitor_allocation_sources (usernames : list string)
  (allocation_sources : list AllocationSource) : Completion * list Task :=
  for_sources usernames (Query.order_by name allocation_sources) [].

(** The pairs the decision table selects, in the order of the loops. *)
Definition enforced_users (usernames : list string)
  (allocation_source : AllocationSource) : list AtmosphereUser :=
  filter
    (fun user =>
       negb (not_in_the_list usernames user)
       && decision_table (is_over_allocation allocation_source user)
            (get_enforcement_override user allocation_source))
    (Query.order_by username (all_users allocation_source)).

Definition expected_tasks (usernames : list string)
  (allocation_sources : list AllocationSource) : list Task :=
  flat_map
    (fun allocation_source =>
       map (pair allocation_source)
         (enforced_users usernames allocation_source))
    (Query.order_by name allocation_sources).
End MonitorAllocationSources.

End Enforcement.

(** ** Status history ledger: [core/models/instance_history.py] *)

Module History.
Import Effects Effects.Notations.

Local Open Scope Z_scope.

Inductive Exception : Type :=
| LookupError
| ValueError
| MultipleObjectsReturned
| DatabaseError.

Definition Outcome : Type -> Type := Effects.Outcome Exception.

(** Table [instance_status]. *)
Record InstanceStatus : Type :=
  { status_id : nat;
    name : string }.

(** What the ledger reads of the owning [Instance]. *)
Record Instance : Type :=
  { instance_id : nat;
    instance_start_date : Z;
    instance_end_date : option Z }.

(** Table [instance_status_history].  [id] is [None] until the first save. *)
Record InstanceStatusHistory : Type :=
  { id : option nat;
    instance : Instance;
    size : nat;
    status : InstanceStatus;
    activity : option string;
    start_date : Z;
    end_date : option Z;
    extra : option (list (string * string)) }.

Definition set_id (h : InstanceStatusHistory) (k : option nat)
  : InstanceStatusHistory :=
  {| id := k; instance := instance h; size := size h; status := status h;
     activity := activity h; start_date := start_date h;
     end_date := end_date h; extra := extra h |}.

Definition set_start_date (h : InstanceStatusHistory) (d : Z)
  : InstanceStatusHistory :=
  {| id := id h; instance := instance h; size := size h; status := status h;
     activity := activity h; start_date := d;
     end_date := end_date h; extra := extra h |}.

Definition set_end_date (h : InstanceStatusHistory) (d : option Z)
  : InstanceStatusHistory :=
  {| id := id h; instance := instance h; size := size h; status := status h;
     activity := activity h; start_date := start_date h;
     end_date := d; extra := extra h |}.

Record Store : Type :=
  { instance_status : list InstanceStatus;
    instance_status_history : list InstanceStatusHistory }.

Definition option_nat_eqb (a b : option nat) : bool :=
  match a, b with
  | Some x, Some y => Nat.eqb x y
  | None, None => true
  | _, _ => false
  end.

(** Equality of model instances: the same primary key, once saved. *)
Definition model_eqb (a b : InstanceStatusHistory) : bool :=
  match id a, id b with
  | Some x, Some y => Nat.eqb x y
  | _, _ => false
  end.

(** [instance.instancestatushistory_set] *)
Definition instancestatushistory_set (s : Store) (i : Instance)
  : list InstanceStatusHistory :=
  filter (fun h => Nat.eqb (instance_id (instance h)) (instance_id i))
    (instance_status_history s).

(** [QuerySet.get]: exactly one row, or one of its two exceptions. *)
Inductive GetResult (A : Type) : Type :=
| Found (row : A)
| ObjectDoesNotExist
| MultipleObjects.

Arguments Found {A} row.
Arguments ObjectDoesNotExist {A}.
Arguments MultipleObjects {A}.

Definition get {A : Type} (rows : list A) : GetResult A :=
  match rows with
  | [] => ObjectDoesNotExist
  | [row] => Found row
  | _ :: _ :: _ => MultipleObjects
  end.

(** [instancestatushistory_set.get(start_date=d)]; a null [d] matches no
    row, the column is not nullable. *)
Definition get_start_date (s : Store) (i : Instance) (d : option Z)
  : GetResult InstanceStatusHistory :=
  get (filter
         (fun h => match d with
                   | Some t => start_date h =? t
                   | None => false
                   end)
         (instancestatushistory_set s i)).

(** [previous]: the method has no [return] statement, so a call that does
    not raise yields [None]. *)
Definition previous (s : Store) (self : InstanceStatusHistory)
  : Outcome (option InstanceStatusHistory) :=
  if instance_start_date (instance self) =? start_date self
  then Raised LookupError
  else
    match get_start_date s (instance self) (end_date self) with
    | Found history =>
        if option_nat_eqb (id history) (id self)
        then Raised ValueError
        else Returned None
    | ObjectDoesNotExist => Raised ValueError
    | MultipleObjects => Raised MultipleObjectsReturned
    end.

(** [is_active]: "running" is the legacy name of "active". *)
Definition is_active (self : InstanceStatusHistory) : bool :=
  String.eqb (name (status self)) "active"
  || String.eqb (name (status self)) "running".

(** [get_active_time]; [now] is the reading of [timezone.now()].  The result
    is (active_time, start_time, final_time). *)
Definition get_active_time (self : InstanceStatusHistory)
  (earliest_time latest_time : option Z) (now : Z) : Z * Z * Z :=
  let start_time :=
    match earliest_time with
    | Some earliest =>
        if start_date self <=? earliest then earliest else start_date self
    | None => start_date self
    end in
  let final_time :=
    match latest_time with
    | Some latest =>
        match end_date self with
        | None => latest
        | Some e => if e >=? latest then latest else e
        end
    | None =>
        match end_date self with
        | Some e => e
        | None => now
        end
    end in
  if negb (is_active self) then (0, start_time, final_time)
  else if start_date self >? final_time then (0, start_time, final_time)
  else (final_time - start_time, start_time, final_time).

Definition active_time (r : Z * Z * Z) : Z := fst (fst r).
Definition final_time (r : Z * Z * Z) : Z := snd r.

(** *** Writes *)

Definition M : Type -> Type := Effects.M Store Exception.

Definition fresh_status_id (s : Store) : nat :=
  S (fold_right Nat.max 0%nat (map status_id (instance_status s))).

Definition fresh_history_id (s : Store) : nat :=
  S (fold_right Nat.max 0%nat
       (map (fun h => match id h with Some k => k | None => 0%nat end)
          (instance_status_history s))).

(** [InstanceStatus.objects.get_or_create(name=status_name)] *)
Definition get_or_create (status_name : string) : M InstanceStatus :=
  fun s =>
    match get (filter (fun st => String.eqb (name st) status_name)
                 (instance_status s)) with
    | Found st => (Returned st, s)
    | ObjectDoesNotExist =>
        let st := {| status_id := fresh_status_id s; name := status_name |} in
        (Returned st,
         {| instance_status := instance_status s ++ [st];
            instance_status_history := instance_status_history s |})
    | MultipleObjects => (Raised MultipleObjectsReturned, s)
    end.

Section Ledger.
(** [Instance.get_last_history] lives with the [Instance] model; the ledger
    only calls it. *)
Variable get_last_history : Store -> Instance -> option InstanceStatusHistory.
(** Whether writing a row runs into a lock held by another transaction, the
    source of the [DatabaseError] that [transaction] expects. *)
Variable lock_conflict : InstanceStatusHistory -> bool.

(** [Model.save]: update the row with this primary key, insert it when there
    is none or the object was never saved. *)
Definition save (h : InstanceStatusHistory) : M InstanceStatusHistory :=
  fun s =>
    if lock_conflict h then (Raised DatabaseError, s)
    else
      match id h with
      | Some k =>
          if existsb (fun r => option_nat_eqb (id r) (Some k))
               (instance_status_history s)
          then
            (Returned h,
             {| instance_status := instance_status s;
                instance_status_history :=
                  map (fun r => if option_nat_eqb (id r) (Some k) then h else r)
                    (instance_status_history s) |})
          else
            (Returned h,
             {| instance_status := instance_status s;
                instance_status_history := instance_status_history s ++ [h] |})
      | None =>
          let h' := set_id h (Some (fresh_history_id s)) in
          (Returned h',
           {| instance_status := instance_status s;
              instance_status_history := instance_status_history s ++ [h'] |})
      end.

(** [next] *)
Definition next (s : Store) (self : InstanceStatusHistory)
  : Outcome (option InstanceStatusHistory) :=
  match end_date self with
  | None =>
      match instance_end_date (instance self) with
      | Some _ => Raised ValueError
      | None => Raised LookupError
      end
  | Some e =>
      if match instance_end_date (instance self) with
         | Some ie => ie =? e
         | None => false
         end
      then Raised LookupError
      else if match get_last_history s (instance self) with
              | Some last => model_eqb self last
              | None => false
              end
      then Raised LookupError
      else
        match get_start_date s (instance self) (Some e) with
        | Found history => Returned (Some history)
        | ObjectDoesNotExist => Raised ValueError
        | MultipleObjects => Raised MultipleObjectsReturned
        end
  end.

(** [create_history]: a new, unsaved row; [now] is the field default of
    [start_date]. *)
Definition create_history (status_name : string) (instance : Instance)
  (size : nat) (start_date end_date : option Z) (activity : option string)
  (extra : option (list (string * string))) (now : Z)
  : M InstanceStatusHistory :=
  status <- get_or_create status_name ;;
  let new_history :=
    {| id := None; instance := instance; size := size; status := status;
       activity := activity; start_date := now; end_date := None;
       extra := extra |} in
  let new_history :=
    match start_date with
    | Some d => set_start_date new_history d
    | None => new_history
    end in
  let new_history :=
    match end_date, History.end_date new_history with
    | Some e, None => set_end_date new_history (Some e)
    | _, _ => new_history
    end in
  ret new_history.

(** The block under [with transaction.atomic():]. *)
Definition transaction_block (status_name : string) (activity : option string)
  (instance : Instance) (size : nat) (extra : option (list (string * string)))
  (start_time : option Z) (last_history : option InstanceStatusHistory)
  (now : Z) : M InstanceStatusHistory :=
  last_history <-
    match last_history with
    | Some supplied => ret supplied
    | None =>
        fun s =>
          match get_last_history s instance with
          | None => raise ValueError s
          | Some fetched =>
              match end_date fetched with
              | Some _ => raise ValueError s
              | None => ret fetched s
              end
          end
    end ;;
  _ <- save (set_end_date last_history start_time) ;;
  new_history <-
    create_history status_name instance size start_time None activity extra
      now ;;
  save new_history.

(** [transaction]: a [DatabaseError] is logged and the call returns [None];
    any other exception leaves the method. *)
Definition transaction (status_name : string) (activity : option string)
  (instance : Instance) (size : nat) (extra : option (list (string * string)))
  (start_time : option Z) (last_history : option InstanceStatusHistory)
  (now : Z) : M (option InstanceStatusHistory) :=
  fun s =>
    match atomic (transaction_block status_name activity instance size extra
                    start_time last_history now) s with
    | (Returned new_history, s') => (Returned (Some new_history), s')
    | (Raised DatabaseError, s') => (Returned None, s')
    | (Raised e, s') => (Raised e, s')
    end.
End Ledger.

End History.

(** ** Account validation: [jetstream/plugins/auth/validation.py] *)

Module Validation.

(** How the call [fill_user_allocation_source_for(driver, user)] to the
    remote allocation service ends. *)
Inductive RemoteCall : Type :=
| Allocations (project_allocations : list string)
| NoTaccUserForXsedeException
| NoAccountForUsernameException
| TASAPIException
| Timeout
| OtherException.

(** Table of [UserAllocationSource], the locally recorded membership. *)
Record UserAllocationSource : Type :=
  { user : string;
    allocation_source : string;
    uas_start_date : Z;
    uas_end_date : option Z }.

Inductive Validation : Type :=
| Valid (answer : bool)
| Propagated.   (* an exception the method does not handle *)

Section XsedeProjectRequired.
(** The filter [only_current_user_allocations()] of [core.query]. *)
Variable only_current_user_allocations : UserAllocationSource -> bool.

Definition active_allocation_count (table : list UserAllocationSource)
  (username : string) : nat :=
  Query.count
    (fun row =>
       only_current_user_allocations row && String.eqb (user row) username)
    table.

Definition validate_user (remote : RemoteCall)
  (table : list UserAllocationSource) (username : string) : Validation :=
  match remote with
  | Allocations project_allocations =>
      match project_allocations with
      | [] => Valid false
      | _ :: _ => Valid true
      end
  | NoTaccUserForXsedeException => Valid false
  | NoAccountForUsernameException => Valid false
  | TASAPIException =>
      Valid (Nat.ltb 0 (active_allocation_count table username))
  | Timeout =>
      Valid (Nat.ltb 0 (active_allocation_count table username))
  | OtherException => Propagated
  end.
End XsedeProjectRequired.

End Validation.

(** ** Lifecycle store and machine reconciliation:
       [service/tasks/monitoring.py] *)

Module Lifecycle.
Import Effects Effects.Notations.

Local Open Scope Z_scope.

Inductive Exception : Type :=
| ObjectDoesNotExist    (* a foreign key whose row is gone *)
| AttributeError        (* a method called on [None] *)
| UnboundLocalError     (* a local variable read before it is assigned *)
| FieldError.           (* a lookup that names no field of the model *)

(** *** Tables

    Modelled from the spec: the model classes are declared outside the
    files at hand.  Each table carries the columns that the jobs read and
    write, as the data model of the specification lists them. *)

Record Group : Type :=
  { group_id : nat;
    name : string }.

Record Application : Type :=
  { application_id : nat;
    application_start_date : Z;
    application_end_date : option Z }.

Record ApplicationVersion : Type :=
  { version_id : nat;
    application : nat;                (* foreign key *)
    version_start_date : Z;
    version_end_date : option Z }.

Record InstanceSource : Type :=
  { identifier : string;
    provider : nat;                   (* foreign key *)
    start_date : Z;
    end_date : option Z }.

(** A [ProviderMachine] wraps its [InstanceSource]; its [end_date] is the
    one of the source. *)
Record ProviderMachine : Type :=
  { machine_id : nat;
    instance_source : InstanceSource;
    application_version : nat }.      (* foreign key *)

(** A join row of one of the three membership tables: the resource it
    grants access to, and the group. *)
Record Membership : Type :=
  { resource : nat;
    group : Group }.

Record MachineRequest : Type :=
  { request_id : nat;
    new_machine_identifier : string;
    status_name : string;
    access_list : list string }.

Record Store : Type :=
  { applications : list Application;
    versions : list ApplicationVersion;
    machines : list ProviderMachine;
    groups : list Group;
    provider_machine_memberships : list Membership;
    application_version_memberships : list Membership;
    application_memberships : list Membership;
    machine_requests : list MachineRequest }.

(** *** What the cloud reports *)

Record CloudMachine : Type :=
  { id : string;
    visibility : option string;
    application_owner : option string }.

Record AccountDriver : Type :=
  { list_all_images : list CloudMachine;
    get_image_members : string -> list string }.

Record Provider : Type :=
  { provider_id : nat;
    is_active : bool }.

Record Identity : Type :=
  { identity_memberships : list Group }.

(** *** Row updates *)

Definition set_end_date (m : ProviderMachine) (d : option Z)
  : ProviderMachine :=
  {| machine_id := machine_id m;
     instance_source :=
       {| identifier := identifier (instance_source m);
          provider := provider (instance_source m);
          start_date := start_date (instance_source m);
          end_date := d |};
     application_version := application_version m |}.

Definition set_version_end_date (v : ApplicationVersion) (d : option Z)
  : ApplicationVersion :=
  {| version_id := version_id v; application := application v;
     version_start_date := version_start_date v; version_end_date := d |}.

Definition set_application_end_date (a : Application) (d : option Z)
  : Application :=
  {| application_id := application_id a;
     application_start_date := application_start_date a;
     application_end_date := d |}.

Definition with_applications (s : Store) (t : list Application) : Store :=
  {| applications := t; versions := versions s; machines := machines s;
     groups := groups s;
     provider_machine_memberships := provider_machine_memberships s;
     application_version_memberships := application_version_memberships s;
     application_memberships := application_memberships s;
     machine_requests := machine_requests s |}.

Definition with_versions (s : Store) (t : list ApplicationVersion) : Store :=
  {| applications := applications s; versions := t; machines := machines s;
     groups := groups s;
     provider_machine_memberships := provider_machine_memberships s;
     application_version_memberships := application_version_memberships s;
     application_memberships := application_memberships s;
     machine_requests := machine_requests s |}.

Definition with_machines (s : Store) (t : list ProviderMachine) : Store :=
  {| applications := applications s; versions := versions s; machines := t;
     groups := groups s;
     provider_machine_memberships := provider_machine_memberships s;
     application_version_memberships := application_version_memberships s;
     application_memberships := application_memberships s;
     machine_requests := machine_requests s |}.

Definition with_provider_machine_memberships (s : Store)
  (t : list Membership) : Store :=
  {| applications := applications s; versions := versions s;
     machines := machines s; groups := groups s;
     provider_machine_memberships := t;
     application_version_memberships := application_version_memberships s;
     application_memberships := application_memberships s;
     machine_requests := machine_requests s |}.

Definition with_application_version_memberships (s : Store)
  (t : list Membership) : Store :=
  {| applications := applications s; versions := versions s;
     machines := machines s; groups := groups s;
     provider_machine_memberships := provider_machine_memberships s;
     application_version_memberships := t;
     application_memberships := application_memberships s;
     machine_requests := machine_requests s |}.

Definition with_application_memberships (s : Store) (t : list Membership)
  : Store :=
  {| applications := applications s; versions := versions s;
     machines := machines s; groups := groups s;
     provider_machine_memberships := provider_machine_memberships s;
     application_version_memberships := application_version_memberships s;
     application_memberships := t;
     machine_requests := machine_requests s |}.

(** *** Reads and writes *)

Definition Job : Type -> Type := M Store Exception.

(** A query: reads the store, writes nothing. *)
Definition query {A : Type} (f : Store -> A) : Job A :=
  fun s => (Returned (f s), s).

(** [Model.save] on a loaded row: the row with this primary key is
    replaced; a key that is not in the table is inserted. *)
Definition upsert {A : Type} (same : A -> bool) (row : A) (table : list A)
  : list A :=
  if existsb same table
  then map (fun r => if same r then row else r) table
  else table ++ [row].

(** Modelled from the spec: the [ProviderMachine] class is declared outside
    the files at hand.  The specification has it wrap an [InstanceSource]
    whose [end_date] is the machine's own: saving the machine persists the
    end date it carries. *)
Definition save_machine (m : ProviderMachine) : Job unit :=
  fun s =>
    (Returned tt,
     with_machines s
       (upsert (fun r => Nat.eqb (machine_id r) (machine_id m)) m
          (machines s))).

Definition save_version (v : ApplicationVersion) : Job unit :=
  fun s =>
    (Returned tt,
     with_versions s
       (upsert (fun r => Nat.eqb (version_id r) (version_id v)) v
          (versions s))).

Definition save_application (a : Application) : Job unit :=
  fun s =>
    (Returned tt,
     with_applications s
       (upsert (fun r => Nat.eqb (application_id r) (application_id a)) a
          (applications s))).

(** Following a foreign key reads the row it points to. *)
Definition get_version (key : nat) : Job ApplicationVersion :=
  fun s =>
    match find (fun v => Nat.eqb (version_id v) key) (versions s) with
    | Some v => (Returned v, s)
    | None => (Raised ObjectDoesNotExist, s)
    end.

Definition get_application (key : nat) : Job Application :=
  fun s =>
    match find (fun a => Nat.eqb (application_id a) key) (applications s) with
    | Some a => (Returned a, s)
    | None => (Raised ObjectDoesNotExist, s)
    end.

Definition is_null {A : Type} (o : option A) : bool :=
  match o with
  | None => true
  | Some _ => false
  end.

(** [Q(instance_source__end_date__isnull=True) |
     Q(instance_source__end_date__gt=now_time)] *)
Definition not_end_dated_at (now_time : Z) (m : ProviderMachine) : bool :=
  match end_date (instance_source m) with
  | None => true
  | Some t => t >? now_time
  end.

(** [db_version.machines] and [db_application.versions] *)
Definition machines_of (v : ApplicationVersion) (s : Store)
  : list ProviderMachine :=
  filter (fun m => Nat.eqb (application_version m) (version_id v))
    (machines s).

Definition versions_of (a : Application) (s : Store)
  : list ApplicationVersion :=
  filter (fun v => Nat.eqb (application v) (application_id a)) (versions s).

(** The rows of a membership table that belong to one resource. *)
Definition members_of (key : nat) (table : list Membership)
  : list Membership :=
  filter (fun r => Nat.eqb (resource r) key) table.

Section Reconciliation.
(** Collaborators of the jobs that the repository keeps elsewhere: the
    filters of [core.query], the [end_date_all] methods of the models,
    [remove_membership] of [service.machine], the account driver factory,
    the validation plugin and the pattern match of the application's access
    list. *)
Variable only_current : Z -> ApplicationVersion -> bool.
Variable only_current_source : ProviderMachine -> bool.
Variable source_in_range : ProviderMachine -> bool.
Variable inactive_versions : Store -> Application -> bool.
Variable version_end_date_all : ApplicationVersion -> Z -> Job unit.
Variable application_end_date_all : Application -> Z -> Job unit.
Variable remove_membership : ApplicationVersion -> Group -> Job unit.
Variable get_account_driver : Provider -> option AccountDriver.
Variable machine_is_valid : AccountDriver -> CloudMachine -> bool.
Variable get_users_from_access_list : Application -> list string.

(** [remove_machine]; [clock] is the reading of [timezone.now()]. *)
Definition remove_machine (db_machine : ProviderMachine)
  (now_time : option Z) (dry_run : bool) (clock : Z) : Job bool :=
  let now_time :=
    match now_time with
    | Some t => t
    | None => clock
    end in
  let db_machine := set_end_date db_machine (Some now_time) in
  _ <- (if dry_run then ret tt else save_machine db_machine) ;;
  db_version <- get_version (application_version db_machine) ;;
  current_machines <-
    query (fun s =>
             Query.count (not_end_dated_at now_time)
               (machines_of db_version s)) ;;
  if negb (Nat.eqb current_machines 0)
  then ret true      (* other machines exist, no cascade *)
  else
    let db_version := set_version_end_date db_version (Some now_time) in
    _ <- (if dry_run then ret tt else save_version db_version) ;;
    db_application <- get_application (application db_version) ;;
    current_versions <-
      query (fun s =>
               Query.count (only_current now_time)
                 (versions_of db_application s)) ;;
    if negb (Nat.eqb current_versions 0)
    then ret true    (* other versions exist, no cascade *)
    else
      let db_application :=
        set_application_end_date db_application (Some now_time) in
      _ <- (if dry_run then ret tt else save_application db_application) ;;
      ret true.

(** The loop of [_end_date_missing_database_machines]. *)
Fixpoint end_date_missing_loop (cloud_machine_ids : list string) (now : Z)
  (dry_run : bool) (clock : Z) (db_machines : list ProviderMachine)
  (mach_count : nat) : Job nat :=
  match db_machines with
  | [] => ret mach_count
  | machine :: rest =>
      match filter
              (fun mach => String.eqb mach (identifier (instance_source machine)))
              cloud_machine_ids
      with
      | [] =>
          _ <- remove_machine machine (Some now) dry_run clock ;;
          end_date_missing_loop cloud_machine_ids now dry_run clock rest
            (S mach_count)
      | _ :: _ =>
          end_date_missing_loop cloud_machine_ids now dry_run clock rest
            mach_count
      end
  end.

Definition _end_date_missing_database_machines
  (db_machines : list ProviderMachine) (cloud_machines : list CloudMachine)
  (now : option Z) (dry_run : bool) (clock : Z) : Job nat :=
  let now :=
    match now with
    | Some t => t
    | None => clock
    end in
  end_date_missing_loop (map id cloud_machines) now dry_run clock db_machines
    0%nat.

(** [_perform_end_date]: [end_date_all] on every row of the queryset. *)
Fixpoint perform_end_date_loop {A : Type} (end_date_all : A -> Z -> Job unit)
  (queryset : list A) (end_dated_at : Z) (count : nat) : Job nat :=
  match queryset with
  | [] => ret count
  | model :: rest =>
      _ <- end_date_all model end_dated_at ;;
      perform_end_date_loop end_date_all rest end_dated_at (S count)
  end.

Definition _perform_end_date {A : Type} (end_date_all : A -> Z -> Job unit)
  (queryset : list A) (end_dated_at : Z) : Job nat :=
  perform_end_date_loop end_date_all queryset end_dated_at 0%nat.

Definition _remove_versions_without_machines (now : option Z) (clock : Z)
  : Job nat :=
  let now := match now with Some t => t | None => clock end in
  versions_without_machines <-
    query (fun s =>
             filter
               (fun v =>
                  is_null (hd_error (machines_of v s))
                  && is_null (version_end_date v))
               (versions s)) ;;
  _perform_end_date version_end_date_all versions_without_machines now.

Definition _remove_applications_without_versions (now : option Z) (clock : Z)
  : Job nat :=
  let now := match now with Some t => t | None => clock end in
  apps_without_versions <-
    query (fun s =>
             filter
               (fun a =>
                  is_null (hd_error (versions_of a s))
                  && is_null (application_end_date a))
               (applications s)) ;;
  _perform_end_date application_end_date_all apps_without_versions now.

(** The filter is [inactive_versions()] together with
    [end_date__isnull=False]: applications that already carry an end
    date. *)
Definition _update_improperly_enddated_applications (now : option Z)
  (clock : Z) : Job nat :=
  let now := match now with Some t => t | None => clock end in
  improperly_enddated_apps <-
    query (fun s =>
             filter
               (fun a =>
                  inactive_versions s a
                  && negb (is_null (application_end_date a)))
               (applications s)) ;;
  _perform_end_date application_end_date_all improperly_enddated_apps now.

(** [members_qs.order_by(group_key)].  A join row has a field for each of
    its two foreign keys, [group] among them: the key 'group__name' passes
    through it to the name of the group.  A key that does not start at a
    field of the join row cannot be resolved, and no row is handed out. *)
Definition order_by_group_key (group_key : string)
  (members_qs : list Membership) : Job (list Membership) :=
  if String.eqb group_key "group__name"
  then ret (Query.order_by (fun member => name (group member)) members_qs)
  else raise FieldError.

(** One iteration of [_clean_memberships]. *)
Definition clean_memberships_of (db_machine : ProviderMachine) : Job unit :=
  members_qs <-
    query (fun s =>
             members_of (machine_id db_machine)
               (provider_machine_memberships s)) ;;
  let group_key := "group__name"%string in
  members_qs <-
    (if Nat.ltb (List.length members_qs) 128
     then
       image_version <- get_version (application_version db_machine) ;;
       query (fun s =>
                members_of (version_id image_version)
                  (application_version_memberships s))
     else ret members_qs) ;;
  locals <-
    (if Nat.ltb (List.length members_qs) 128
     then
       image_version <- get_version (application_version db_machine) ;;
       db_application <- get_application (application image_version) ;;
       members_qs <-
         query (fun s =>
                  members_of (application_id db_application)
                    (application_memberships s)) ;;
       ret (members_qs, "group_ptr__name"%string)
     else ret (members_qs, group_key)) ;;
  let '(members_qs, group_key) := locals in
  if Nat.ltb (List.length members_qs) 128
  then ret tt
  else
    ordered <- order_by_group_key group_key members_qs ;;
    for_each
      (fun member =>
         image_version <- get_version (application_version db_machine) ;;
         remove_membership image_version (group member))
      ordered.

Definition _clean_memberships (db_machines : list ProviderMachine)
  : Job unit :=
  for_each clean_memberships_of db_machines.

(** [prune_machines_for], for the [provider] row that the lookup by
    [provider_id] returns; [now] is the reading of [timezone.now()]. *)
Definition prune_machines_for (provider : Provider)
  (dry_run forced_removal validate : bool) (now : Z) : Job unit :=
  locals <-
    (if is_active provider
     then
       match get_account_driver provider with
       | Some account_driver =>
           ret (Some account_driver, only_current_source,
                list_all_images account_driver)
       | None => raise AttributeError
       end
     else
       (* [account_driver] is not assigned on this branch *)
       ret (None, source_in_range, [])) ;;
  let '(account_driver, source_filter, cloud_machines) := locals in
  match account_driver with
  | None => raise UnboundLocalError
  | Some account_driver =>
      let cloud_machines :=
        filter
          (fun cloud_machine =>
             negb validate || machine_is_valid account_driver cloud_machine)
          cloud_machines in
      if is_null (hd_error cloud_machines) && negb forced_removal
      then ret tt
      else
        db_machines <-
          query (fun s =>
                   filter
                     (fun m =>
                        source_filter m
                        && Nat.eqb (Lifecycle.provider (instance_source m))
                             (provider_id provider))
                     (machines s)) ;;
        mach_count <-
          _end_date_missing_database_machines db_machines cloud_machines
            (Some now) dry_run now ;;
        ver_count <- _remove_versions_without_machines (Some now) now ;;
        app_count <- _remove_applications_without_versions (Some now) now ;;
        app_count' <-
          _update_improperly_enddated_applications (Some now) now ;;
        _clean_memberships db_machines
  end.

(** *** Image membership *)

(** [MachineRequest.objects.filter(..., status__name='completed').last()] *)
Definition last_completed_request (image_id : string) (s : Store)
  : option MachineRequest :=
  last
    (map Some
       (filter
          (fun r =>
             String.eqb (new_machine_identifier r) image_id
             && String.eqb (status_name r) "completed")
          (machine_requests s)))
    None.

(** [_get_all_access_list]: the union of the four sets of names. *)
Definition _get_all_access_list (account_driver : AccountDriver)
  (db_machine : ProviderMachine) (cloud_machine : CloudMachine)
  : Job (list string) :=
  let owner_set :=
    match application_owner cloud_machine with
    | Some EmptyString => []
    | Some image_owner => [image_owner]
    | None => []
    end in
  let image_id := id cloud_machine in
  let cloud_shared_set := get_image_members account_driver image_id in
  has_machine_request <- query (last_completed_request (id cloud_machine)) ;;
  let machine_request_set :=
    match has_machine_request with
    | Some request => map Text.strip (access_list request)
    | None => []
    end in
  image_version <- get_version (application_version db_machine) ;;
  parent_app <- get_application (application image_version) ;;
  let access_list_set := get_users_from_access_list parent_app in
  ret (nodup string_dec
         (owner_set ++ cloud_shared_set ++ machine_request_set
          ++ access_list_set)).

Definition same_grant (row other : Membership) : bool :=
  Nat.eqb (resource other) (resource row)
  && Nat.eqb (group_id (group other)) (group_id (group row)).

(** [get_or_create] on a membership table. *)
Definition grant (row : Membership) (table : list Membership)
  : list Membership :=
  if existsb (same_grant row) table then table else table ++ [row].

(** Modelled from the spec: [update_db_membership_for_group] of
    [service.machine] is missing from the sources at hand.  The
    specification has the pass map each name to a group and "create missing
    membership join rows (never delete)", in the three membership tables of
    the machine, of its version and of its application. *)
Definition update_db_membership_for_group (db_machine : ProviderMachine)
  (g : Group) : Job unit :=
  image_version <- get_version (application_version db_machine) ;;
  fun s =>
    let s1 :=
      with_provider_machine_memberships s
        (grant {| resource := machine_id db_machine; group := g |}
           (provider_machine_memberships s)) in
    let s2 :=
      with_application_version_memberships s1
        (grant {| resource := version_id image_version; group := g |}
           (application_version_memberships s1)) in
    (Returned tt,
     with_application_memberships s2
       (grant {| resource := application image_version; group := g |}
          (application_memberships s2))).

(** [update_image_membership].  [groups] is computed from the names before
    the check of their number; rebinding [shared_project_names] to the
    access list of the machine request afterwards does not change it. *)
Definition update_image_membership (account_driver : AccountDriver)
  (cloud_machine : CloudMachine) (db_machine : ProviderMachine)
  : Job (option (list Group)) :=
  let image_visibility :=
    match visibility cloud_machine with
    | Some v => v
    | None => "private"%string
    end in
  if String.eqb (Text.lower image_visibility) "public"
  then ret None
  else
    shared_project_names <-
      _get_all_access_list account_driver db_machine cloud_machine ;;
    let groups_filter :=
      fun g => existsb (String.eqb (name g)) shared_project_names in
    has_machine_request <- query (last_completed_request (id cloud_machine)) ;;
    image_version <- get_version (application_version db_machine) ;;
    parent_app <- get_application (application image_version) ;;
    let share :=
      selected <- query (fun s => filter groups_filter (groups s)) ;;
      _ <- for_each (update_db_membership_for_group db_machine) selected ;;
      ret (Some selected) in
    if Nat.ltb 128 (List.length shared_project_names)
    then
      match has_machine_request with
      | None => ret None
      | Some request => share
      end
    else share.

(** [add_application_membership] *)
Definition add_application_membership (app : Application)
  (identity : Identity) (dry_run : bool) : Job unit :=
  for_each
    (fun g =>
       existing <-
         query (fun s =>
                  Query.count
                    (fun r => Nat.eqb (group_id (group r)) (group_id g))
                    (members_of (application_id app)
                       (application_memberships s))) ;;
       if Nat.eqb existing 0
       then
         if dry_run
         then ret tt
         else
           fun s =>
             (Returned tt,
              with_application_memberships s
                (application_memberships s
                 ++ [ {| resource := application_id app; group := g |} ]))
       else ret tt)
    (identity_memberships identity).
End Reconciliation.

End Lifecycle.

(** ** A sample allocation source *)

Module EnforcementScenarios.
Import Enforcement.

Definition alice : AtmosphereUser := {| username := "alice" |}.

Definition tg_001 : AllocationSource :=
  {| name := "TG-001"; all_users := [alice] |}.

End EnforcementScenarios.

(** ** Sample ledgers *)

Module HistoryScenarios.
Import Effects History.

Local Open Scope Z_scope.

Definition sample_instance : Instance :=
  {| instance_id := 1; instance_start_date := 0; instance_end_date := None |}.

Definition sample_row (k : nat) (status_name : string) (from : Z)
  (to : option Z) : InstanceStatusHistory :=
  {| id := Some k; instance := sample_instance; size := 1%nat;
     status := {| status_id := 1; name := status_name |};
     activity := None; start_date := from; end_date := to; extra := None |}.

(** A chain of three rows of one instance: active over [0, 10], suspended
    over [10, 20], active and open from 20. *)
Definition chain_first : InstanceStatusHistory :=
  sample_row 1 "active" 0 (Some 10).

Definition chain_middle : InstanceStatusHistory :=
  sample_row 2 "suspended" 10 (Some 20).

Definition chain_last : InstanceStatusHistory :=
  sample_row 3 "active" 20 None.

Definition chain : Store :=
  {| instance_status :=
       [ {| status_id := 1; name := "active" |};
         {| status_id := 2; name := "suspended" |} ];
     instance_status_history := [chain_first; chain_middle; chain_last] |}.

(** The newest row of the instance, in table order. *)
Definition newest_row (s : Store) (i : Instance)
  : option InstanceStatusHistory :=
  last (map Some (instancestatushistory_set s i)) None.

Definition never_locked (_ : InstanceStatusHistory) : bool := false.

Definition closed_row : InstanceStatusHistory :=
  sample_row 1 "active" 0 (Some 10).

Definition closed_store : Store :=
  {| instance_status := [ {| status_id := 1; name := "active" |} ];
     instance_status_history := [closed_row] |}.

Definition empty_store : Store :=
  {| instance_status := []; instance_status_history := [] |}.

End HistoryScenarios.

(** ** Vocabulary for the properties of reconciliation *)

Module LifecycleSpec.
Import Effects Effects.Notations Lifecycle.

Local Open Scope Z_scope.

(** The stores that [remove_machine] leaves after each of its three saves. *)
Definition machine_saved (m : ProviderMachine) (now : Z) (s : Store) : Store :=
  with_machines s
    (upsert (fun r => Nat.eqb (machine_id r) (machine_id m))
       (set_end_date m (Some now)) (machines s)).




Definition version_row (key : nat) (s : Store) : option ApplicationVersion :=
  find (fun r => Nat.eqb (version_id r) key) (versions s).

Definition application_row (key : nat) (s : Store) : option Application :=
  find (fun r => Nat.eqb (application_id r) key) (applications s).


Definition grant_key (r : Membership) : nat * nat :=
  (resource r, group_id (group r)).

(** [new] is [old] followed by join rows for grants that [old] did not
    have, one row for each. *)
Definition only_adds (old new : list Membership) : Prop :=
  exists added,
    new = old ++ added /\
    NoDup (map grant_key added) /\
    forall r, In r added -> ~ In (grant_key r) (map grant_key old).

(** Every grant of [s] is still a grant of [s']. *)
Definition grants_kept (s s' : Store) : Prop :=
  incl (provider_machine_memberships s) (provider_machine_memberships s') /\
  incl (application_version_memberships s)
    (application_version_memberships s') /\
  incl (application_memberships s) (application_memberships s').

(** The three membership tables of [s'] extend those of [s] by missing
    grants only. *)
Definition only_missing_created (s s' : Store) : Prop :=
  only_adds (provider_machine_memberships s)
    (provider_machine_memberships s') /\
  only_adds (application_version_memberships s)
    (application_version_memberships s') /\
  only_adds (application_memberships s) (application_memberships s').

(** A job that only creates missing grants, however it ends. *)
Definition additive {A : Type} (c : Job A) : Prop :=
  forall s, only_missing_created s (snd (c s)).

(** What the cleaner does with a machine once it has settled on a set of
    join rows: one [remove_membership] for the group of each row, in the
    order of the group names. *)
Definition remove_all
  (remove_membership : ApplicationVersion -> Group -> Job unit)
  (db_machine : ProviderMachine) (members_qs : list Membership) : Job unit :=
  for_each
    (fun member =>
       image_version <- get_version (application_version db_machine) ;;
       remove_membership image_version (group member))
    (Query.order_by (fun member => name (group member)) members_qs).

End LifecycleSpec.

(** ** Sample stores and collaborators *)

Module LifecycleScenarios.
Import Effects Effects.Notations Lifecycle.

Local Open Scope Z_scope.

(** A version is current at [now] when it has no end date or one after
    [now]. *)
Definition ends_after (now : Z) (v : ApplicationVersion) : bool :=
  match version_end_date v with
  | None => true
  | Some t => t >? now
  end.

Definition sample_machine (k : nat) (image : string) (version : nat)
  : ProviderMachine :=
  {| machine_id := k;
     instance_source :=
       {| identifier := image; provider := 1%nat; start_date := 0;
          end_date := None |};
     application_version := version |}.

Definition sample_version (k app : nat) : ApplicationVersion :=
  {| version_id := k; application := app; version_start_date := 0;
     version_end_date := None |}.

Definition sample_application (k : nat) : Application :=
  {| application_id := k; application_start_date := 0;
     application_end_date := None |}.

Definition hierarchy (apps : list Application)
  (vers : list ApplicationVersion) (machs : list ProviderMachine) : Store :=
  {| applications := apps; versions := vers; machines := machs;
     groups := [];
     provider_machine_memberships := [];
     application_version_memberships := [];
     application_memberships := [];
     machine_requests := [] |}.

(** One application, one version, one machine. *)
Definition single_chain : Store :=
  hierarchy [sample_application 1] [sample_version 1 1]
    [sample_machine 1 "image-1" 1].



(** One application, one version, two machines; the cloud still has the
    second image only. *)
Definition two_machines : Store :=
  hierarchy [sample_application 1] [sample_version 1 1]
    [sample_machine 1 "image-1" 1; sample_machine 2 "image-2" 1].

Definition second_image : CloudMachine :=
  {| id := "image-2"; visibility := None; application_owner := None |}.

(** Collaborators to run the task with: end-dating a row stamps it, and
    removing a membership deletes the join rows of the group. *)
Definition stamp_version (v : ApplicationVersion) (t : Z) : Job unit :=
  save_version (set_version_end_date v (Some t)).

Definition stamp_application (a : Application) (t : Z) : Job unit :=
  save_application (set_application_end_date a (Some t)).

Definition no_current_version (s : Store) (a : Application) : bool :=
  is_null (hd_error (filter (ends_after 0) (versions_of a s))).

Definition other_group (g : Group) (r : Membership) : bool :=
  negb (Nat.eqb (group_id (group r)) (group_id g)).

Definition delete_grants (v : ApplicationVersion) (g : Group) : Job unit :=
  fun s =>
    (Returned tt,
     with_application_memberships
       (with_application_version_memberships
          (with_provider_machine_memberships s
             (filter (other_group g) (provider_machine_memberships s)))
          (filter (other_group g) (application_version_memberships s)))
       (filter (other_group g) (application_memberships s))).

Definition empty_cloud : AccountDriver :=
  {| list_all_images := []; get_image_members := fun _ => [] |}.

Definition active_provider : Provider :=
  {| provider_id := 1; is_active := true |}.

Definition numbered_group (k : nat) : Group :=
  {| group_id := k;
     name := String (Ascii.ascii_of_nat k) EmptyString |}.

(** A private image shared with 128 groups by mistake; no machine request
    was ever recorded for it. *)
Definition crowded : Store :=
  {| applications := [sample_application 1];
     versions := [sample_version 1 1];
     machines := [sample_machine 1 "image-1" 1];
     groups := map numbered_group (seq 1 128);
     provider_machine_memberships :=
       map (fun k => {| resource := 1%nat; group := numbered_group k |})
         (seq 1 128);
     application_version_memberships := [];
     application_memberships := [];
     machine_requests := [] |}.

End LifecycleScenarios.

(** ** Diagnostics of a status: [InstanceStatusHistory._build_extra] *)

Module Diagnostics.

(** A Python dictionary with text keys: the pairs in insertion order;
    assigning to a key that is there replaces its value in place. *)
Definition Dict (V : Type) : Type := list (string * V).

Fixpoint dict_get {V : Type} (d : Dict V) (key : string) : option V :=
  match d with
  | [] => None
  | (k, v) :: rest => if String.eqb k key then Some v else dict_get rest key
  end.

Fixpoint dict_set {V : Type} (d : Dict V) (key : string) (value : V)
  : Dict V :=
  match d with
  | [] => [(key, value)]
  | (k, v) :: rest =>
      if String.eqb k key then (k, value) :: rest
      else (k, v) :: dict_set rest key value
  end.

Definition dict_keys {V : Type} (d : Dict V) : list string := map fst d.

(** The [fault] argument: nothing, a dictionary, or a value of another
    type.  The values of the dictionary are texts or [None]. *)
Inductive Fault : Type :=
| NoFault
| FaultDict (entries : Dict (option string))
| FaultOther (truthy : bool).

(** The truth value of [fault]: an empty dictionary is false. *)
Definition fault_is_true (fault : Fault) : bool :=
  match fault with
  | NoFault => false
  | FaultDict [] => false
  | FaultDict (_ :: _) => true
  | FaultOther truthy => truthy
  end.

(** [fault.get(key)]: the value of the key, [None] when it is missing. *)
Definition fault_get (entries : Dict (option string)) (key : string)
  : option string :=
  match dict_get entries key with
  | Some value => value
  | None => None
  end.

(** The truth value of an optional text: [None] and the empty text are
    false. *)
Definition text_is_true (t : option string) : bool :=
  match t with
  | None => false
  | Some EmptyString => false
  | Some (String _ _) => true
  end.

(** [_build_extra]; the two warnings it may log are left out. *)
Definition _build_extra (status_name : option string) (fault : Fault)
  (deploy_fault_message deploy_fault_trace : option string)
  : Dict (option string) :=
  let extra : Dict (option string) := [] in
  if negb (match status_name with
           | Some n => String.eqb n "active" || String.eqb n "deploy_error"
           | None => false
           end)
  then extra
  else
    let extra :=
      if fault_is_true fault
      then
        match fault with
        | FaultDict entries =>
            dict_set
              (dict_set extra "display_error" (fault_get entries "message"))
              "traceback" (fault_get entries "details")
        | _ => extra
        end
      else extra in
    if text_is_true deploy_fault_message && text_is_true deploy_fault_trace
    then
      dict_set (dict_set extra "display_error" deploy_fault_message)
        "traceback" deploy_fault_trace
    else extra.

End Diagnostics.

(** ** Vocabulary for the properties of the ledger *)

Module LedgerSpec.
Import Effects History.

Local Open Scope Z_scope.

(** The row that [transaction] sets out to close: the one supplied, or
    the last row of the instance when that row is open. *)
Definition row_to_close
  (get_last_history : Store -> Instance -> option InstanceStatusHistory)
  (last_history : option InstanceStatusHistory) (instance : Instance)
  (s : Store) : option InstanceStatusHistory :=
  match last_history with
  | Some supplied => Some supplied
  | None =>
      match get_last_history s instance with
      | Some fetched =>
          match end_date fetched with
          | None => Some fetched
          | Some _ => None
          end
      | None => None
      end
  end.

(** The start of the row that [transaction] opens. *)
Definition opening_date (start_time : option Z) (now : Z) : Z :=
  match start_time with
  | Some t => t
  | None => now
  end.

(** The part of the block of [transaction] that comes once the row to
    close is settled: close it, build the new row, save it. *)
Definition close_and_open (lock_conflict : InstanceStatusHistory -> bool)
  (status_name : string) (activity : option string) (instance : Instance)
  (size : nat) (extra : option (list (string * string)))
  (start_time : option Z) (now : Z) (lh : InstanceStatusHistory)
  : M InstanceStatusHistory :=
  bind (save lock_conflict (set_end_date lh start_time))
    (fun _ =>
       bind
         (create_history status_name instance size start_time None activity
            extra now)
         (fun new_history => save lock_conflict new_history)).

Definition primary_keys (s : Store) : list (option nat) :=
  map id (instance_status_history s).

(** Every row of the ledger has a primary key, and no two rows share
    one. *)
Definition well_keyed (s : Store) : Prop :=
  NoDup (primary_keys s) /\ ~ In None (primary_keys s).

End LedgerSpec.

(** ** The sample chain, moved on by one status *)

Module LedgerScenarios.
Import Effects History HistoryScenarios.

Local Open Scope Z_scope.

(** The row that a change to "suspended" at 30 opens on the chain. *)
Definition chain_opened : InstanceStatusHistory :=
  {| id := Some 4%nat; instance := sample_instance; size := 1%nat;
     status := {| status_id := 2; name := "suspended" |};
     activity := None; start_date := 30; end_date := None; extra := None |}.

(** The chain after that change: its last row closed at 30, the new row
    after it. *)
Definition chain_moved : Store :=
  {| instance_status :=
       [ {| status_id := 1; name := "active" |};
         {| status_id := 2; name := "suspended" |} ];
     instance_status_history :=
       [chain_first; chain_middle; set_end_date chain_last (Some 30);
        chain_opened] |}.

End LedgerScenarios.

(** ** Vocabulary and samples for the reconciliation passes *)

Module ReconciliationSpec.
Import Effects Effects.Notations Lifecycle.

Local Open Scope Z_scope.

(** The machines of [db_machines] that the snapshot does not list. *)
Definition orphans (cloud_machine_ids : list string)
  (db_machines : list ProviderMachine) : list ProviderMachine :=
  filter
    (fun machine =>
       negb
         (existsb
            (fun mach => String.eqb mach (identifier (instance_source machine)))
            cloud_machine_ids))
    db_machines.

(** The foreign keys that the passes follow lead to a row: the version of
    every machine of [db_machines], and the application of every
    version. *)
Definition resolvable (db_machines : list ProviderMachine) (s : Store)
  : Prop :=
  (forall m, In m db_machines ->
             In (application_version m) (map version_id (versions s))) /\
  (forall v, In v (versions s) ->
             In (application v) (map application_id (applications s))).

(** The application has a join row for the group. *)
Definition has_application_grant (app : Application) (g : Group) (s : Store)
  : bool :=
  existsb (same_grant {| resource := application_id app; group := g |})
    (application_memberships s).

(** The machines that [prune_machines_for] selects on an active provider. *)
Definition current_machines_of (only_current_source : ProviderMachine -> bool)
  (provider : Provider) (s : Store) : list ProviderMachine :=
  filter
    (fun m =>
       only_current_source m
       && Nat.eqb (Lifecycle.provider (instance_source m))
            (provider_id provider))
    (machines s).

End ReconciliationSpec.

Module ReconciliationScenarios.
Import Effects Effects.Notations Lifecycle LifecycleScenarios.

Local Open Scope Z_scope.

(** A machine counts as current while it has no end date. *)
Definition unending (m : ProviderMachine) : bool :=
  is_null (end_date (instance_source m)).

Definition inactive_provider : Provider :=
  {| provider_id := 1; is_active := false |}.

Definition first_image : CloudMachine :=
  {| id := "image-1"; visibility := None; application_owner := None |}.

(** A cloud that lists the first image only. *)
Definition first_image_cloud : AccountDriver :=
  {| list_all_images := [first_image]; get_image_members := fun _ => [] |}.

(** One application, its version with the one machine, and a second
    version that never had a machine. *)
Definition stray_version : Store :=
  hierarchy [sample_application 1] [sample_version 1 1; sample_version 2 1]
    [sample_machine 1 "image-1" 1].

(** An application shared with 128 groups; its version and its machine
    have no join rows of their own. *)
Definition crowded_application : Store :=
  {| applications := [sample_application 1];
     versions := [sample_version 1 1];
     machines := [sample_machine 1 "image-1" 1];
     groups := map numbered_group (seq 1 128);
     provider_machine_memberships := [];
     application_version_memberships := [];
     application_memberships :=
       map (fun k => {| resource := 1%nat; group := numbered_group k |})
         (seq 1 128);
     machine_requests := [] |}.

(** An identity shared with two groups. *)
Definition two_groups : Identity :=
  {| identity_memberships := [numbered_group 65; numbered_group 66] |}.

End ReconciliationScenarios.

(** ** Durations in words: [strfdelta] of [service/tasks/monitoring.py] *)

Module Formatting.
Import Effects Diagnostics.

Local Open Scope Z_scope.

(** [div_by_map] *)
Definition div_by_map : Dict Z :=
  [("D"%string, 86400); ("H"%string, 3600); ("M"%string, 60);
   ("S"%string, 1)].

(** [unit in keys].  [keys] holds the field name of every piece that
    [Formatter.parse] cuts the format into, [None] for a piece of text
    without a field. *)
Definition in_keys (unit : string) (keys : list (option string)) : bool :=
  existsb
    (fun key =>
       match key with
       | Some field_name => String.eqb field_name unit
       | None => false
       end)
    keys.

(** The loop over the units; [divmod] on integers rounds the quotient
    towards minus infinity. *)
Fixpoint units_loop (keys : list (option string)) (units : list string)
  (return_map : Dict Z) (remainder : Z) : Dict Z * Z :=
  match units with
  | [] => (return_map, remainder)
  | unit :: rest =>
      if in_keys unit keys && existsb (String.eqb unit) (dict_keys div_by_map)
      then
        match dict_get div_by_map unit with
        | Some div_by =>
            units_loop keys rest
              (dict_set return_map unit (remainder / div_by))
              (remainder mod div_by)
        | None => (return_map, remainder)   (* not reached: the key is there *)
        end
      else units_loop keys rest return_map remainder
  end.

(** [return_map] and what is left of [remainder] when the loop is over. *)
Definition strfdelta_units (keys : list (option string)) (remainder : Z)
  : Dict Z * Z :=
  units_loop keys ["D"; "H"; "M"; "S"]%string [] remainder.

Section Strfdelta.
(** What the standard library does for the function: the comparison of
    the duration with [timedelta()], [int(tdelta.total_seconds())], the
    field names that [Formatter.parse] finds in a format, and
    [Formatter.format], which may raise. *)
Variable Timedelta : Type.
Variable FormatError : Type.
Variable is_zero : Timedelta -> bool.
Variable int_total_seconds : Timedelta -> Z.
Variable parse : string -> list (option string).
Variable format : string -> Dict Z -> Outcome FormatError string.

Definition strfdelta (tdelta : Timedelta) (fmt : option string)
  : Outcome FormatError string :=
  let fmt :=
    match fmt with
    | Some (String _ _ as given) => given
    | _ => "{D} days {H:02} hours {M:02} minutes {S:02} seconds"%string
    end in
  if is_zero tdelta
  then Returned "0 minutes"%string
  else
    let keys := parse fmt in
    let remainder := int_total_seconds tdelta in
    format fmt (fst (strfdelta_units keys remainder)).
End Strfdelta.

(** The number of seconds that the entries of a [return_map] stand for. *)
Definition seconds_of (return_map : Dict Z) : Z :=
  fold_right
    (fun entry total =>
       match dict_get div_by_map (fst entry) with
       | Some div_by => snd entry * div_by + total
       | None => total
       end)
    0 return_map.

(** The field names of the standard format. *)
Definition standard_keys : list (option string) :=
  [Some "D"; Some "H"; Some "M"; Some "S"]%string.

End Formatting.

(** ** What is remembered between calls: the [memoized_*] helpers and the
    tenant names of [service/tasks/monitoring.py] *)

Module Memo.
Import Effects Effects.Notations Diagnostics.

(** A project of the cloud: [tenant.id] and [tenant.name]. *)
Record Tenant : Type :=
  { tenant_id : string;
    tenant_name : string }.

(** A row of the sharing list of an image. *)
Record ImageMember : Type :=
  { member_id : string }.

(** The account driver, as far as these helpers use it. *)
Record AccountDriver : Type :=
  { core_provider : nat;
    get_image : string -> option Lifecycle.CloudMachine;
    list_projects : list Tenant;
    shared_images_for : string -> list ImageMember }.

Inductive Exception : Type :=
| CannotInstantiate (provider : nat).
    (* [Exception("Cannot instantiate an account driver for %s")] *)

(** A dictionary given as the default value of a parameter lives as long
    as the worker: it is the state that the calls share. *)
Section Dictionary.
Variables K V : Type.
Variable eqb : K -> K -> bool.

Fixpoint lookup (d : list (K * V)) (key : K) : option V :=
  match d with
  | [] => None
  | (k, v) :: rest => if eqb k key then Some v else lookup rest key
  end.

Fixpoint assign (d : list (K * V)) (key : K) (value : V) : list (K * V) :=
  match d with
  | [] => [(key, value)]
  | (k, v) :: rest =>
      if eqb k key then (k, value) :: rest
      else (k, v) :: assign rest key value
  end.
End Dictionary.

Definition image_key_eqb (a b : nat * string) : bool :=
  Nat.eqb (fst a) (fst b) && String.eqb (snd a) (snd b).

(** [image_maps]; the value stored for a key may be [None]. *)
Definition ImageMaps : Type :=
  list ((nat * string) * option Lifecycle.CloudMachine).

(** [memoized_image] *)
Definition memoized_image (account_driver : AccountDriver)
  (db_machine : Lifecycle.ProviderMachine) (image_maps : ImageMaps)
  : option Lifecycle.CloudMachine * ImageMaps :=
  let provider := Lifecycle.provider (Lifecycle.instance_source db_machine) in
  let identifier :=
    Lifecycle.identifier (Lifecycle.instance_source db_machine) in
  match lookup image_key_eqb image_maps (provider, identifier) with
  | Some (Some cloud_machine) => (Some cloud_machine, image_maps)
  | _ =>
      let cloud_machine := get_image account_driver identifier in
      (cloud_machine,
       assign image_key_eqb image_maps (provider, identifier) cloud_machine)
  end.

(** Any number of calls of [memoized_image], one after the other. *)
Definition image_calls
  (calls : list (AccountDriver * Lifecycle.ProviderMachine))
  (image_maps : ImageMaps) : ImageMaps :=
  fold_left
    (fun maps call => snd (memoized_image (fst call) (snd call) maps))
    calls image_maps.

Section Drivers.
(** [get_account_driver] of [service.driver]: nothing when no driver can
    be made for the provider. *)
Variable get_account_driver : nat -> option AccountDriver.

(** [memoized_driver] *)
Definition memoized_driver (machine : Lifecycle.ProviderMachine)
  : M (list (nat * AccountDriver)) Exception AccountDriver :=
  fun account_drivers =>
    let provider := Lifecycle.provider (Lifecycle.instance_source machine) in
    match lookup Nat.eqb account_drivers provider with
    | Some account_driver => (Returned account_driver, account_drivers)
    | None =>
        match get_account_driver provider with
        | None => (Raised (CannotInstantiate provider), account_drivers)
        | Some account_driver =>
            (Returned account_driver,
             assign Nat.eqb account_drivers provider account_driver)
        end
    end.
End Drivers.

(** [tenant_id_to_name_map]: a later project with the same id takes the
    place of an earlier one. *)
Definition tenant_id_to_name_map (account_driver : AccountDriver)
  : Dict string :=
  fold_left
    (fun names tenant => dict_set names (tenant_id tenant) (tenant_name tenant))
    (list_projects account_driver) [].

(** [memoized_tenant_name_map]: an empty dictionary counts as nothing. *)
Definition memoized_tenant_name_map (account_driver : AccountDriver)
  (tenant_list_maps : list (nat * Dict string))
  : Dict string * list (nat * Dict string) :=
  match lookup Nat.eqb tenant_list_maps (core_provider account_driver) with
  | Some ((_ :: _) as tenant_id_name_map) =>
      (tenant_id_name_map, tenant_list_maps)
  | _ =>
      let tenant_id_name_map := tenant_id_to_name_map account_driver in
      (tenant_id_name_map,
       assign Nat.eqb tenant_list_maps (core_provider account_driver)
         tenant_id_name_map)
  end.

(** [get_current_members]; [machine.identifier] is the identifier of the
    instance source. *)
Definition get_current_members (account_driver : AccountDriver)
  (machine : Lifecycle.ProviderMachine) (tenant_id_name_map : Dict string)
  : list string :=
  fold_left
    (fun current_tenants membership =>
       let tenant_id := member_id membership in
       match dict_get tenant_id_name_map tenant_id with
       | Some (String _ _ as tenant_name) => current_tenants ++ [tenant_name]
       | _ => current_tenants
       end)
    (shared_images_for account_driver
       (Lifecycle.identifier (Lifecycle.instance_source machine)))
    [].

End Memo.

Module MemoScenarios.
Import Memo LifecycleScenarios.

Definition first_image : Lifecycle.CloudMachine :=
  {| Lifecycle.id := "image-1"; Lifecycle.visibility := None;
     Lifecycle.application_owner := None |}.

(** A cloud that has the first image, and one that has lost it. *)
Definition cloud_with_image : AccountDriver :=
  {| core_provider := 1;
     get_image :=
       fun identifier =>
         if String.eqb identifier "image-1" then Some first_image else None;
     list_projects :=
       [ {| tenant_id := "t1"; tenant_name := "alice" |};
         {| tenant_id := "t2"; tenant_name := "" |} ];
     shared_images_for :=
       fun _ => [ {| member_id := "t1" |}; {| member_id := "t2" |};
                  {| member_id := "t3" |} ] |}.

Definition cloud_without_image : AccountDriver :=
  {| core_provider := 1;
     get_image := fun _ => None;
     list_projects := [];
     shared_images_for := fun _ => [] |}.

End MemoScenarios.

(** ** Sharing an image with a tenant: [_share_image] of
    [service/tasks/monitoring.py] *)

Module Sharing.
Import Effects Effects.Notations.

(** A credential of an identity. *)
Record Credential : Type :=
  { key : string;
    value : string }.

(** The image as the cloud reports it: [is_public] when the object has
    such an attribute, and the entry [visibility] when it has one. *)
Record CloudMachine : Type :=
  { id : string;
    is_public : option bool;
    visibility : option string }.

(** The calls that reach the cloud, in the order they are made. *)
Inductive CloudCall : Type :=
| UpdateVisibilityShared (image_id : string)
    (* [glance.images.update(cloud_machine.id, visibility='shared')] *)
| ShareImage (image_id tenant_name : string).
    (* [image_manager.share_image(cloud_machine, tenant_name.value)] *)

Inductive Exception : Type :=
| SafetyCheck                          (* [Exception("Safety Check ...")] *)
| GlanceConflict (message : string)
| GlanceForbidden (message : string)
| OtherError (message : string).

Definition Cloud : Type -> Type := M (list CloudCall) Exception.

Section ShareImage.
(** How the cloud answers the two calls: nothing when the call succeeds,
    the exception it raises otherwise. *)
Variable update_reply : string -> option Exception.
Variable share_reply : string -> string -> option Exception.

(** A call is made, then it returns or raises. *)
Definition call (c : CloudCall) (reply : option Exception) : Cloud unit :=
  fun calls =>
    match reply with
    | None => (Returned tt, calls ++ [c])
    | Some e => (Raised e, calls ++ [c])
    end.

(** [try: ... except GlanceConflict ... except GlanceForbidden ...]: both
    handlers end in [pass], whatever the message. *)
Definition swallow_glance_errors (body : Cloud unit) : Cloud unit :=
  fun calls =>
    match body calls with
    | (Raised (GlanceConflict _), calls') => (Returned tt, calls')
    | (Raised (GlanceForbidden _), calls') => (Returned tt, calls')
    | other => other
    end.

(** The credentials that [missing_tenant] selects. *)
Definition missing_tenant (credentials : list Credential)
  (members : list string) : list Credential :=
  filter
    (fun c =>
       negb (existsb (String.eqb (value c)) members)
       && String.eqb (key c) "ex_tenant_name")
    credentials.

(** [_share_image], for the credentials of [identity]. *)
Definition _share_image (cloud_machine : CloudMachine)
  (credentials : list Credential) (members : list string) (dry_run : bool)
  : Cloud unit :=
  match missing_tenant credentials members with
  | [] => ret tt
  | _ :: _ :: _ => raise SafetyCheck
  | [tenant_name] =>
      let cloud_machine_is_public :=
        match is_public cloud_machine with
        | Some attribute => attribute
        | None =>
            match visibility cloud_machine with
            | Some v => String.eqb v "public"
            | None => false
            end
        end in
      _ <- (if cloud_machine_is_public
            then
              if negb dry_run
              then
                call (UpdateVisibilityShared (id cloud_machine))
                  (update_reply (id cloud_machine))
              else ret tt
            else ret tt) ;;
      if negb dry_run
      then
        swallow_glance_errors
          (call (ShareImage (id cloud_machine) (value tenant_name))
             (share_reply (id cloud_machine) (value tenant_name)))
      else ret tt
  end.
End ShareImage.

End Sharing.

Module SharingScenarios.
Import Sharing.

(** An image that the cloud lists as public. *)
Definition public_image : CloudMachine :=
  {| id := "image-1"; is_public := None; visibility := Some "public"%string |}.

(** The tenant name of an identity. *)
Definition alice : Credential :=
  {| key := "ex_tenant_name"; value := "alice" |}.

(** A cloud where every call succeeds, and one where sharing ends in a
    conflict with a message of its own. *)
Definition fine (_ : string) : option Exception := None.

Definition shares (_ _ : string) : option Exception := None.

Definition conflicts (_ _ : string) : option Exception :=
  Some (GlanceConflict "unexpected").

End SharingScenarios.

(** ** Enforcement for one user:
    [allocation_source_overage_enforcement_for_user] *)

Module EnforcementForUser.
Import Effects Effects.Notations Enforcement.

Section ForUser.
(** The store that enforcement acts on, the exceptions below [Exception],
    identities and instances belong to the collaborators:
    [allocation_source_overage_enforcement_for] and
    [user.current_identities]. *)
Variables Store Exception Identity Instance : Type.
Variable allocation_source_overage_enforcement_for :
  AllocationSource -> AtmosphereUser -> Identity ->
  M Store Exception (list Instance).
Variable current_identities : AtmosphereUser -> list Identity.

(** [try: body except Exception: ...] where the handler only logs. *)
Definition log_and_go_on {A : Type} (body : M Store Exception A) (otherwise : A)
  : M Store Exception A :=
  fun s =>
    match body s with
    | (Returned a, s') => (Returned a, s')
    | (Raised _, s') => (Returned otherwise, s')
    end.

(** The loop over the identities; [user_instances] is what was collected
    so far. *)
Fixpoint for_identities (allocation_source : AllocationSource)
  (user : AtmosphereUser) (identities : list Identity)
  (user_instances : list Instance) : M Store Exception (list Instance) :=
  match identities with
  | [] => ret user_instances
  | identity :: rest =>
      user_instances <-
        log_and_go_on
          (affected_instances <-
             allocation_source_overage_enforcement_for allocation_source user
               identity ;;
           ret (user_instances ++ affected_instances))
          user_instances ;;
      for_identities allocation_source user rest user_instances
  end.

Definition allocation_source_overage_enforcement_for_user
  (allocation_source : AllocationSource) (user : AtmosphereUser)
  : M Store Exception (list Instance) :=
  for_identities allocation_source user (current_identities user) [].
End ForUser.

End EnforcementForUser.

(** ** Sizes of a provider: [monitor_sizes_for] of
    [service/tasks/monitoring.py] *)

Module Sizes.
Import Effects Effects.Notations.

Local Open Scope Z_scope.

Inductive Exception : Type :=
| UnboundLocalError          (* a local variable read before it is assigned *)
| BaseHTTPError (code : Z)
| OtherError.                (* any other exception of a collaborator *)

(** The [Size] class is declared outside the files at hand; these are
    the columns that the task reads and writes. *)
Record Size : Type :=
  { size_id : nat;
    alias : string;
    name : string;
    provider : nat;                   (* foreign key *)
    end_date : option Z }.

Definition set_end_date (size : Size) (d : option Z) : Size :=
  {| size_id := size_id size; alias := alias size; name := name size;
     provider := provider size; end_date := d |}.

(** A size as libcloud reports it, and the wrapper [OSSize] of it. *)
Record LibcloudSize : Type :=
  { libcloud_id : string }.

Inductive CloudSize : Type :=
| OSSize (libcloud_size : LibcloudSize).

(** How [admin_driver.get_size] ends: with a size or [None], with a
    [BaseHTTPError], or with another exception. *)
Inductive SizeReply : Type :=
| Found (libcloud_size : option LibcloudSize)
| HTTPFailure (code : Z)
| Failure.

Record AdminDriver : Type :=
  { list_sizes : list CloudSize;
    get_size : string -> SizeReply }.

Definition Job : Type -> Type := M (list Size) Exception.

(** [name__contains]: the text occurs somewhere in the name. *)
Fixpoint contains (text within : string) : bool :=
  String.prefix text within
  || match within with
     | EmptyString => false
     | String _ rest => contains text rest
     end.

(** [size.save()] on a loaded row. *)
Definition save (size : Size) : Job unit :=
  fun table =>
    (Returned tt,
     Lifecycle.upsert (fun r => Nat.eqb (size_id r) (size_id size)) size
       table).

Section MonitorSizes.
(** [only_current()] of [core.query] and [convert_esh_size] of
    [core.models.size] are collaborators of the task. *)
Variable only_current : Size -> bool.
Variable convert_esh_size : CloudSize -> nat -> Job Size.

(** The first loop: every size of the cloud is converted. *)
Fixpoint convert_all (all_sizes : list CloudSize) (provider_uuid : nat)
  (seen_sizes : list Size) : Job (list Size) :=
  match all_sizes with
  | [] => ret seen_sizes
  | cloud_size :: rest =>
      core_size <- convert_esh_size cloud_size provider_uuid ;;
      convert_all rest provider_uuid (seen_sizes ++ [core_size])
  end.

(** The loop over the sizes named 'Unknown Size'.  [libcloud_size] is the
    local variable of that name: [None] while nothing was assigned to it,
    and otherwise what the last lookup that returned has left in it. *)
Fixpoint unknown_sizes_loop (admin_driver : AdminDriver) (provider_uuid : nat)
  (unknown_sizes : list Size) (libcloud_size : option (option LibcloudSize))
  : Job unit :=
  match unknown_sizes with
  | [] => ret tt
  | size :: rest =>
      if String.eqb (alias size) "N/A"
      then unknown_sizes_loop admin_driver provider_uuid rest libcloud_size
      else
        let after_lookup (libcloud_size : option (option LibcloudSize)) :=
          match libcloud_size with
          | None => raise UnboundLocalError
          | Some None =>
              unknown_sizes_loop admin_driver provider_uuid rest libcloud_size
          | Some (Some found) =>
              core_size <- convert_esh_size (OSSize found) provider_uuid ;;
              unknown_sizes_loop admin_driver provider_uuid rest libcloud_size
          end in
        match get_size admin_driver (alias size) with
        | Found answer => after_lookup (Some answer)
        | HTTPFailure code =>
            if code =? 404
            then
              unknown_sizes_loop admin_driver provider_uuid rest libcloud_size
            else after_lookup libcloud_size
        | Failure => raise OtherError
        end
  end.

(** [monitor_sizes_for], for the [provider] and the [admin_driver] that
    the two lookups at its start return; [now_time] is the reading of
    [timezone.now()].  The queryset [db_sizes] is evaluated when the list
    [needs_end_date] is built, after the conversions. *)
Definition monitor_sizes_for (provider_id : nat) (admin_driver : AdminDriver)
  (now_time : Z) : Job (list Size) :=
  seen_sizes <- convert_all (list_sizes admin_driver) provider_id [] ;;
  needs_end_date <-
    (fun table =>
       (Returned
          (filter
             (fun size =>
                negb
                  (existsb (fun seen => Nat.eqb (size_id seen) (size_id size))
                     seen_sizes))
             (filter
                (fun size =>
                   only_current size && Nat.eqb (provider size) provider_id)
                table)),
        table)) ;;
  _ <- for_each (fun size => save (set_end_date size (Some now_time)))
         needs_end_date ;;
  unknown_sizes <-
    (fun table =>
       (Returned
          (filter
             (fun size =>
                Nat.eqb (provider size) provider_id
                && contains "Unknown Size" (name size))
             table),
        table)) ;;
  _ <- unknown_sizes_loop admin_driver provider_id unknown_sizes None ;;
  ret seen_sizes.
End MonitorSizes.

End Sizes.

Module SizesScenarios.
Import Effects Effects.Notations Sizes.

Local Open Scope Z_scope.

Definition unknown_size (k : nat) (size_alias : string) : Size :=
  {| size_id := k; alias := size_alias; name := "Unknown Size";
     provider := 1%nat; end_date := None |}.

Definition small : LibcloudSize := {| libcloud_id := "small" |}.

(** A cloud without listed sizes, where the lookup of "small" returns a
    size and the lookup of anything else ends in a server error. *)
Definition flaky_cloud : AdminDriver :=
  {| list_sizes := [];
     get_size :=
       fun size_alias =>
         if String.eqb size_alias "small" then Found (Some small)
         else HTTPFailure 500 |}.

(** A conversion that records the size it was asked for. *)
Definition record_size (cloud_size : CloudSize) (provider_uuid : nat)
  : Job Size :=
  fun table =>
    match cloud_size with
    | OSSize libcloud_size =>
        let row :=
          {| size_id := List.length table; alias := libcloud_id libcloud_size;
             name := libcloud_id libcloud_size; provider := provider_uuid;
             end_date := None |} in
        (Returned row, table ++ [row])
    end.

End SizesScenarios.

(** ** The admin of allocation sources: [AllocationSourceAdmin.save_model]
    of [core/admin.py] *)

Module Admin.
Import Effects Effects.Notations Diagnostics.

Local Open Scope Z_scope.

(** The [AllocationSource] class is declared outside the files at hand;
    these are the fields that the method reads. *)
Record AllocationSource : Type :=
  { uuid : string;
    name : string;
    renewal_strategy : string;
    compute_allowed : Z;
    end_date : option Z }.

(** [form.initial]: the values that the form was loaded with. *)
Record Initial : Type :=
  { initial_renewal_strategy : string;
    initial_compute_allowed : Z;
    initial_end_date : option Z }.

(** A value of [request.data]. *)
Inductive Value : Type :=
| Text (text : string)
| Number (number : Z).

(** The calls to [AllocationSourceViewSet], with the [request.data] that
    the request carries at the time of the call. *)
Inductive ApiCall : Type :=
| Create (data : Dict Value)
| Update (data : Dict Value) (allocation_source_uuid : string)
| PerformDestroy (data : Dict Value) (allocation_source_uuid : string).

Definition date_eqb (a b : option Z) : bool :=
  match a, b with
  | None, None => true
  | Some x, Some y => x =? y
  | _, _ => false
  end.

Section SaveModel.
(** What a call to the API raises, if anything. *)
Variable Exception : Type.
Variable reply : ApiCall -> option Exception.

Definition api (c : ApiCall) : M (list ApiCall) Exception unit :=
  fun calls =>
    match reply c with
    | None => (Returned tt, calls ++ [c])
    | Some e => (Raised e, calls ++ [c])
    end.

(** [save_model]; [initial] is [form.initial]. *)
Definition save_model (obj : AllocationSource) (initial : Initial)
  (change : bool) : M (list ApiCall) Exception unit :=
  let data : Dict Value :=
    [("renewal_strategy"%string, Text (renewal_strategy obj));
     ("name"%string, Text (name obj));
     ("compute_allowed"%string, Number (compute_allowed obj))] in
  if negb change
  then api (Create data)
  else
    let data : Dict Value := [] in
    let data :=
      if negb (String.eqb (initial_renewal_strategy initial)
                 (renewal_strategy obj))
      then dict_set data "renewal_strategy" (Text (renewal_strategy obj))
      else data in
    let data :=
      if negb (initial_compute_allowed initial =? compute_allowed obj)
      then dict_set data "compute_allowed" (Number (compute_allowed obj))
      else data in
    _ <- (match data with
          | [] => ret tt
          | _ :: _ => api (Update data (uuid obj))
          end) ;;
    if negb (date_eqb (initial_end_date initial) (end_date obj))
    then api (PerformDestroy data (uuid obj))
    else ret tt.
End SaveModel.

End Admin.

(** ** Sharing an identity: the views of
    [api/v1/views/identity_membership.py] *)

Module IdentityMembershipView.
Import Effects Effects.Notations.

Inductive Exception : Type :=
| KeyError               (* [data['group']] without such a key *)
| GroupDoesNotExist      (* [Group.objects.get] outside a [try] *)
| OtherError.            (* an exception of [share] or [unshare] *)

(** A response: the serialized identity, or a failure with its status. *)
Inductive Response (Payload : Type) : Type :=
| Ok (serialized_data : Payload)
| Failure (status : nat).

Arguments Ok {Payload} serialized_data.
Arguments Failure {Payload} status.

Section Views.
(** The models and the serializer are collaborators of the views:
    the lookups by uuid and by name, [Identity.can_share],
    [Identity.share] and [Identity.unshare], the identity of a
    membership, and the memberships of an identity. *)
Variables Store User Identity Group Membership : Type.
Variable get_identity : Store -> string -> option Identity.
Variable get_group : Store -> string -> option Group.
Variable can_share : Identity -> User -> bool.
Variable share : Identity -> Group -> M Store Exception Membership.
Variable unshare : Identity -> Group -> M Store Exception Membership.
Variable identity_of : Membership -> Identity.
Variable memberships_of : Store -> string -> list Membership.

(** [IdentityMembershipList.post]; [group_name] is [data['group']], when
    the request has that key. *)
Definition post (user : User) (group_name : option string)
  (identity_uuid : string) : M Store Exception (Response Identity) :=
  fun s =>
    match get_identity s identity_uuid with
    | None => (Returned (Failure 404), s)
    | Some identity =>
        match group_name with
        | None => (Raised KeyError, s)
        | Some group_name =>
            match get_group s group_name with
            | None => (Returned (Failure 404), s)
            | Some group =>
                if negb (can_share identity user)
                then (Returned (Failure 401), s)
                else
                  (id_member <- share identity group ;;
                   ret (Ok (identity_of id_member))) s
            end
        end
    end.

(** [IdentityMembershipList.get]: the slice [[:1]] keeps the first
    membership. *)
Definition get (identity_uuid : string)
  : M Store Exception (Response (list Identity)) :=
  fun s =>
    let id_members := memberships_of s identity_uuid in
    let id_list := map identity_of (firstn 1 id_members) in
    (Returned (Ok id_list), s).

(** [IdentityMembership.delete] *)
Definition delete (user : User) (identity_uuid group_name : string)
  : M Store Exception (Response Identity) :=
  fun s =>
    match get_identity s identity_uuid with
    | None => (Returned (Failure 404), s)
    | Some identity =>
        if negb (can_share identity user)
        then (Returned (Failure 401), s)
        else
          match get_group s group_name with
          | None => (Raised GroupDoesNotExist, s)
          | Some group =>
              (id_member <- unshare identity group ;;
               ret (Ok (identity_of id_member))) s
          end
    end.
End Views.

End IdentityMembershipView.

Module AdminScenarios.
Import Admin.

Local Open Scope Z_scope.

Definition tg_001 : AllocationSource :=
  {| uuid := "a1"; name := "TG-001"; renewal_strategy := "default";
     compute_allowed := 1000; end_date := Some 50 |}.

(** The form as it was loaded for [tg_001]. *)
Definition loaded : Initial :=
  {| initial_renewal_strategy := "default";
     initial_compute_allowed := 1000;
     initial_end_date := Some 50 |}.

Definition renamed : AllocationSource :=
  {| uuid := "a1"; name := "TG-002"; renewal_strategy := "default";
     compute_allowed := 1000; end_date := Some 50 |}.

(** The end date taken off again. *)
Definition reopened : AllocationSource :=
  {| uuid := "a1"; name := "TG-001"; renewal_strategy := "default";
     compute_allowed := 1000; end_date := None |}.

End AdminScenarios.

(** * Part II: properties *)

(** ** Query helpers *)

Module QueryFacts.
Import Query.

Section OrderBy.
Context {A : Type}.
Variable key : A -> string.

Lemma insert_by_In (x y : A) (l : list A) :
  In y (insert_by key x l) <-> y = x \/ In y l.
Proof.
  induction l as [|z l IH]; simpl.
  - intuition.
  - destruct (String.leb (key x) (key z)); simpl; rewrite ?IH; intuition.
Qed.

Lemma order_by_In (y : A) (l : list A) : In y (order_by key l) <-> In y l.
Proof.
  induction l as [|x l IH]; simpl.
  - tauto.
  - rewrite (insert_by_In x y), IH. intuition.
Qed.

Lemma insert_by_length (x : A) (l : list A) :
  List.length (insert_by key x l) = S (List.length l).
Proof.
  induction l as [|z l IH]; simpl; trivial.
  destruct (String.leb (key x) (key z)); simpl; congruence.
Qed.

Lemma order_by_length (l : list A) : List.length (order_by key l) = List.length l.
Proof.
  induction l as [|x l IH]; simpl; trivial.
  now rewrite insert_by_length, IH.
Qed.
End OrderBy.

Lemma count_zero_iff {A : Type} (p : A -> bool) (l : list A) :
  count p l = 0 <-> forall x, In x l -> p x = false.
Proof.
  unfold count. induction l as [|a l IH]; simpl.
  - intuition.
  - destruct (p a) eqn:E; simpl.
  + split; [discriminate|]. intros H. specialize (H a (or_introl eq_refl)).
    congruence.
  + rewrite IH. split.
    * intros H x [<-|Hx]; auto.
    * intros H x Hx. apply H. now right.
Qed.

End QueryFacts.

(** ** Properties of the enforcement loop *)

Module EnforcementFacts.
Import Enforcement.

Lemma enforce_step_table (over_allocation : bool)
  (override : EnforcementOverrideChoice) :
  enforce_step over_allocation override =
  if decision_table over_allocation override then Dispatch else Continue.
Proof. destruct over_allocation, override; reflexivity. Qed.

Section Loop.
Variable is_over_allocation : AllocationSource -> AtmosphereUser -> bool.
Variable get_enforcement_override :
  AtmosphereUser -> AllocationSource -> EnforcementOverrideChoice.

Lemma for_users_filter (usernames : list string) (a : AllocationSource)
  (users : list AtmosphereUser) (queue : list Task) :
  for_users is_over_allocation get_enforcement_override usernames a users
    queue =
  (Finished,
   queue ++
   map (pair a)
     (filter
        (fun user =>
           negb (not_in_the_list usernames user)
           && decision_table (is_over_allocation a user)
                (get_enforcement_override user a))
        users)).
Proof.
  revert queue. induction users as [|user rest IH]; intros queue; simpl.
  - now rewrite app_nil_r.
  - unfold user_step. destruct (not_in_the_list usernames user); simpl.
    + apply IH.
    + rewrite enforce_step_table.
      destruct (decision_table (is_over_allocation a user)
                  (get_enforcement_override user a)); simpl.
      * rewrite IH, <- app_assoc. reflexivity.
      * apply IH.
Qed.

Lemma for_sources_flat_map (usernames : list string)
  (sources : list AllocationSource) (queue : list Task) :
  for_sources is_over_allocation get_enforcement_override usernames sources
    queue =
  (Finished,
   queue ++
   flat_map
     (fun a =>
        map (pair a)
          (enforced_users is_over_allocation get_enforcement_override
             usernames a))
     sources).
Proof.
  revert queue. induction sources as [|a rest IH]; intros queue; simpl.
  - now rewrite app_nil_r.
  - rewrite for_users_filter, IH, <- app_assoc. reflexivity.
Qed.

(** C1.  The loop body decides as the decision table says for each of the
    six pairs of (over_allocation, override), the assertion of the enforcing
    branch never fails, and the task as a whole finishes having dispatched
    exactly one enforcement task for each (allocation_source, user) pair that
    passes the optional username filter and that the table marks "enforce",
    in the order of the two loops. *)
Theorem monitor_allocation_sources_follows_table :
  (enforce_step true NEVER_ENFORCE = Continue /\
   enforce_step false ALWAYS_ENFORCE = Dispatch /\
   enforce_step true NO_OVERRIDE = Dispatch /\
   enforce_step true ALWAYS_ENFORCE = Dispatch /\
   enforce_step false NO_OVERRIDE = Continue /\
   enforce_step false NEVER_ENFORCE = Continue) /\
  (forall over_allocation override,
     enforce_step over_allocation override =
     if decision_table over_allocation override then Dispatch else Continue) /\
  (forall usernames allocation_sources,
     monitor_allocation_sources is_over_allocation get_enforcement_override
       usernames allocation_sources =
     (Finished,
      expected_tasks is_over_allocation get_enforcement_override usernames
        allocation_sources)).
Proof.
  split; [repeat split|split].
  - apply enforce_step_table.
  - intros usernames sources. unfold monitor_allocation_sources.
    now rewrite for_sources_flat_map.
Qed.
End Loop.

(** Over allocation with an override of NEVER_ENFORCE: nothing is
    dispatched. *)
Example never_enforce_dispatches_nothing :
  monitor_allocation_sources (fun _ _ => true) (fun _ _ => NEVER_ENFORCE) []
    [EnforcementScenarios.tg_001]
  = (Finished, []).
Proof. reflexivity. Qed.

Example no_override_dispatches :
  monitor_allocation_sources (fun _ _ => true) (fun _ _ => NO_OVERRIDE) []
    [EnforcementScenarios.tg_001]
  = (Finished, [(EnforcementScenarios.tg_001, EnforcementScenarios.alice)]).
Proof. reflexivity. Qed.

End EnforcementFacts.

(** ** Properties of the status history ledger *)

Module HistoryFacts.
Import Effects History HistoryScenarios.
Local Open Scope Z_scope.

Lemma is_active_iff (self : InstanceStatusHistory) :
  is_active self = true <->
  name (status self) = "active"%string \/ name (status self) = "running"%string.
Proof.
  unfold is_active. rewrite orb_true_iff, !String.eqb_eq. tauto.
Qed.

(** C6.  [get_active_time] returns a zero duration for a row whose status
    name is neither "active" nor "running", whatever the window, and for a
    row that starts after the effective end of the window (the third
    component of the result); for an active row with
    [start_date <= end_date] lying inside the window (each bound of the
    window may be absent), it returns [end_date - start_date], counted from
    [start_date] to [end_date]. *)
Theorem get_active_time_clips (self : InstanceStatusHistory)
  (earliest_time latest_time : option Z) (now : Z) :
  (name (status self) <> "active"%string ->
   name (status self) <> "running"%string ->
   active_time (get_active_time self earliest_time latest_time now) = 0) /\
  (start_date self
   > final_time (get_active_time self earliest_time latest_time now) ->
   active_time (get_active_time self earliest_time latest_time now) = 0) /\
  (forall e : Z,
     is_active self = true ->
     end_date self = Some e ->
     start_date self <= e ->
     (forall earliest, earliest_time = Some earliest ->
                       earliest <= start_date self) ->
     (forall latest, latest_time = Some latest -> e <= latest) ->
     get_active_time self earliest_time latest_time now
     = (e - start_date self, start_date self, e)).
Proof.
  split; [|split].
  - intros Ha Hr. unfold get_active_time.
    destruct (is_active self) eqn:E; [|reflexivity].
    apply is_active_iff in E. tauto.
  - unfold get_active_time.
    destruct (is_active self); simpl; [|reflexivity].
    match goal with
    | |- context [ (start_date self >? ?f) ] =>
        destruct (Z.gtb_spec (start_date self) f) as [Hgt|Hle]
    end; simpl; [reflexivity|].
    intros H. unfold final_time in H. simpl in H. lia.
  - intros e Hact Hend Hle Hearly Hlate. unfold get_active_time.
    rewrite Hact, Hend. simpl.
    assert (Hs :
      match earliest_time with
      | Some earliest =>
          if start_date self <=? earliest then earliest else start_date self
      | None => start_date self
      end = start_date self).
    { destruct earliest_time as [a|]; [|reflexivity].
      specialize (Hearly a eq_refl).
      destruct (Z.leb_spec (start_date self) a); lia. }
    assert (Hf :
      match latest_time with
      | Some latest => if e >=? latest then latest else e
      | None => e
      end = e).
    { destruct latest_time as [b|]; [|reflexivity].
      specialize (Hlate b eq_refl).
      destruct (Z.geb_spec e b); lia. }
    rewrite Hs, Hf.
    destruct (Z.gtb_spec (start_date self) e); [lia|reflexivity].
Qed.

Lemma get_active_time_clips_witness :
  active_time
    (get_active_time (sample_row 2 "suspended" 10 None) (Some 0) (Some 50) 60)
  = 0 /\
  active_time
    (get_active_time (sample_row 1 "active" 30 (Some 40)) None (Some 20) 60)
  = 0 /\
  get_active_time (sample_row 1 "active" 0 (Some 10)) (Some 0) (Some 50) 60
  = (10, 0, 10).
Proof.
  split; [|split].
  - apply (proj1 (get_active_time_clips
                    (sample_row 2 "suspended" 10 None) (Some 0) (Some 50) 60));
      simpl; discriminate.
  - apply (proj1 (proj2 (get_active_time_clips
                    (sample_row 1 "active" 30 (Some 40)) None (Some 20) 60))).
    vm_compute. reflexivity.
  - apply (proj2 (proj2 (get_active_time_clips
                    (sample_row 1 "active" 0 (Some 10)) (Some 0) (Some 50) 60))
             10).
    + reflexivity.
    + reflexivity.
    + simpl. lia.
    + intros a Ha. injection Ha as <-. simpl. lia.
    + intros b Hb. injection Hb as <-. lia.
Defined.

(** The first row of the chain, asked without a window. *)
Example active_time_of_first_row :
  get_active_time chain_first None None 60 = (10, 0, 10).
Proof. reflexivity. Qed.

(** *** Traversal of the chain *)

Lemma previous_boundary_iff (s : Store) (self : InstanceStatusHistory) :
  previous s self = Raised LookupError <->
  instance_start_date (instance self) = start_date self.
Proof.
  unfold previous.
  destruct (Z.eqb_spec (instance_start_date (instance self)) (start_date self))
    as [E|E].
  - tauto.
  - split; [|contradiction].
    destruct (get_start_date s (instance self) (end_date self)) as [h| |];
      try destruct (option_nat_eqb (id h) (id self)); discriminate.
Qed.

Lemma previous_returns_no_row (s : Store) (self row : InstanceStatusHistory) :
  previous s self <> Returned (Some row).
Proof.
  unfold previous.
  destruct (instance_start_date (instance self) =? start_date self);
    [discriminate|].
  destruct (get_start_date s (instance self) (end_date self)) as [h| |];
    try destruct (option_nat_eqb (id h) (id self)); discriminate.
Qed.

Lemma get_found_In {A : Type} (rows : list A) (row : A) :
  get rows = Found row -> rows = [row].
Proof.
  destruct rows as [|a [|b rows]]; simpl; intros H; try discriminate.
  now injection H as ->.
Qed.

Section Next.
Variable get_last_history : Store -> Instance -> option InstanceStatusHistory.

Lemma next_open_row_running_instance (s : Store)
  (self : InstanceStatusHistory) :
  end_date self = None ->
  instance_end_date (instance self) = None ->
  next get_last_history s self = Raised LookupError.
Proof. intros H1 H2. unfold next. now rewrite H1, H2. Qed.

Lemma next_open_row_ended_instance (s : Store) (self : InstanceStatusHistory)
  (ended : Z) :
  end_date self = None ->
  instance_end_date (instance self) = Some ended ->
  next get_last_history s self = Raised ValueError.
Proof. intros H1 H2. unfold next. now rewrite H1, H2. Qed.

Lemma next_returns_adjacent_row (s : Store)
  (self row : InstanceStatusHistory) :
  next get_last_history s self = Returned (Some row) ->
  end_date self = Some (start_date row) /\
  In row (instancestatushistory_set s (instance self)).
Proof.
  unfold next. destruct (end_date self) as [e|].
  - destruct (match instance_end_date (instance self) with
              | Some ie => ie =? e | None => false end); [discriminate|].
    destruct (match get_last_history s (instance self) with
              | Some last => model_eqb self last | None => false end);
      [discriminate|].
    unfold get_start_date.
    destruct (get _) as [h| |] eqn:G; try discriminate.
    intros H. injection H as ->.
    apply get_found_In in G.
    assert (Hin : In row
      (filter (fun h => start_date h =? e)
         (instancestatushistory_set s (instance self)))).
    { rewrite G. now left. }
    apply filter_In in Hin. destruct Hin as [Hin Heq].
    apply Z.eqb_eq in Heq. now subst.
  - destruct (instance_end_date (instance self)); discriminate.
Qed.
End Next.

(** C7.  [previous] never returns a row: where it does not raise it falls
    off its end and yields nothing.  On the chain above the middle row has
    the first row as its earlier neighbour (the first row ends where the
    middle one starts), yet [previous] looks up the row that starts at the
    middle row's own end, finds the last row and returns nothing; called on
    the last, open row it raises [ValueError]. *)
Theorem previous_does_not_traverse_backwards :
  (forall s self row, previous s self <> Returned (Some row)) /\
  In chain_first (instancestatushistory_set chain (instance chain_middle)) /\
  end_date chain_first = Some (start_date chain_middle) /\
  instance_start_date (instance chain_middle) <> start_date chain_middle /\
  previous chain chain_middle = Returned None /\
  previous chain chain_last = Raised ValueError.
Proof.
  split; [exact previous_returns_no_row|].
  repeat split.
  - simpl. now left.
  - simpl. discriminate.
Qed.

(** *** [transaction] *)

Lemma atomic_all_or_nothing {A : Type} (body : M A) (s : Store) :
  (exists a s', atomic body s = (Returned a, s')) \/
  (exists e, atomic body s = (Raised e, s)).
Proof.
  unfold atomic. destruct (body s) as [[a|e] s'].
  - left. now exists a, s'.
  - right. now exists e.
Qed.

Section Transaction.
Variable get_last_history : Store -> Instance -> option InstanceStatusHistory.
Variable lock_conflict : InstanceStatusHistory -> bool.

(** Whatever happens inside, either a new row is returned or the store is
    what it was before the call. *)
Lemma transaction_all_or_nothing (status_name : string)
  (activity : option string) (instance : Instance) (size : nat)
  (extra : option (list (string * string))) (start_time : option Z)
  (last_history : option InstanceStatusHistory) (now : Z) (s : Store) :
  (exists new_history s',
     transaction get_last_history lock_conflict status_name activity instance
       size extra start_time last_history now s
     = (Returned (Some new_history), s')) \/
  snd (transaction get_last_history lock_conflict status_name activity
         instance size extra start_time last_history now s) = s.
Proof.
  unfold transaction.
  destruct (atomic_all_or_nothing
              (transaction_block get_last_history lock_conflict status_name
                 activity instance size extra start_time last_history now) s)
    as [(a & s' & ->)|(e & ->)].
  - left. now exists a, s'.
  - right. now destruct e.
Qed.

(** C2, as the code has it.  When [transaction] is called without a
    [last_history] and the instance has no last history row, or the row it
    fetches is already closed, the call raises [ValueError] and the store is
    left exactly as it was. *)
Theorem transaction_without_closable_row_aborts (status_name : string)
  (activity : option string) (instance : Instance) (size : nat)
  (extra : option (list (string * string))) (start_time : option Z)
  (now : Z) (s : Store) :
  (get_last_history s instance = None \/
   exists fetched closed_at,
     get_last_history s instance = Some fetched /\
     end_date fetched = Some closed_at) ->
  transaction get_last_history lock_conflict status_name activity instance
    size extra start_time None now s
  = (Raised ValueError, s).
Proof.
  intros H. unfold transaction, atomic, transaction_block, bind.
  destruct H as [H|(fetched & closed_at & H & Hc)]; rewrite H.
  - reflexivity.
  - now rewrite Hc.
Qed.
End Transaction.

Lemma transaction_without_closable_row_aborts_witness :
  transaction newest_row never_locked "suspended" None sample_instance 1%nat
    None (Some 20) None 20 empty_store
  = (Raised ValueError, empty_store) /\
  transaction newest_row never_locked "suspended" None sample_instance 1%nat
    None (Some 20) None 20 closed_store
  = (Raised ValueError, closed_store).
Proof.
  split.
  - apply transaction_without_closable_row_aborts. left. reflexivity.
  - apply transaction_without_closable_row_aborts. right.
    exists closed_row, 10. split; reflexivity.
Defined.

(** C2, as the specification has it, fails: a [last_history] that the
    caller supplies is not checked.  Supplied with a row closed at 10, the
    call made at 20 moves that row's end to 20 and persists a new row. *)
Lemma transaction_rewrites_supplied_closed_row :
  end_date closed_row = Some 10 /\
  transaction newest_row never_locked "suspended" None sample_instance 1%nat
    None (Some 20) (Some closed_row) 20 closed_store
  = (Returned
       (Some {| id := Some 2%nat; instance := sample_instance; size := 1%nat;
                status := {| status_id := 2; name := "suspended" |};
                activity := None; start_date := 20; end_date := None;
                extra := None |}),
     {| instance_status :=
          [ {| status_id := 1; name := "active" |};
            {| status_id := 2; name := "suspended" |} ];
        instance_status_history :=
          [ sample_row 1 "active" 0 (Some 20);
            {| id := Some 2%nat; instance := sample_instance; size := 1%nat;
               status := {| status_id := 2; name := "suspended" |};
               activity := None; start_date := 20; end_date := None;
               extra := None |} ] |}) /\
  snd (transaction newest_row never_locked "suspended" None sample_instance
         1%nat None (Some 20) (Some closed_row) 20 closed_store)
  <> closed_store.
Proof.
  split; [reflexivity|]. split; [reflexivity|].
  vm_compute. discriminate.
Qed.

End HistoryFacts.

(** ** Properties of account validation *)

Module ValidationFacts.
Import Validation.

Section Fallback.
Variable only_current_user_allocations : UserAllocationSource -> bool.

Lemma count_positive_iff {A : Type} (p : A -> bool) (l : list A) :
  Nat.ltb 0 (Query.count p l) = true <-> exists x, In x l /\ p x = true.
Proof.
  unfold Query.count. rewrite Nat.ltb_lt. split.
  - intros H. destruct (filter p l) as [|x rest] eqn:E; [simpl in H; lia|].
    exists x. apply filter_In. rewrite E. now left.
  - intros (x & Hin & Hp).
    assert (Hx : In x (filter p l)) by (apply filter_In; auto).
    destruct (filter p l); [contradiction|simpl; lia].
Qed.

Lemma fallback_answer (table : list UserAllocationSource) (username : string) :
  Nat.ltb 0
    (active_allocation_count only_current_user_allocations table username)
  = true <->
  exists row,
    In row table /\ user row = username /\
    only_current_user_allocations row = true.
Proof.
  unfold active_allocation_count. rewrite count_positive_iff.
  split; intros (row & Hin & H); exists row.
  - apply andb_true_iff in H. destruct H as [Hc Hu].
    apply String.eqb_eq in Hu. auto.
  - destruct H as [Hu Hc]. split; [assumption|].
    apply andb_true_iff. split; [assumption|]. now apply String.eqb_eq.
Qed.

(** C9.  When the remote call times out or raises the remote-API error,
    [validate_user] does not let the exception out: it answers, and answers
    true exactly when the local table holds a current allocation record of
    the user.  For the two user-does-not-exist exceptions it answers
    false. *)
Theorem validate_user_falls_back (table : list UserAllocationSource)
  (username : string) :
  (exists answer,
     validate_user only_current_user_allocations Timeout table username
     = Valid answer /\
     (answer = true <->
      exists row, In row table /\ user row = username /\
                  only_current_user_allocations row = true)) /\
  (exists answer,
     validate_user only_current_user_allocations TASAPIException table
       username
     = Valid answer /\
     (answer = true <->
      exists row, In row table /\ user row = username /\
                  only_current_user_allocations row = true)) /\
  validate_user only_current_user_allocations NoTaccUserForXsedeException
    table username = Valid false /\
  validate_user only_current_user_allocations NoAccountForUsernameException
    table username = Valid false.
Proof.
  repeat split.
  - eexists. split; [reflexivity|]. apply fallback_answer.
  - eexists. split; [reflexivity|]. apply fallback_answer.
Qed.
End Fallback.

End ValidationFacts.

(** ** Properties of machine reconciliation *)

Module LifecycleFacts.
Import Effects Effects.Notations Lifecycle LifecycleSpec LifecycleScenarios.
Local Open Scope Z_scope.

(** *** Saving rows *)

Lemma upsert_In {A : Type} (same : A -> bool) (row x : A) (table : list A) :
  In x (upsert same row table) ->
  x = row \/ (In x table /\ same x = false).
Proof.
  unfold upsert. destruct (existsb same table) eqn:E.
  - rewrite in_map_iff. intros (r & Hr & Hin).
    destruct (same r) eqn:S; [now left|]. subst. right. auto.
  - rewrite in_app_iff. intros [Hin|[<-|[]]]; [|now left].
    right. split; [assumption|].
    destruct (same x) eqn:S; [|reflexivity].
    assert (existsb same table = true) by (apply existsb_exists; eauto).
    congruence.
Qed.

Lemma upsert_keeps {A : Type} (same : A -> bool) (row x : A)
  (table : list A) :
  In x table -> same x = false -> In x (upsert same row table).
Proof.
  intros Hin Hs. unfold upsert. destruct (existsb same table).
  - apply in_map_iff. exists x. now rewrite Hs.
  - apply in_app_iff. now left.
Qed.


Lemma count_positive {A : Type} (p : A -> bool) (x : A) (l : list A) :
  In x l -> p x = true -> Nat.eqb (Query.count p l) 0 = false.
Proof.
  intros Hin Hp. apply Nat.eqb_neq. intros H.
  apply QueryFacts.count_zero_iff with (x := x) in H; [congruence|assumption].
Qed.


(** *** The cascade of [remove_machine] *)

Section Cascade.
Variable only_current : Z -> ApplicationVersion -> bool.


Lemma remove_machine_stops_at_version (m other : ProviderMachine)
  (v : ApplicationVersion) (now clock : Z) (s : Store) :
  find (fun r => Nat.eqb (version_id r) (application_version m)) (versions s)
  = Some v ->
  In other (machines s) ->
  application_version other = version_id v ->
  machine_id other <> machine_id m ->
  not_end_dated_at now other = true ->
  remove_machine only_current m (Some now) false clock s
  = (Returned true, machine_saved m now s).
Proof.
  intros Hv Hin Hov Hid Hcur.
  unfold remove_machine, bind, save_machine, get_version, query, ret.
  simpl. rewrite Hv.
  rewrite (count_positive (not_end_dated_at now) other); [reflexivity| |assumption].
  unfold machines_of. apply filter_In. split.
  - simpl. apply upsert_keeps; [assumption|]. now apply Nat.eqb_neq.
  - now apply Nat.eqb_eq.
Qed.

End Cascade.



(** The cascade on one application with one version and one machine: the
    three rows read back carry the end date of the call. *)
Example remove_machine_cascades_single_chain :
  remove_machine ends_after (sample_machine 1 "image-1" 1) (Some 100) false
    100 single_chain
  = (Returned true,
     hierarchy
       [ {| application_id := 1; application_start_date := 0;
            application_end_date := Some 100 |} ]
       [ {| version_id := 1; application := 1; version_start_date := 0;
            version_end_date := Some 100 |} ]
       [ {| machine_id := 1;
            instance_source :=
              {| identifier := "image-1"; provider := 1; start_date := 0;
                 end_date := Some 100 |};
            application_version := 1 |} ]).
Proof. reflexivity. Qed.


(** *** Machines found in the snapshot *)

Section Matched.
Variable only_current : Z -> ApplicationVersion -> bool.

(** A machine whose identifier is in the snapshot is passed over: when all
    of them are, the loop counts nothing and writes nothing. *)
Lemma end_date_missing_skips_matched (cloud_machine_ids : list string)
  (now clock : Z) (dry_run : bool) (db_machines : list ProviderMachine)
  (mach_count : nat) (s : Store) :
  (forall m, In m db_machines ->
             In (identifier (instance_source m)) cloud_machine_ids) ->
  end_date_missing_loop only_current cloud_machine_ids now dry_run clock
    db_machines mach_count s
  = (Returned mach_count, s).
Proof.
  induction db_machines as [|machine rest IH]; intros Hall; simpl.
  - reflexivity.
  - destruct (filter _ cloud_machine_ids) as [|found others] eqn:E.
    + exfalso.
      assert (Hin : In (identifier (instance_source machine))
                      (filter
                         (fun mach =>
                            String.eqb mach
                              (identifier (instance_source machine)))
                         cloud_machine_ids)).
      { apply filter_In. split; [apply Hall; now left|].
        apply String.eqb_refl. }
      rewrite E in Hin. contradiction.
    + apply IH. intros m Hm. apply Hall. now right.
Qed.

(** [remove_machine] writes the machine table once, by its first save. *)
Lemma remove_machine_machines (m : ProviderMachine) (now clock : Z)
  (s : Store) :
  machines (snd (remove_machine only_current m (Some now) false clock s))
  = machines (machine_saved m now s).
Proof.
  unfold remove_machine, bind, save_machine, save_version, save_application,
    get_version, get_application, query, ret.
  simpl. fold (machine_saved m now s).
  destruct (find _ (versions s)) as [v|]; [|reflexivity].
  destruct (Nat.eqb _ 0); [|reflexivity]. simpl.
  destruct (find _ (applications s)) as [a|]; [|reflexivity].
  destruct (Nat.eqb _ 0); reflexivity.
Qed.

Lemma remove_machine_dry_run (m : ProviderMachine) (now clock : Z)
  (s : Store) :
  snd (remove_machine only_current m (Some now) true clock s) = s.
Proof.
  unfold remove_machine, bind, get_version, get_application, query, ret.
  simpl.
  destruct (find _ (versions s)) as [v|]; [|reflexivity].
  destruct (Nat.eqb _ 0); [|reflexivity]. simpl.
  destruct (find _ (applications s)) as [a|]; [|reflexivity].
  destruct (Nat.eqb _ 0); reflexivity.
Qed.

Lemma machine_saved_rows (m r : ProviderMachine) (now : Z) (s : Store) :
  In r (machines (machine_saved m now s)) ->
  (In r (machines s) /\ machine_id r <> machine_id m) \/
  end_date (instance_source r) = Some now.
Proof.
  simpl. intros H. apply upsert_In in H. destruct H as [->|[Hin Hid]].
  - now right.
  - left. split; [assumption|]. now apply Nat.eqb_neq.
Qed.

(** What one run of the loop leaves in the machine table: rows it found
    there, or rows end-dated at [now]; and, when the loop runs to its end,
    no row of a machine it had to end-date is left without that end date. *)
Lemma end_date_missing_loop_rows (cloud_machine_ids : list string)
  (now clock : Z) (db_machines : list ProviderMachine) (mach_count : nat)
  (s : Store) :
  let run :=
    end_date_missing_loop only_current cloud_machine_ids now false clock
      db_machines mach_count s in
  (forall r, In r (machines (snd run)) ->
             In r (machines s) \/ end_date (instance_source r) = Some now) /\
  ((exists n, fst run = Returned n) ->
   forall m r,
     In m db_machines ->
     ~ In (identifier (instance_source m)) cloud_machine_ids ->
     In r (machines (snd run)) ->
     machine_id r = machine_id m ->
     end_date (instance_source r) = Some now).
Proof.
  revert mach_count s.
  induction db_machines as [|machine rest IH]; intros mach_count s; simpl.
  - split; [now left|]. intros _ m r [].
  - destruct (filter _ cloud_machine_ids) as [|found others] eqn:E.
    + (* not in the snapshot: end-dated, then the rest of the loop *)
      unfold bind. cbv beta.
      pose proof (remove_machine_machines machine now clock s) as Hm.
      destruct (remove_machine only_current machine (Some now) false clock s)
        as [[b|e] s1] eqn:R; simpl in Hm.
      * specialize (IH (S mach_count) s1). simpl in IH.
        destruct IH as [IH1 IH2]. split.
        -- intros r Hr. destruct (IH1 r Hr) as [Hin|Hend]; [|now right].
           rewrite Hm in Hin. apply machine_saved_rows in Hin.
           destruct Hin as [[Hin _]|Hend]; auto.
        -- intros Hret m r [<-|Hin] Horphan Hr Hid.
           ++ destruct (IH1 r Hr) as [Hs1|Hend]; [|assumption].
              rewrite Hm in Hs1. apply machine_saved_rows in Hs1.
              destruct Hs1 as [[_ Hne]|Hend]; [contradiction|assumption].
           ++ now apply (IH2 Hret m r).
      * simpl. split.
        -- intros r Hr. rewrite Hm in Hr. apply machine_saved_rows in Hr.
           destruct Hr as [[Hin _]|Hend]; auto.
        -- intros (n & Hn). discriminate.
    + (* found in the snapshot: passed over *)
      specialize (IH mach_count s). simpl in IH. destruct IH as [IH1 IH2].
      split; [exact IH1|].
      intros Hret m r [<-|Hin] Horphan Hr Hid.
      * exfalso.
        assert (Hf : In found
                       (filter
                          (fun mach =>
                             String.eqb mach
                               (identifier (instance_source machine)))
                          cloud_machine_ids))
          by (rewrite E; now left).
        apply filter_In in Hf. destruct Hf as [Hf Heq].
        apply String.eqb_eq in Heq. subst found. contradiction.
      * now apply (IH2 Hret m r).
Qed.

(** X12.  The loop run a second time.  Let the loop have run to its end over the
    current machines of the provider, with a filter for "current" that
    rejects a machine end-dated at the time of that run.  Run again, at
    any later reading of the clock, over what the same filter now selects,
    against the same snapshot, it end-dates nothing and writes nothing. *)
Lemma end_date_missing_second_run (current : ProviderMachine -> bool)
  (cloud_machines : list CloudMachine) (now now' clock clock' : Z)
  (first_count : nat) (s s1 : Store) :
  (forall m, end_date (instance_source m) = Some now -> current m = false) ->
  _end_date_missing_database_machines only_current
    (filter current (machines s)) cloud_machines (Some now) false clock s
  = (Returned first_count, s1) ->
  _end_date_missing_database_machines only_current
    (filter current (machines s1)) cloud_machines (Some now') false clock' s1
  = (Returned 0%nat, s1).
Proof.
  intros Hcurrent Hfirst. unfold _end_date_missing_database_machines in *.
  apply end_date_missing_skips_matched.
  intros m Hm. apply filter_In in Hm. destruct Hm as [Hin Hcur].
  pose proof (end_date_missing_loop_rows (map id cloud_machines) now clock
                (filter current (machines s)) 0 s) as Hrows.
  simpl in Hrows. rewrite Hfirst in Hrows. simpl in Hrows.
  destruct Hrows as [Hold Hdone].
  destruct (in_dec string_dec (identifier (instance_source m))
              (map id cloud_machines)) as [Hyes|Hno]; [assumption|].
  exfalso.
  destruct (Hold m Hin) as [Hs|Hend].
  - assert (Hend : end_date (instance_source m) = Some now).
    { apply (Hdone (ex_intro _ first_count eq_refl) m m); auto.
      apply filter_In. now split. }
    rewrite (Hcurrent m Hend) in Hcur. discriminate.
  - rewrite (Hcurrent m Hend) in Hcur. discriminate.
Qed.
End Matched.

(** Of two machines of one version the snapshot has one: the other is
    end-dated, the version and the application stay current. *)
Example missing_machine_is_end_dated :
  _end_date_missing_database_machines ends_after (machines two_machines)
    [second_image] (Some 100) false 100 two_machines
  = (Returned 1%nat,
     hierarchy [sample_application 1] [sample_version 1 1]
       [set_end_date (sample_machine 1 "image-1" 1) (Some 100);
        sample_machine 2 "image-2" 1]).
Proof. reflexivity. Qed.

(** *** The guard on an empty snapshot *)

Section Prune.
Variable only_current : Z -> ApplicationVersion -> bool.
Variable only_current_source : ProviderMachine -> bool.
Variable source_in_range : ProviderMachine -> bool.
Variable inactive_versions : Store -> Application -> bool.
Variable version_end_date_all : ApplicationVersion -> Z -> Job unit.
Variable application_end_date_all : Application -> Z -> Job unit.
Variable remove_membership : ApplicationVersion -> Group -> Job unit.
Variable get_account_driver : Provider -> option AccountDriver.
Variable machine_is_valid : AccountDriver -> CloudMachine -> bool.

(** X13.  On a provider that is not active the task reads [account_driver]
    before anything was assigned to it, and stops there. *)
Lemma prune_machines_for_inactive_provider (provider : Provider)
  (dry_run forced_removal validate : bool) (now : Z) (s : Store) :
  is_active provider = false ->
  prune_machines_for only_current only_current_source source_in_range
    inactive_versions version_end_date_all application_end_date_all
    remove_membership get_account_driver machine_is_valid
    provider dry_run forced_removal validate now s
  = (Raised UnboundLocalError, s).
Proof.
  intros H. unfold prune_machines_for, bind, ret. now rewrite H.
Qed.

(** C10.  On an active provider whose snapshot, once the invalid images are
    filtered out, is empty, and without [forced_removal], the task returns
    at once: whatever the collaborators would do, the store is the one the
    task started from. *)
Theorem prune_machines_for_empty_snapshot (provider : Provider)
  (account_driver : AccountDriver) (dry_run validate : bool) (now : Z)
  (s : Store) :
  is_active provider = true ->
  get_account_driver provider = Some account_driver ->
  filter
    (fun cloud_machine =>
       negb validate || machine_is_valid account_driver cloud_machine)
    (list_all_images account_driver) = [] ->
  prune_machines_for only_current only_current_source source_in_range
    inactive_versions version_end_date_all application_end_date_all
    remove_membership get_account_driver machine_is_valid
    provider dry_run false validate now s
  = (Returned tt, s).
Proof.
  intros Hactive Hdriver Hempty.
  unfold prune_machines_for, bind, ret.
  rewrite Hactive, Hdriver, Hempty. reflexivity.
Qed.
End Prune.

Lemma prune_machines_for_empty_snapshot_witness :
  prune_machines_for ends_after (not_end_dated_at 100) (not_end_dated_at 100)
    no_current_version stamp_version stamp_application delete_grants
    (fun _ => Some empty_cloud) (fun _ _ => true)
    active_provider false false true 100 single_chain
  = (Returned tt, single_chain).
Proof.
  apply prune_machines_for_empty_snapshot with (account_driver := empty_cloud);
    reflexivity.
Defined.

(** *** Membership only grows *)

Lemma only_adds_refl (t : list Membership) : only_adds t t.
Proof.
  exists []. rewrite app_nil_r. repeat split.
  - constructor.
  - intros r [].
Qed.

Lemma only_adds_trans (a b c : list Membership) :
  only_adds a b -> only_adds b c -> only_adds a c.
Proof.
  intros (x & -> & Nx & Hx) (y & -> & Ny & Hy).
  exists (x ++ y). rewrite app_assoc. repeat split.
  - rewrite map_app. apply NoDup_app; try assumption.
    intros k Hkx Hky. apply in_map_iff in Hky.
    destruct Hky as (r & <- & Hr). apply (Hy r Hr).
    rewrite map_app. apply in_app_iff. now right.
  - intros r Hr Hin. apply in_app_iff in Hr. destruct Hr as [Hr|Hr].
    + now apply (Hx r).
    + apply (Hy r Hr). rewrite map_app. apply in_app_iff. now left.
Qed.

Lemma only_adds_incl (old new : list Membership) :
  only_adds old new -> incl old new.
Proof. intros (x & -> & _). apply incl_appl, incl_refl. Qed.

Lemma only_adds_one (row : Membership) (table : list Membership) :
  existsb (same_grant row) table = false ->
  only_adds table (table ++ [row]).
Proof.
  intros H. exists [row]. repeat split.
  - simpl. constructor; [intros []|constructor].
  - intros r [<-|[]] Hin. apply in_map_iff in Hin.
    destruct Hin as (other & Hk & Hin).
    assert (existsb (same_grant row) table = true); [|congruence].
    apply existsb_exists. exists other. split; [assumption|].
    unfold grant_key in Hk. injection Hk as Hr Hg.
    unfold same_grant. now rewrite Hr, Hg, !Nat.eqb_refl.
Qed.

Lemma grant_only_adds (row : Membership) (table : list Membership) :
  only_adds table (grant row table).
Proof.
  unfold grant. destruct (existsb (same_grant row) table) eqn:E.
  - apply only_adds_refl.
  - now apply only_adds_one.
Qed.

Lemma only_missing_created_refl (s : Store) : only_missing_created s s.
Proof. repeat split; apply only_adds_refl. Qed.

Lemma only_missing_created_trans (a b c : Store) :
  only_missing_created a b -> only_missing_created b c ->
  only_missing_created a c.
Proof.
  intros (H1 & H2 & H3) (K1 & K2 & K3).
  repeat split; eapply only_adds_trans; eassumption.
Qed.

Lemma only_missing_created_kept (s s' : Store) :
  only_missing_created s s' -> grants_kept s s'.
Proof.
  intros (H1 & H2 & H3). repeat split; now apply only_adds_incl.
Qed.

Lemma additive_ret {A : Type} (a : A) : additive (ret a).
Proof. intros s. apply only_missing_created_refl. Qed.

Lemma additive_raise {A : Type} (e : Exception) : additive (@raise _ _ A e).
Proof. intros s. apply only_missing_created_refl. Qed.

Lemma additive_query {A : Type} (f : Store -> A) : additive (query f).
Proof. intros s. apply only_missing_created_refl. Qed.

Lemma additive_get_version (key : nat) : additive (get_version key).
Proof.
  intros s. unfold get_version.
  destruct (find _ _); apply only_missing_created_refl.
Qed.

Lemma additive_get_application (key : nat) : additive (get_application key).
Proof.
  intros s. unfold get_application.
  destruct (find _ _); apply only_missing_created_refl.
Qed.

Lemma additive_bind {A B : Type} (c : Job A) (k : A -> Job B) :
  additive c -> (forall a, additive (k a)) -> additive (bind c k).
Proof.
  intros Hc Hk s. unfold bind. specialize (Hc s).
  destruct (c s) as [[a|e] s1]; simpl in *.
  - eapply only_missing_created_trans; [exact Hc|apply Hk].
  - exact Hc.
Qed.

Lemma additive_for_each {A : Type} (body : A -> Job unit) (rows : list A) :
  (forall row, additive (body row)) -> additive (for_each body rows).
Proof.
  intros Hb. induction rows as [|row rest IH]; simpl.
  - apply additive_ret.
  - apply additive_bind; [apply Hb|]. intros _. exact IH.
Qed.

Lemma additive_update_db_membership_for_group (db_machine : ProviderMachine)
  (g : Group) : additive (update_db_membership_for_group db_machine g).
Proof.
  unfold update_db_membership_for_group.
  apply additive_bind; [apply additive_get_version|].
  intros image_version s. simpl. repeat split; apply grant_only_adds.
Qed.

Section Membership.
Variable get_users_from_access_list : Application -> list string.

Lemma additive_get_all_access_list (account_driver : AccountDriver)
  (db_machine : ProviderMachine) (cloud_machine : CloudMachine) :
  additive
    (_get_all_access_list get_users_from_access_list account_driver
       db_machine cloud_machine).
Proof.
  unfold _get_all_access_list.
  apply additive_bind; [apply additive_query|]. intros request.
  apply additive_bind; [apply additive_get_version|]. intros image_version.
  apply additive_bind; [apply additive_get_application|]. intros parent_app.
  apply additive_ret.
Qed.

Lemma additive_update_image_membership (account_driver : AccountDriver)
  (cloud_machine : CloudMachine) (db_machine : ProviderMachine) :
  additive
    (update_image_membership get_users_from_access_list account_driver
       cloud_machine db_machine).
Proof.
  unfold update_image_membership.
  destruct (String.eqb _ "public"); [apply additive_ret|].
  apply additive_bind; [apply additive_get_all_access_list|]. intros names.
  apply additive_bind; [apply additive_query|]. intros request.
  apply additive_bind; [apply additive_get_version|]. intros image_version.
  apply additive_bind; [apply additive_get_application|]. intros parent_app.
  assert (Hshare : additive
    (selected <-
       query (fun s =>
                filter (fun g => existsb (String.eqb (name g)) names)
                  (groups s)) ;;
     _ <- for_each (update_db_membership_for_group db_machine) selected ;;
     ret (Some selected))).
  { apply additive_bind; [apply additive_query|]. intros selected.
    apply additive_bind; [|intros _; apply additive_ret].
    apply additive_for_each. intros g.
    apply additive_update_db_membership_for_group. }
  destruct (Nat.ltb 128 (List.length names)); [|exact Hshare].
  destruct request; [exact Hshare|apply additive_ret].
Qed.
End Membership.

Lemma no_grant_yet (app : Application) (g : Group) (s : Store) :
  Nat.eqb
    (Query.count (fun r => Nat.eqb (group_id (group r)) (group_id g))
       (members_of (application_id app) (application_memberships s)))
    0 = true ->
  existsb (same_grant {| resource := application_id app; group := g |})
    (application_memberships s) = false.
Proof.
  intros H. apply Nat.eqb_eq in H.
  destruct (existsb _ _) eqn:E; [|reflexivity].
  apply existsb_exists in E. destruct E as (r & Hin & Hsame).
  unfold same_grant in Hsame. simpl in Hsame.
  apply andb_true_iff in Hsame. destruct Hsame as [Hr Hg].
  rewrite QueryFacts.count_zero_iff in H.
  rewrite <- (H r); [symmetry; exact Hg|].
  unfold members_of. apply filter_In. now split.
Qed.

Lemma additive_add_application_membership (app : Application)
  (identity : Identity) (dry_run : bool) :
  additive (add_application_membership app identity dry_run).
Proof.
  unfold add_application_membership. apply additive_for_each. intros g s.
  unfold bind, query. simpl.
  destruct (Nat.eqb _ 0) eqn:E; [|apply only_missing_created_refl].
  destruct dry_run; [apply only_missing_created_refl|].
  simpl. repeat split; try apply only_adds_refl.
  apply only_adds_one. now apply no_grant_yet.
Qed.

(** C8.  Image-membership reconciliation never removes a grant.  After
    [update_image_membership], and after [add_application_membership],
    however the call ends, each of the three membership tables is the table
    from before followed by join rows for grants that were missing, one row
    each; so every grant from before is still there.  This holds on every
    path of the two functions, the one for more than 128 names included. *)
Theorem membership_reconciliation_only_adds :
  (forall get_users_from_access_list account_driver cloud_machine db_machine
          s,
     let s' :=
       snd (update_image_membership get_users_from_access_list
              account_driver cloud_machine db_machine s) in
     grants_kept s s' /\ only_missing_created s s') /\
  (forall app identity dry_run s,
     let s' := snd (add_application_membership app identity dry_run s) in
     grants_kept s s' /\ only_missing_created s s').
Proof.
  split.
  - intros get_users account_driver cloud_machine db_machine s s'.
    assert (H : only_missing_created s s')
      by apply additive_update_image_membership.
    split; [now apply only_missing_created_kept|exact H].
  - intros app identity dry_run s s'.
    assert (H : only_missing_created s s')
      by apply additive_add_application_membership.
    split; [now apply only_missing_created_kept|exact H].
Qed.

(** *** The membership cleaner *)

Section Cleaner.
Variable remove_membership : ApplicationVersion -> Group -> Job unit.

Lemma clean_memberships_of_machine_level (db_machine : ProviderMachine)
  (s : Store) :
  (128 <= List.length
            (members_of (machine_id db_machine)
               (provider_machine_memberships s)))%nat ->
  clean_memberships_of remove_membership db_machine s
  = remove_all remove_membership db_machine
      (members_of (machine_id db_machine) (provider_machine_memberships s))
      s.
Proof.
  intros H. apply Nat.ltb_ge in H.
  unfold clean_memberships_of, bind, query, ret. simpl.
  rewrite H. simpl. rewrite H. simpl. rewrite H. reflexivity.
Qed.

(** Below 128 join rows at each of the three levels the machine is passed
    over. *)
Lemma clean_memberships_of_small_sets (db_machine : ProviderMachine)
  (v : ApplicationVersion) (a : Application) (s : Store) :
  find (fun r => Nat.eqb (version_id r) (application_version db_machine))
    (versions s) = Some v ->
  find (fun r => Nat.eqb (application_id r) (application v)) (applications s)
  = Some a ->
  (List.length
     (members_of (machine_id db_machine) (provider_machine_memberships s))
   < 128)%nat ->
  (List.length
     (members_of (version_id v) (application_version_memberships s))
   < 128)%nat ->
  (List.length
     (members_of (application_id a) (application_memberships s))
   < 128)%nat ->
  clean_memberships_of remove_membership db_machine s = (Returned tt, s).
Proof.
  intros Hv Ha H1 H2 H3.
  apply Nat.ltb_lt in H1. apply Nat.ltb_lt in H2. apply Nat.ltb_lt in H3.
  unfold clean_memberships_of, bind, query, ret, get_version,
    get_application.
  simpl. rewrite H1. simpl. rewrite Hv. simpl. rewrite H2. simpl.
  rewrite Hv, Ha. simpl. rewrite H3. reflexivity.
Qed.

(** C5.  A machine with exactly 128 join rows of its own is not left
    alone: the cleaner asks for the removal of the group of every one of
    the 128 rows.  The table of machine requests is not read: the access
    list of a completed request does not spare a member, and the lack of a
    completed request does not stop the removal. *)
Theorem clean_memberships_fires_at_128 (db_machine : ProviderMachine)
  (s : Store) :
  List.length
    (members_of (machine_id db_machine) (provider_machine_memberships s))
  = 128%nat ->
  _clean_memberships remove_membership [db_machine] s
  = (remove_all remove_membership db_machine
       (members_of (machine_id db_machine) (provider_machine_memberships s))
     ;; ret tt) s.
Proof.
  intros H. unfold _clean_memberships. simpl. unfold bind at 1.
  rewrite clean_memberships_of_machine_level by (rewrite H; apply Nat.le_refl).
  reflexivity.
Qed.
End Cleaner.

Lemma clean_memberships_fires_at_128_witness :
  _clean_memberships delete_grants [sample_machine 1 "image-1" 1] crowded
  = (remove_all delete_grants (sample_machine 1 "image-1" 1)
       (members_of 1%nat (provider_machine_memberships crowded))
     ;; ret tt) crowded.
Proof.
  apply (@clean_memberships_fires_at_128 delete_grants
           (sample_machine 1 "image-1" 1) crowded).
  vm_compute. reflexivity.
Defined.

(** With a collaborator that deletes the join rows it is asked to remove,
    the 128 grants are all gone after the pass. *)
Example clean_memberships_empties_crowded :
  List.length (provider_machine_memberships crowded) = 128%nat /\
  machine_requests crowded = [] /\
  provider_machine_memberships
    (snd (_clean_memberships delete_grants [sample_machine 1 "image-1" 1]
            crowded))
  = [].
Proof. repeat split; vm_compute; reflexivity. Qed.

End LifecycleFacts.

(** ** More on the status history ledger *)

Module LedgerFacts.
Import Effects Effects.Notations History HistoryScenarios.
Local Open Scope Z_scope.

(** *** Active time *)

(** X1.  The duration that [get_active_time] returns is negative exactly for
    an active row that starts no later than the effective end of the
    window while the window itself starts after that end: the check before
    the subtraction compares the start of the row, the subtraction uses
    the start of the window. *)
Theorem get_active_time_negative_iff (self : InstanceStatusHistory)
  (earliest_time latest_time : option Z) (now : Z) :
  active_time (get_active_time self earliest_time latest_time now) < 0 <->
  is_active self = true /\
  start_date self
  <= final_time (get_active_time self earliest_time latest_time now) /\
  exists earliest,
    earliest_time = Some earliest /\
    final_time (get_active_time self earliest_time latest_time now)
    < earliest.
Proof.
  unfold get_active_time, active_time, final_time.
  set (fin :=
         match latest_time with
         | Some latest =>
             match end_date self with
             | Some e => if e >=? latest then latest else e
             | None => latest
             end
         | None => match end_date self with
                   | Some e => e
                   | None => now
                   end
         end).
  destruct (is_active self); simpl.
  - destruct (Z.gtb_spec (start_date self) fin) as [Hgt|Hle]; simpl.
    + split; [lia|]. intros (_ & H & _). lia.
    + destruct earliest_time as [a|].
      * destruct (Z.leb_spec (start_date self) a) as [Hsa|Hsa]; split.
        -- intros Hneg. repeat split; try assumption.
           exists a. split; [reflexivity|lia].
        -- intros (_ & _ & a' & Ha & Hlt). injection Ha as <-. lia.
        -- lia.
        -- intros (_ & _ & a' & Ha & Hlt). injection Ha as <-. lia.
      * split; [lia|]. intros (_ & _ & a' & Ha & _). discriminate.
  - split; [lia|]. intros (H & _). discriminate.
Qed.

(** X2.  Two windows that meet at [b] add up to the window that spans them,
    as long as [b] is not after the end of the row: the active time over
    [a, b] plus the active time over [b, c] is the active time over
    [a, c]. *)
Theorem get_active_time_adds_up (self : InstanceStatusHistory)
  (a b c now : Z) :
  a <= b -> b <= c ->
  (forall e, end_date self = Some e -> b <= e) ->
  active_time (get_active_time self (Some a) (Some b) now)
  + active_time (get_active_time self (Some b) (Some c) now)
  = active_time (get_active_time self (Some a) (Some c) now).
Proof.
  intros Hab Hbc Hend. unfold get_active_time, active_time.
  destruct (is_active self); simpl; [|reflexivity].
  destruct (end_date self) as [e|].
  - specialize (Hend e eq_refl).
    destruct (Z.leb_spec (start_date self) a),
             (Z.leb_spec (start_date self) b),
             (Z.geb_spec e b), (Z.geb_spec e c);
      repeat match goal with
             | |- context [ (?x >? ?y) ] => destruct (Z.gtb_spec x y)
             end; simpl; lia.
  - destruct (Z.leb_spec (start_date self) a),
             (Z.leb_spec (start_date self) b);
      repeat match goal with
             | |- context [ (?x >? ?y) ] => destruct (Z.gtb_spec x y)
             end; simpl; lia.
Qed.

Lemma get_active_time_adds_up_witness :
  active_time (get_active_time chain_first (Some 0) (Some 4) 60)
  + active_time (get_active_time chain_first (Some 4) (Some 30) 60)
  = active_time (get_active_time chain_first (Some 0) (Some 30) 60).
Proof.
  apply get_active_time_adds_up.
  - lia.
  - lia.
  - intros e He. injection He as <-. lia.
Defined.

(** *** Diagnostics *)

(** X3.  [_build_extra] returns a dictionary with both keys, "display_error"
    and "traceback", or with none: never one without the other. *)
Theorem build_extra_both_or_neither (status_name : option string)
  (fault : Diagnostics.Fault)
  (deploy_fault_message deploy_fault_trace : option string) :
  let extra :=
    Diagnostics._build_extra status_name fault deploy_fault_message
      deploy_fault_trace in
  Diagnostics.dict_keys extra = [] \/
  Diagnostics.dict_keys extra = ["display_error"%string; "traceback"%string].
Proof.
  unfold Diagnostics._build_extra.
  destruct (negb _); [now left|].
  destruct (Diagnostics.text_is_true deploy_fault_message
            && Diagnostics.text_is_true deploy_fault_trace).
  - right. destruct (Diagnostics.fault_is_true fault); [|reflexivity].
    destruct fault; reflexivity.
  - destruct (Diagnostics.fault_is_true fault); [|now left].
    destruct fault; [now left|now right|now left].
Qed.

(** X4.  For a status "active" or "deploy_error", a deploy fault given with
    both its message and its trace is what the dictionary holds, whatever
    the [fault] argument says. *)
Theorem build_extra_deploy_fault_wins (status_name : string)
  (fault : Diagnostics.Fault) (message trace : string) :
  status_name = "active"%string \/ status_name = "deploy_error"%string ->
  message <> EmptyString ->
  trace <> EmptyString ->
  Diagnostics._build_extra (Some status_name) fault (Some message)
    (Some trace)
  = [("display_error"%string, Some message);
     ("traceback"%string, Some trace)].
Proof.
  intros Hstatus Hm Ht. unfold Diagnostics._build_extra.
  assert (Hs : (String.eqb status_name "active"
                || String.eqb status_name "deploy_error") = true).
  { apply orb_true_iff. rewrite !String.eqb_eq. exact Hstatus. }
  rewrite Hs. simpl.
  destruct message as [|m message]; [congruence|].
  destruct trace as [|t trace]; [congruence|]. simpl.
  destruct (Diagnostics.fault_is_true fault); [|reflexivity].
  destruct fault; reflexivity.
Qed.

Lemma build_extra_deploy_fault_wins_witness :
  Diagnostics._build_extra (Some "deploy_error"%string)
    (Diagnostics.FaultDict
       [("message"%string, Some "No valid host"%string)])
    (Some "Deploy failed"%string) (Some "Traceback: boot"%string)
  = [("display_error"%string, Some "Deploy failed"%string);
     ("traceback"%string, Some "Traceback: boot"%string)].
Proof.
  apply build_extra_deploy_fault_wins.
  - now right.
  - discriminate.
  - discriminate.
Defined.

(** *** Writes of [transaction] *)

Lemma fresh_history_id_above (s : Store) (r : InstanceStatusHistory)
  (k : nat) :
  In r (instance_status_history s) -> id r = Some k ->
  (k < fresh_history_id s)%nat.
Proof.
  unfold fresh_history_id.
  induction (instance_status_history s) as [|x rows IH]; simpl; [intros []|].
  intros [->|Hin] Hk.
  - rewrite Hk. lia.
  - specialize (IH Hin Hk). lia.
Qed.

Lemma fresh_history_id_new (s : Store) :
  ~ In (Some (fresh_history_id s)) (LedgerSpec.primary_keys s).
Proof.
  unfold LedgerSpec.primary_keys. intros H. apply in_map_iff in H.
  destruct H as (r & Hid & Hin).
  pose proof (fresh_history_id_above s r Hin Hid). lia.
Qed.

Lemma option_nat_eqb_eq (a b : option nat) :
  option_nat_eqb a b = true <-> a = b.
Proof.
  destruct a as [x|], b as [y|]; simpl; split; intros H;
    try discriminate; try reflexivity.
  - apply Nat.eqb_eq in H. now subst.
  - injection H as ->. apply Nat.eqb_refl.
Qed.

Section Writes.
Variable get_last_history : Store -> Instance -> option InstanceStatusHistory.
Variable lock_conflict : InstanceStatusHistory -> bool.

(** What a successful [save] leaves: the statuses as they were, the saved
    row in the table, and next to it the rows that were there, except the
    ones it replaced, which carried the same key. *)
Lemma save_returns (h saved : InstanceStatusHistory) (s s1 : Store) :
  save lock_conflict h s = (Returned saved, s1) ->
  lock_conflict h = false /\
  instance_status s1 = instance_status s /\
  In saved (instance_status_history s1) /\
  ((id h <> None /\ saved = h) \/
   (id h = None /\ saved = set_id h (Some (fresh_history_id s)))) /\
  (forall r, In r (instance_status_history s1) ->
             r = saved \/ (In r (instance_status_history s) /\
                           id r <> id saved)) /\
  (forall r, In r (instance_status_history s) -> id r <> id saved ->
             In r (instance_status_history s1)) /\
  (LedgerSpec.well_keyed s -> LedgerSpec.well_keyed s1) /\
  (List.length (instance_status_history s)
   <= List.length (instance_status_history s1))%nat.
Proof.
  unfold save. destruct (lock_conflict h); [discriminate|].
  destruct (id h) as [k|] eqn:Hid.
  - destruct (existsb _ (instance_status_history s)) eqn:E.
    + intros H. injection H as <- <-. simpl.
      split; [reflexivity|]. split; [reflexivity|].
      apply existsb_exists in E. destruct E as (r0 & Hr0 & Hk0).
      split.
      { apply in_map_iff. exists r0. now rewrite Hk0. }
      split; [left; split; [discriminate|reflexivity]|]. split.
      { intros r Hr. apply in_map_iff in Hr. destruct Hr as (x & <- & Hx).
        destruct (option_nat_eqb (id x) (Some k)) eqn:Ex; [now left|].
        right. split; [assumption|]. rewrite Hid. intros Heq.
        apply option_nat_eqb_eq in Heq. congruence. }
      split.
      { intros r Hr Hne. apply in_map_iff. exists r.
        destruct (option_nat_eqb (id r) (Some k)) eqn:Ex; [|auto].
        apply option_nat_eqb_eq in Ex. rewrite Hid in Hne. congruence. }
      split.
      { unfold LedgerSpec.well_keyed, LedgerSpec.primary_keys. simpl.
        rewrite map_map.
        assert (Hsame :
          map (fun x => id (if option_nat_eqb (id x) (Some k) then h
                            else x))
            (instance_status_history s)
          = map id (instance_status_history s)).
        { apply map_ext. intros x.
          destruct (option_nat_eqb (id x) (Some k)) eqn:Ex; [|reflexivity].
          apply option_nat_eqb_eq in Ex. congruence. }
        now rewrite Hsame. }
      now rewrite length_map.
    + intros H. injection H as <- <-. simpl.
      split; [reflexivity|]. split; [reflexivity|].
      split; [apply in_app_iff; right; now left|].
      split; [left; split; [discriminate|reflexivity]|]. split.
      { intros r Hr. apply in_app_iff in Hr. destruct Hr as [Hr|[<-|[]]].
        - right. split; [assumption|]. rewrite Hid. intros Heq.
          assert (existsb
                    (fun x => option_nat_eqb (id x) (Some k))
                    (instance_status_history s) = true); [|congruence].
          apply existsb_exists. exists r. split; [assumption|].
          now apply option_nat_eqb_eq.
        - now left. }
      split.
      { intros r Hr _. apply in_app_iff. now left. }
      split.
      { unfold LedgerSpec.well_keyed, LedgerSpec.primary_keys. simpl.
        rewrite map_app. simpl. intros [Hnd Hnone].
        assert (Hnew : ~ In (id h) (map id (instance_status_history s))).
        { intros Hin. apply in_map_iff in Hin.
          destruct Hin as (x & Hx & Hin).
          assert (existsb
                    (fun x => option_nat_eqb (id x) (Some k))
                    (instance_status_history s) = true); [|congruence].
          apply existsb_exists. exists x. split; [assumption|].
          apply option_nat_eqb_eq. congruence. }
        split.
        - apply NoDup_app; [assumption|repeat constructor; intros []|].
          intros key Hin [<-|[]]. contradiction.
        - rewrite in_app_iff. intros [Hin|[Hin|[]]]; [contradiction|].
          congruence. }
      rewrite length_app. lia.
  - intros H. injection H as <- <-. simpl.
    split; [reflexivity|]. split; [reflexivity|].
    split; [apply in_app_iff; right; now left|].
    split; [right; now split|]. split.
    { intros r Hr. apply in_app_iff in Hr. destruct Hr as [Hr|[<-|[]]].
      - right. split; [assumption|]. simpl. intros Heq.
        apply (fresh_history_id_new s). unfold LedgerSpec.primary_keys.
        rewrite <- Heq. now apply in_map.
      - now left. }
    split.
    { intros r Hr _. apply in_app_iff. now left. }
    split.
    { unfold LedgerSpec.well_keyed, LedgerSpec.primary_keys. simpl.
      rewrite map_app. simpl. intros [Hnd Hnone]. split.
      - apply NoDup_app; [assumption|repeat constructor; intros []|].
        intros key Hin [<-|[]]. now apply (fresh_history_id_new s).
      - rewrite in_app_iff. intros [Hin|[Hin|[]]]; [contradiction|].
        discriminate. }
    rewrite length_app. lia.
Qed.
End Writes.

Lemma filter_nothing {A : Type} (p : A -> bool) (l : list A) :
  (forall x, In x l -> p x = false) -> filter p l = [].
Proof.
  induction l as [|x l IH]; intros H; simpl; [reflexivity|].
  rewrite (H x (or_introl eq_refl)). apply IH. intros y Hy. apply H.
  now right.
Qed.

Lemma get_or_create_returns (status_name : string) (st : InstanceStatus)
  (s s2 : Store) :
  get_or_create status_name s = (Returned st, s2) ->
  name st = status_name /\
  instance_status_history s2 = instance_status_history s /\
  In st (instance_status s2) /\
  get_or_create status_name s2 = (Returned st, s2).
Proof.
  unfold get_or_create.
  destruct (get (filter (fun x => String.eqb (name x) status_name)
                   (instance_status s))) as [found| |] eqn:G.
  - intros H. injection H as <- <-. apply HistoryFacts.get_found_In in G.
    assert (Hin : In found
                    (filter (fun x => String.eqb (name x) status_name)
                       (instance_status s))) by (rewrite G; now left).
    apply filter_In in Hin. destruct Hin as [Hin Hname].
    apply String.eqb_eq in Hname.
    repeat split; try assumption. now rewrite G.
  - intros H. injection H as <- <-. simpl.
    repeat split.
    + apply in_app_iff. right. now left.
    + rewrite filter_app. simpl. rewrite String.eqb_refl.
      revert G.
      destruct (filter _ (instance_status s)) as [|x [|y rest]];
        [reflexivity|discriminate|discriminate].
  - discriminate.
Qed.

Section Transactions.
Variable get_last_history : Store -> Instance -> option InstanceStatusHistory.
Variable lock_conflict : InstanceStatusHistory -> bool.

Lemma save_raises (h : InstanceStatusHistory) (s s1 : Store)
  (e : Exception) :
  save lock_conflict h s = (Raised e, s1) -> e = DatabaseError.
Proof.
  unfold save. destruct (lock_conflict h).
  - intros H. now injection H as <- _.
  - destruct (id h); [destruct (existsb _ _)|]; discriminate.
Qed.

Lemma get_or_create_raises (status_name : string) (s s1 : Store)
  (e : Exception) :
  get_or_create status_name s = (Raised e, s1) ->
  e = MultipleObjectsReturned.
Proof.
  unfold get_or_create. destruct (get _); try discriminate.
  intros H. now injection H as <- _.
Qed.

Lemma transaction_block_steps (status_name : string)
  (activity : option string) (instance : Instance) (size : nat)
  (extra : option (list (string * string))) (start_time : option Z)
  (last_history : option InstanceStatusHistory) (now : Z) (s : Store) :
  transaction_block get_last_history lock_conflict status_name activity
    instance size extra start_time last_history now s
  = match LedgerSpec.row_to_close get_last_history last_history instance s
    with
    | Some lh =>
        LedgerSpec.close_and_open lock_conflict status_name activity instance
          size extra start_time now lh s
    | None => (Raised ValueError, s)
    end.
Proof.
  unfold transaction_block, LedgerSpec.row_to_close,
    LedgerSpec.close_and_open.
  destruct last_history as [supplied|]; [reflexivity|].
  unfold bind at 1.
  destruct (get_last_history s instance) as [fetched|]; [|reflexivity].
  destruct (end_date fetched); reflexivity.
Qed.

Lemma close_and_open_raises (status_name : string)
  (activity : option string) (instance : Instance) (size : nat)
  (extra : option (list (string * string))) (start_time : option Z)
  (now : Z) (lh : InstanceStatusHistory) (s sb : Store) (e : Exception) :
  LedgerSpec.close_and_open lock_conflict status_name activity instance size
    extra start_time now lh s = (Raised e, sb) ->
  e = DatabaseError \/ e = MultipleObjectsReturned.
Proof.
  unfold LedgerSpec.close_and_open, bind.
  destruct (save lock_conflict (set_end_date lh start_time) s)
    as [[closed|e1] s1] eqn:S1.
  - unfold create_history, bind, ret.
    destruct (get_or_create status_name s1) as [[st|e2] s2] eqn:G.
    + match goal with
      | |- save lock_conflict ?h s2 = _ -> _ =>
          destruct (save lock_conflict h s2) as [[n|e3] s3] eqn:S2
      end; [discriminate|].
      intros H. injection H as <- _. left. now apply save_raises in S2.
    + intros H. injection H as <- _. right.
      now apply get_or_create_raises in G.
  - intros H. injection H as <- _. left. now apply save_raises in S1.
Qed.

Lemma close_and_open_returns (status_name : string)
  (activity : option string) (instance : Instance) (size : nat)
  (extra : option (list (string * string))) (start_time : option Z)
  (now : Z) (lh new_history : InstanceStatusHistory) (s s' : Store) :
  LedgerSpec.close_and_open lock_conflict status_name activity instance size
    extra start_time now lh s = (Returned new_history, s') ->
  exists closed st s1 s2,
    save lock_conflict (set_end_date lh start_time) s = (Returned closed, s1)
    /\
    get_or_create status_name s1 = (Returned st, s2) /\
    save lock_conflict
      {| id := None; instance := instance; size := size; status := st;
         activity := activity;
         start_date := LedgerSpec.opening_date start_time now;
         end_date := None; extra := extra |} s2
    = (Returned new_history, s').
Proof.
  unfold LedgerSpec.close_and_open, bind.
  destruct (save lock_conflict (set_end_date lh start_time) s)
    as [[closed|e1] s1] eqn:S1; [|discriminate].
  unfold create_history, bind, ret.
  destruct (get_or_create status_name s1) as [[st|e2] s2] eqn:G;
    [|discriminate].
  intros H. exists closed, st, s1, s2. repeat split; try assumption.
  rewrite <- H. destruct start_time; reflexivity.
Qed.

(** The steps behind a call of [transaction] that returns a row. *)
Lemma transaction_returns_row (status_name : string)
  (activity : option string) (instance : Instance) (size : nat)
  (extra : option (list (string * string))) (start_time : option Z)
  (last_history : option InstanceStatusHistory) (now : Z) (s s' : Store)
  (new_history : InstanceStatusHistory) :
  transaction get_last_history lock_conflict status_name activity instance
    size extra start_time last_history now s
  = (Returned (Some new_history), s') ->
  exists lh,
    LedgerSpec.row_to_close get_last_history last_history instance s
    = Some lh /\
    LedgerSpec.close_and_open lock_conflict status_name activity instance
      size extra start_time now lh s = (Returned new_history, s').
Proof.
  unfold transaction, atomic. rewrite transaction_block_steps.
  destruct (LedgerSpec.row_to_close get_last_history last_history instance s)
    as [lh|]; [|discriminate].
  destruct (LedgerSpec.close_and_open lock_conflict status_name activity
              instance size extra start_time now lh s)
    as [[h|e] sb] eqn:B; [|destruct e; discriminate].
  intros H. injection H as <- <-. now exists lh.
Qed.

(** X5.  [transaction] ends in one of four ways: it returns the new row; it
    returns nothing, after a lock conflict; it raises [ValueError], when it
    was given no row and found none to close; it raises
    [MultipleObjectsReturned], when several statuses carry the name.  In
    the last three the store is what it was before the call: no
    [DatabaseError] leaves the method, and nothing is half written. *)
Theorem transaction_outcomes (status_name : string)
  (activity : option string) (instance : Instance) (size : nat)
  (extra : option (list (string * string))) (start_time : option Z)
  (last_history : option InstanceStatusHistory) (now : Z) (s : Store) :
  let outcome :=
    transaction get_last_history lock_conflict status_name activity instance
      size extra start_time last_history now s in
  (exists new_history s', outcome = (Returned (Some new_history), s')) \/
  outcome = (Returned None, s) \/
  (outcome = (Raised ValueError, s) /\ last_history = None /\
   LedgerSpec.row_to_close get_last_history last_history instance s = None)
  \/
  outcome = (Raised MultipleObjectsReturned, s).
Proof.
  unfold transaction, atomic. rewrite transaction_block_steps.
  destruct (LedgerSpec.row_to_close get_last_history last_history instance s)
    as [lh|] eqn:R.
  - destruct (LedgerSpec.close_and_open lock_conflict status_name activity
                instance size extra start_time now lh s)
      as [[h|e] sb] eqn:B.
    + left. now exists h, sb.
    + apply close_and_open_raises in B. destruct B as [->| ->]; auto.
  - right. right. left. repeat split.
    unfold LedgerSpec.row_to_close in R.
    destruct last_history; [discriminate|reflexivity].
Qed.

(** X6.  When [transaction] returns a row, the row it closed and the row it
    opened are both in the ledger: the closed one ends at [start_time], the
    new one starts there (at the reading of the clock when no [start_time]
    was given) and is open, belongs to the instance and carries the status
    asked for, under a primary key that no row had before.  With a
    [start_time] the two rows are linked: the end of the one is the start
    of the other. *)
Theorem transaction_links_rows (status_name : string)
  (activity : option string) (instance : Instance) (size : nat)
  (extra : option (list (string * string))) (start_time : option Z)
  (last_history : option InstanceStatusHistory) (now : Z) (s s' : Store)
  (new_history : InstanceStatusHistory) :
  transaction get_last_history lock_conflict status_name activity instance
    size extra start_time last_history now s
  = (Returned (Some new_history), s') ->
  exists lh closed,
    LedgerSpec.row_to_close get_last_history last_history instance s
    = Some lh /\
    In closed (instance_status_history s') /\
    In new_history (instance_status_history s') /\
    end_date closed = start_time /\
    start_date closed = start_date lh /\
    History.instance closed = History.instance lh /\
    start_date new_history = LedgerSpec.opening_date start_time now /\
    end_date new_history = None /\
    History.instance new_history = instance /\
    name (status new_history) = status_name /\
    (forall t, start_time = Some t ->
               end_date closed = Some (start_date new_history)) /\
    (forall r, In r (instance_status_history s) -> id r <> id new_history).
Proof.
  intros H. apply transaction_returns_row in H. destruct H as (lh & Hlh & H).
  apply close_and_open_returns in H.
  destruct H as (closed & st & s1 & s2 & S1 & G & S2).
  apply save_returns in S1.
  destruct S1 as (_ & _ & Hclosed & Hshape & _ & Hkeep1 & _ & _).
  apply get_or_create_returns in G. destruct G as (Hname & Hsame & _ & _).
  apply save_returns in S2.
  destruct S2 as (_ & _ & Hnew & Hnewshape & _ & Hkeep & _ & _).
  simpl in Hnewshape.
  destruct Hnewshape as [[Hne _]|[_ Heq]]; [now elim Hne|].
  assert (Hidnew : id new_history = Some (fresh_history_id s2))
    by (rewrite Heq; reflexivity).
  assert (Habove : forall r k, In r (instance_status_history s1) ->
                               id r = Some k -> id r <> id new_history).
  { intros r k Hr Hk. rewrite Hidnew, Hk. intros Hc. injection Hc as Hc.
    rewrite <- Hsame in Hr.
    pose proof (fresh_history_id_above s2 r Hr Hk). lia. }
  assert (Hfields :
    end_date closed = start_time /\ start_date closed = start_date lh /\
    History.instance closed = History.instance lh /\ id closed <> None).
  { destruct Hshape as [[Hne ->]|[_ ->]]; repeat split;
      [exact Hne|discriminate]. }
  destruct Hfields as (He & Hs & Hi & Hk).
  exists lh, closed. repeat split; try assumption;
    try (rewrite Heq; reflexivity).
  - apply Hkeep; [now rewrite Hsame|].
    destruct (id closed) as [k|] eqn:Hidc; [|congruence].
    rewrite <- Hidc. now apply (Habove closed k).
  - rewrite Heq. simpl. exact Hname.
  - intros t Ht. rewrite He, Heq. simpl. rewrite Ht. reflexivity.
  - intros r Hr. destruct (id r) as [k|] eqn:Hidr;
      [|rewrite Hidnew; discriminate].
    destruct (option_nat_eqb (id r) (id closed)) eqn:E.
    + apply option_nat_eqb_eq in E. rewrite <- Hidr, E.
      destruct (id closed) as [kc|] eqn:Hidc; [|congruence].
      rewrite <- Hidc. now apply (Habove closed kc).
    + rewrite <- Hidr. apply (Habove r k); [|assumption].
      apply Hkeep1; [assumption|]. intros Hc.
      apply option_nat_eqb_eq in Hc. congruence.
Qed.

(** X7.  [transaction] keeps the primary keys in order: if every row of the
    ledger has a key of its own before the call, so it is after it,
    however the call ends. *)
Theorem transaction_keeps_keys (status_name : string)
  (activity : option string) (instance : Instance) (size : nat)
  (extra : option (list (string * string))) (start_time : option Z)
  (last_history : option InstanceStatusHistory) (now : Z) (s : Store) :
  LedgerSpec.well_keyed s ->
  LedgerSpec.well_keyed
    (snd (transaction get_last_history lock_conflict status_name activity
            instance size extra start_time last_history now s)).
Proof.
  intros Hkeys.
  destruct (HistoryFacts.transaction_all_or_nothing get_last_history
              lock_conflict status_name activity instance size extra
              start_time last_history now s)
    as [(new_history & s' & H)| ->]; [|exact Hkeys].
  rewrite H. simpl. apply transaction_returns_row in H.
  destruct H as (lh & _ & H). apply close_and_open_returns in H.
  destruct H as (closed & st & s1 & s2 & S1 & G & S2).
  apply save_returns in S1. destruct S1 as (_ & _ & _ & _ & _ & _ & K1 & _).
  apply get_or_create_returns in G. destruct G as (_ & Hsame & _ & _).
  apply save_returns in S2. destruct S2 as (_ & _ & _ & _ & _ & _ & K2 & _).
  apply K2. specialize (K1 Hkeys).
  unfold LedgerSpec.well_keyed, LedgerSpec.primary_keys in *.
  now rewrite Hsame.
Qed.
End Transactions.

Lemma chain_moves_on :
  transaction newest_row never_locked "suspended" None sample_instance 1%nat
    None (Some 30) (Some chain_last) 60 chain
  = (Returned (Some LedgerScenarios.chain_opened),
     LedgerScenarios.chain_moved).
Proof. reflexivity. Defined.

Lemma chain_well_keyed : LedgerSpec.well_keyed chain.
Proof.
  split.
  - repeat constructor; simpl; intuition discriminate.
  - simpl. intuition discriminate.
Defined.

Lemma transaction_links_rows_witness :
  exists lh closed,
    LedgerSpec.row_to_close newest_row (Some chain_last) sample_instance chain
    = Some lh /\
    In closed (instance_status_history LedgerScenarios.chain_moved) /\
    In LedgerScenarios.chain_opened
      (instance_status_history LedgerScenarios.chain_moved) /\
    end_date closed = Some 30 /\
    start_date closed = start_date lh /\
    History.instance closed = History.instance lh /\
    start_date LedgerScenarios.chain_opened
    = LedgerSpec.opening_date (Some 30) 60 /\
    end_date LedgerScenarios.chain_opened = None /\
    History.instance LedgerScenarios.chain_opened = sample_instance /\
    name (status LedgerScenarios.chain_opened) = "suspended"%string /\
    (forall t, Some 30 = Some t ->
               end_date closed
               = Some (start_date LedgerScenarios.chain_opened)) /\
    (forall r, In r (instance_status_history chain) ->
               id r <> id LedgerScenarios.chain_opened).
Proof.
  apply (@transaction_links_rows newest_row never_locked "suspended" None
           sample_instance 1%nat None (Some 30) (Some chain_last) 60 chain
           LedgerScenarios.chain_moved LedgerScenarios.chain_opened).
  exact chain_moves_on.
Defined.

Lemma transaction_keeps_keys_witness :
  LedgerSpec.well_keyed
    (snd (transaction newest_row never_locked "suspended" None
            sample_instance 1%nat None (Some 30) (Some chain_last) 60 chain)).
Proof.
  apply transaction_keeps_keys. exact chain_well_keyed.
Defined.

Section Traversal.
Variable get_last_history : Store -> Instance -> option InstanceStatusHistory.
Variable lock_conflict : InstanceStatusHistory -> bool.

(** X8.  After [transaction] has closed a saved row at [t] and opened the next
    one, [next] on the closed row returns the row just opened.  It takes
    that the instance has not ended at [t], that no row of the instance
    started at [t] before, the closed one included, and that the closed
    row is not what [get_last_history] now answers. *)
Theorem transaction_then_next (status_name : string)
  (activity : option string) (instance : Instance) (size : nat)
  (extra : option (list (string * string))) (t now : Z)
  (lh new_history : InstanceStatusHistory) (key : nat) (s s' : Store) :
  transaction get_last_history lock_conflict status_name activity instance
    size extra (Some t) (Some lh) now s
  = (Returned (Some new_history), s') ->
  id lh = Some key ->
  instance_id (History.instance lh) = instance_id instance ->
  instance_end_date (History.instance lh) <> Some t ->
  start_date lh <> t ->
  (forall r, In r (instance_status_history s) ->
             instance_id (History.instance r) = instance_id instance ->
             start_date r <> t) ->
  (forall last, get_last_history s' (History.instance lh) = Some last ->
                id last <> Some key) ->
  next get_last_history s' (set_end_date lh (Some t))
  = Returned (Some new_history).
Proof.
  intros H Hkey Hinst Hrunning Hstart Hfree Hlast.
  apply transaction_returns_row in H. destruct H as (lh' & Hlh & H).
  simpl in Hlh. injection Hlh as <-.
  apply close_and_open_returns in H.
  destruct H as (closed & st & s1 & s2 & S1 & G & S2).
  apply save_returns in S1.
  destruct S1 as (_ & _ & _ & Hshape & Hrows1 & _ & _ & _).
  apply get_or_create_returns in G. destruct G as (_ & Hsame & _ & _).
  unfold save in S2. destruct (lock_conflict _); [discriminate|].
  simpl in S2. injection S2 as Hnew Hs'.
  assert (Hclosed : closed = set_end_date lh (Some t)).
  { destruct Hshape as [[_ ->]|[Hnone _]]; [reflexivity|].
    simpl in Hnone. congruence. }
  unfold next. simpl.
  assert (Hie : match instance_end_date (History.instance lh) with
                | Some ie => ie =? t
                | None => false
                end = false).
  { destruct (instance_end_date (History.instance lh)) as [ie|];
      [|reflexivity].
    apply Z.eqb_neq. congruence. }
  rewrite Hie.
  assert (Hnotlast :
    match get_last_history s' (History.instance lh) with
    | Some last => model_eqb (set_end_date lh (Some t)) last
    | None => false
    end = false).
  { destruct (get_last_history s' (History.instance lh)) as [last|] eqn:L;
      [|reflexivity].
    specialize (Hlast last eq_refl). unfold model_eqb. simpl. rewrite Hkey.
    destruct (id last) as [kl|]; [|reflexivity].
    apply Nat.eqb_neq. congruence. }
  rewrite Hnotlast.
  unfold get_start_date, instancestatushistory_set.
  rewrite <- Hs'. simpl. rewrite Hsame, !filter_app. simpl.
  rewrite Hinst, Nat.eqb_refl. simpl. rewrite Z.eqb_refl.
  rewrite (filter_nothing
             (fun h => start_date h =? t)
             (filter
                (fun h =>
                   Nat.eqb (instance_id (History.instance h))
                     (instance_id instance))
                (instance_status_history s1))).
  - simpl. now rewrite Hnew.
  - intros r Hr. apply filter_In in Hr. destruct Hr as [Hr Hri].
    apply Nat.eqb_eq in Hri. apply Z.eqb_neq.
    destruct (Hrows1 r Hr) as [->|[Hin _]].
    + rewrite Hclosed. exact Hstart.
    + now apply Hfree.
Qed.
End Traversal.

Lemma transaction_then_next_witness :
  next newest_row LedgerScenarios.chain_moved
    (set_end_date chain_last (Some 30))
  = Returned (Some LedgerScenarios.chain_opened).
Proof.
  apply (@transaction_then_next newest_row never_locked "suspended" None
           sample_instance 1%nat None 30 60 chain_last
           LedgerScenarios.chain_opened 3%nat chain
           LedgerScenarios.chain_moved).
  - exact chain_moves_on.
  - reflexivity.
  - reflexivity.
  - discriminate.
  - discriminate.
  - intros r [<-|[<-|[<-|[]]]] _; discriminate.
  - intros last Hl. vm_compute in Hl. injection Hl as <-. discriminate.
Defined.

(** X9.  [create_history] builds a row without saving it: the ledger is left
    as it was and the row has no primary key; the status of the name is
    looked up or created, so that looking it up again gives the same
    status and writes nothing.  It returns a row unless two statuses
    with the name exist, and then it raises and writes nothing. *)
Theorem create_history_is_unsaved (status_name : string)
  (instance : Instance) (size : nat) (start_date end_date : option Z)
  (activity : option string) (extra : option (list (string * string)))
  (now : Z) (s : Store) :
  instance_status_history
    (snd (create_history status_name instance size start_date end_date
            activity extra now s))
  = instance_status_history s /\
  (forall row s',
     create_history status_name instance size start_date end_date activity
       extra now s = (Returned row, s') ->
     id row = None /\
     name (status row) = status_name /\
     History.end_date row = end_date /\
     get_or_create status_name s' = (Returned (status row), s')) /\
  ((exists row s',
      create_history status_name instance size start_date end_date activity
        extra now s = (Returned row, s')) \/
   (create_history status_name instance size start_date end_date activity
      extra now s = (Raised MultipleObjectsReturned, s) /\
    (2 <= List.length
            (filter (fun st => String.eqb (name st) status_name)
               (instance_status s)))%nat)).
Proof.
  unfold create_history, bind, ret.
  destruct (get_or_create status_name s) as [[st|e] s1] eqn:G.
  - pose proof G as G'. apply get_or_create_returns in G'.
    destruct G' as (Hname & Hsame & _ & Hagain).
    split; [exact Hsame|]. split.
    + intros row s' H. injection H as <- <-.
      destruct start_date, end_date; simpl; auto.
    + left. eexists _, _. reflexivity.
  - unfold get_or_create in G.
    destruct (filter (fun st => String.eqb (name st) status_name)
                (instance_status s)) as [|a [|b rest]]; simpl in G;
      try discriminate.
    injection G as <- <-. split; [reflexivity|]. split; [discriminate|].
    right. split; [reflexivity|]. simpl. lia.
Qed.

End LedgerFacts.

(** ** More on the reconciliation passes *)

Module ReconciliationFacts.
Import Effects Effects.Notations Lifecycle LifecycleSpec LifecycleScenarios.
Import ReconciliationSpec ReconciliationScenarios.
Local Open Scope Z_scope.

Lemma upsert_keys {A : Type} (key : A -> nat) (row : A) (table : list A) :
  existsb (fun r => Nat.eqb (key r) (key row)) table = true ->
  map key (upsert (fun r => Nat.eqb (key r) (key row)) row table)
  = map key table.
Proof.
  intros E. unfold upsert. rewrite E. rewrite map_map.
  apply map_ext. intros r. destruct (Nat.eqb (key r) (key row)) eqn:K.
  - apply Nat.eqb_eq in K. now symmetry.
  - reflexivity.
Qed.

Lemma find_existsb {A : Type} (p : A -> bool) (l : list A) (x : A) :
  find p l = Some x -> existsb p l = true.
Proof.
  intros H. apply find_some in H. apply existsb_exists. now exists x.
Qed.

Lemma find_key {A : Type} (key : A -> nat) (k : nat) (l : list A) :
  In k (map key l) -> exists x, find (fun r => Nat.eqb (key r) k) l = Some x.
Proof.
  intros H. apply in_map_iff in H. destruct H as (x & Hk & Hin).
  destruct (find (fun r => Nat.eqb (key r) k) l) as [y|] eqn:F; [now exists y|].
  exfalso. apply (find_none _ _ F) in Hin. apply Nat.eqb_neq in Hin.
  contradiction.
Qed.

Lemma existsb_filter {A : Type} (p : A -> bool) (l : list A) :
  existsb p l = match filter p l with [] => false | _ :: _ => true end.
Proof.
  induction l as [|x l IH]; simpl; [reflexivity|].
  destruct (p x); simpl; [reflexivity|exact IH].
Qed.

Section Frame.
Variable only_current : Z -> ApplicationVersion -> bool.

(** X10.  [remove_machine] stamps end dates and does nothing else.  However it
    is called and however it ends: it answers [True] or stops at a foreign
    key without a row; the groups, the three membership tables and the
    machine requests are as before; no version and no application is
    inserted or deleted; a row of the machine, version or application
    table that is not as before is the machine of the call, or a row from
    before, stamped with the time of the call; and a dry run leaves the
    store as it was. *)
Theorem remove_machine_stamps_end_dates_only (db_machine : ProviderMachine)
  (now_time : option Z) (dry_run : bool) (clock : Z) (s : Store) :
  let t := match now_time with Some t => t | None => clock end in
  let run := remove_machine only_current db_machine now_time dry_run clock s in
  (fst run = Returned true \/ fst run = Raised ObjectDoesNotExist) /\
  groups (snd run) = groups s /\
  provider_machine_memberships (snd run) = provider_machine_memberships s /\
  application_version_memberships (snd run)
  = application_version_memberships s /\
  application_memberships (snd run) = application_memberships s /\
  machine_requests (snd run) = machine_requests s /\
  map version_id (versions (snd run)) = map version_id (versions s) /\
  map application_id (applications (snd run))
  = map application_id (applications s) /\
  (forall r, In r (machines (snd run)) ->
             In r (machines s) \/ r = set_end_date db_machine (Some t)) /\
  (forall v, In v (versions (snd run)) ->
             In v (versions s) \/
             exists v0, In v0 (versions s) /\
                        v = set_version_end_date v0 (Some t)) /\
  (forall a, In a (applications (snd run)) ->
             In a (applications s) \/
             exists a0, In a0 (applications s) /\
                        a = set_application_end_date a0 (Some t)) /\
  (dry_run = true -> snd run = s).
Proof.
  cbv zeta. set (t := match now_time with Some t => t | None => clock end).
  assert (Hm : forall r,
             In r (upsert
                     (fun r => Nat.eqb (machine_id r) (machine_id db_machine))
                     (set_end_date db_machine (Some t)) (machines s)) ->
             In r (machines s) \/ r = set_end_date db_machine (Some t)).
  { intros r Hr. apply LifecycleFacts.upsert_In in Hr.
    destruct Hr as [->|[Hr _]]; auto. }
  assert (Hv : forall v0 v,
             find (fun r => Nat.eqb (version_id r)
                              (application_version db_machine))
               (versions s) = Some v0 ->
             In v (upsert (fun r => Nat.eqb (version_id r) (version_id v0))
                     (set_version_end_date v0 (Some t)) (versions s)) ->
             In v (versions s) \/
             exists v1, In v1 (versions s) /\
                        v = set_version_end_date v1 (Some t)).
  { intros v0 v F Hin. apply LifecycleFacts.upsert_In in Hin.
    destruct Hin as [->|[Hin _]]; [right|now left].
    exists v0. split; [|reflexivity]. now apply find_some in F. }
  assert (Hvk : forall v0,
             find (fun r => Nat.eqb (version_id r)
                              (application_version db_machine))
               (versions s) = Some v0 ->
             map version_id
               (upsert (fun r => Nat.eqb (version_id r) (version_id v0))
                  (set_version_end_date v0 (Some t)) (versions s))
             = map version_id (versions s)).
  { intros v0 F.
    apply (upsert_keys version_id (set_version_end_date v0 (Some t))).
    simpl. apply existsb_exists. exists v0. apply find_some in F.
    split; [tauto|apply Nat.eqb_refl]. }
  assert (Ha : forall k a0 a,
             find (fun r => Nat.eqb (application_id r) k) (applications s)
             = Some a0 ->
             In a (upsert
                     (fun r => Nat.eqb (application_id r) (application_id a0))
                     (set_application_end_date a0 (Some t)) (applications s)) ->
             In a (applications s) \/
             exists a1, In a1 (applications s) /\
                        a = set_application_end_date a1 (Some t)).
  { intros k a0 a F Hin. apply LifecycleFacts.upsert_In in Hin.
    destruct Hin as [->|[Hin _]]; [right|now left].
    exists a0. split; [|reflexivity]. now apply find_some in F. }
  assert (Hak : forall k a0,
             find (fun r => Nat.eqb (application_id r) k) (applications s)
             = Some a0 ->
             map application_id
               (upsert
                  (fun r => Nat.eqb (application_id r) (application_id a0))
                  (set_application_end_date a0 (Some t)) (applications s))
             = map application_id (applications s)).
  { intros k a0 F.
    apply (upsert_keys application_id
             (set_application_end_date a0 (Some t))).
    simpl. apply existsb_exists. exists a0. apply find_some in F.
    split; [tauto|apply Nat.eqb_refl]. }
  unfold remove_machine. fold t.
  unfold bind, save_machine, save_version, save_application, get_version,
    get_application, query, ret.
  destruct dry_run; simpl.
  - destruct (find _ (versions s)) as [v0|] eqn:F; simpl;
      [|repeat split; auto].
    destruct (Nat.eqb _ 0); simpl; [|repeat split; auto].
    destruct (find _ (applications s)) as [a0|] eqn:G; simpl;
      [|repeat split; auto].
    destruct (Nat.eqb _ 0); simpl; repeat split; auto.
  - destruct (find _ (versions s)) as [v0|] eqn:F; simpl;
      [|repeat split; auto; discriminate].
    destruct (Nat.eqb _ 0); simpl; [|repeat split; auto; discriminate].
    destruct (find _ (applications s)) as [a0|] eqn:G; simpl;
      [|repeat split; eauto; discriminate].
    destruct (Nat.eqb _ 0); simpl; repeat split; eauto; discriminate.
Qed.

Lemma remove_machine_frame (m : ProviderMachine) (now clock : Z)
  (dry_run : bool) (s : Store) :
  let s' := snd (remove_machine only_current m (Some now) dry_run clock s) in
  map version_id (versions s') = map version_id (versions s) /\
  map application_id (applications s') = map application_id (applications s) /\
  (forall v, In v (versions s') ->
             exists v0, In v0 (versions s) /\ application v = application v0) /\
  (dry_run = true -> s' = s).
Proof.
  cbv zeta.
  set (t := Some now).
  assert (Hv : forall v0 v,
             find (fun r => Nat.eqb (version_id r) (application_version m))
               (versions s) = Some v0 ->
             In v (upsert (fun r => Nat.eqb (version_id r) (version_id v0))
                     (set_version_end_date v0 t) (versions s)) ->
             exists v1, In v1 (versions s) /\ application v = application v1).
  { intros v0 v F Hin. apply LifecycleFacts.upsert_In in Hin.
    destruct Hin as [->|[Hin _]]; [|now exists v].
    exists v0. split; [|reflexivity]. now apply find_some in F. }
  assert (Hvk : forall v0,
             find (fun r => Nat.eqb (version_id r) (application_version m))
               (versions s) = Some v0 ->
             map version_id
               (upsert (fun r => Nat.eqb (version_id r) (version_id v0))
                  (set_version_end_date v0 t) (versions s))
             = map version_id (versions s)).
  { intros v0 F.
    apply (upsert_keys version_id (set_version_end_date v0 t)).
    simpl. apply existsb_exists. exists v0. apply find_some in F.
    split; [tauto|apply Nat.eqb_refl]. }
  assert (Hak : forall k a0,
             find (fun r => Nat.eqb (application_id r) k) (applications s)
             = Some a0 ->
             map application_id
               (upsert
                  (fun r => Nat.eqb (application_id r) (application_id a0))
                  (set_application_end_date a0 t) (applications s))
             = map application_id (applications s)).
  { intros k a0 F.
    apply (upsert_keys application_id (set_application_end_date a0 t)).
    simpl. apply existsb_exists. exists a0. apply find_some in F.
    split; [tauto|apply Nat.eqb_refl]. }
  assert (Hid : forall v, In v (versions s) ->
             exists v0, In v0 (versions s) /\ application v = application v0)
    by (intros v Hin; now exists v).
  unfold remove_machine.
  unfold bind, save_machine, save_version, save_application, get_version,
    get_application, query, ret.
  fold t.
  destruct dry_run; simpl.
  - destruct (find _ (versions s)) as [v0|] eqn:F; simpl;
      [|repeat split; auto].
    destruct (Nat.eqb _ 0); simpl; [|repeat split; auto].
    destruct (find _ (applications s)) as [a0|] eqn:G; simpl;
      [|repeat split; auto].
    destruct (Nat.eqb _ 0); simpl; repeat split; auto.
  - destruct (find _ (versions s)) as [v0|] eqn:F; simpl;
      [|repeat split; auto; discriminate].
    destruct (Nat.eqb _ 0); simpl; [|repeat split; auto; discriminate].
    destruct (find _ (applications s)) as [a0|] eqn:G; simpl;
      [|repeat split; eauto; discriminate].
    destruct (Nat.eqb _ 0); simpl; repeat split; eauto; discriminate.
Qed.

Lemma remove_machine_returns (m : ProviderMachine) (now clock : Z)
  (dry_run : bool) (s : Store) :
  In (application_version m) (map version_id (versions s)) ->
  (forall v, In v (versions s) ->
             In (application v) (map application_id (applications s))) ->
  fst (remove_machine only_current m (Some now) dry_run clock s)
  = Returned true.
Proof.
  intros H1 H2.
  apply find_key in H1. destruct H1 as (v0 & F).
  assert (Hin : In v0 (versions s)) by (now apply find_some in F).
  destruct (find_key application_id _ _ (H2 v0 Hin)) as (a0 & G).
  unfold remove_machine.
  unfold bind, save_machine, save_version, save_application, get_version,
    get_application, query, ret.
  destruct dry_run; simpl; rewrite F; simpl.
  - destruct (Nat.eqb _ 0); simpl; [|reflexivity]. rewrite G. simpl.
    destruct (Nat.eqb _ 0); reflexivity.
  - destruct (Nat.eqb _ 0); simpl; [|reflexivity]. rewrite G. simpl.
    destruct (Nat.eqb _ 0); reflexivity.
Qed.

Lemma end_date_missing_loop_counts (cloud_machine_ids : list string)
  (now clock : Z) (dry_run : bool) (db_machines : list ProviderMachine)
  (mach_count : nat) (s : Store) :
  resolvable db_machines s ->
  exists s',
    end_date_missing_loop only_current cloud_machine_ids now dry_run clock
      db_machines mach_count s
    = (Returned
         (mach_count + List.length (orphans cloud_machine_ids db_machines))%nat,
       s') /\
    (dry_run = true -> s' = s).
Proof.
  revert mach_count s.
  induction db_machines as [|machine rest IH]; intros mach_count s [H1 H2];
    simpl.
  - exists s. rewrite Nat.add_0_r. now split.
  - assert (E : existsb
                  (fun mach =>
                     String.eqb mach (identifier (instance_source machine)))
                  cloud_machine_ids
                = match filter
                          (fun mach =>
                             String.eqb mach
                               (identifier (instance_source machine)))
                          cloud_machine_ids
                  with [] => false | _ :: _ => true end).
    { apply existsb_filter. }
    rewrite E.
    destruct (filter _ cloud_machine_ids) as [|found others]; simpl.
    + unfold bind.
      pose proof (remove_machine_returns machine now clock dry_run s
                    (H1 machine (or_introl eq_refl)) H2) as R.
      pose proof (remove_machine_frame machine now clock dry_run s) as Fr.
      cbv zeta in Fr.
      destruct (remove_machine only_current machine (Some now) dry_run clock s)
        as [[b|e] s1]; simpl in R, Fr; [|discriminate].
      destruct Fr as (K1 & K2 & K3 & K4).
      destruct (IH (S mach_count) s1) as (s' & Hrun & Hdry).
      { split.
        - intros m Hm. rewrite K1. apply H1. now right.
        - intros v Hv. rewrite K2. destruct (K3 v Hv) as (v0 & Hv0 & ->).
          now apply H2. }
      exists s'. split.
      * rewrite Hrun. f_equal. f_equal. apply Nat.add_succ_comm.
      * intros D. rewrite (Hdry D). now apply K4.
    + apply IH. split; [|exact H2]. intros m Hm. apply H1. now right.
Qed.

Lemma end_date_missing_counts_total (db_machines : list ProviderMachine)
  (cloud_machines : list CloudMachine) (now : option Z) (dry_run : bool)
  (clock : Z) (s : Store) :
  resolvable db_machines s ->
  exists s',
    _end_date_missing_database_machines only_current db_machines
      cloud_machines now dry_run clock s
    = (Returned
         (List.length (orphans (map id cloud_machines) db_machines)), s') /\
    (dry_run = true -> s' = s).
Proof.
  intros H. unfold _end_date_missing_database_machines.
  destruct (end_date_missing_loop_counts (map id cloud_machines)
              (match now with Some t => t | None => clock end) clock dry_run
              0 H) as (s' & Hrun & Hdry).
  exists s'. now split.
Qed.


(** X11.  [_end_date_missing_database_machines] counts the machines that the
    snapshot does not list.  On a store where the foreign keys of the
    machines at hand and of the versions lead to a row, the pass runs to
    its end, dry run or not, and answers the number of machines whose
    identifier is not among the images of the snapshot; on a dry run the
    store is as before. *)
Theorem end_date_missing_counts_orphans (db_machines : list ProviderMachine)
  (cloud_machines : list CloudMachine) (now : option Z) (dry_run : bool)
  (clock : Z) (s : Store) :
  resolvable db_machines s ->
  exists s',
    _end_date_missing_database_machines only_current db_machines
      cloud_machines now dry_run clock s
    = (Returned
         (List.length (orphans (map id cloud_machines) db_machines)), s') /\
    (dry_run = true -> s' = s).
Proof.
  intros H. now apply end_date_missing_counts_total.
Qed.
End Frame.

Lemma two_machines_resolvable :
  resolvable (machines two_machines) two_machines.
Proof.
  split.
  - intros m [<-|[<-|[]]]; simpl; auto.
  - intros v [<-|[]]; simpl; auto.
Defined.

Lemma end_date_missing_counts_orphans_witness :
  exists s',
    _end_date_missing_database_machines ends_after (machines two_machines)
      [second_image] (Some 100) false 100 two_machines
    = (Returned
         (List.length
            (orphans (map id [second_image]) (machines two_machines))), s') /\
    (false = true -> s' = two_machines).
Proof.
  apply (@end_date_missing_counts_orphans ends_after (machines two_machines)
           [second_image] (Some 100) false 100 two_machines).
  exact two_machines_resolvable.
Defined.

Lemma end_date_missing_second_run_witness :
  _end_date_missing_database_machines ends_after
    (filter unending
       (machines
          (hierarchy [sample_application 1] [sample_version 1 1]
             [set_end_date (sample_machine 1 "image-1" 1) (Some 100);
              sample_machine 2 "image-2" 1])))
    [second_image] (Some 200) false 200
    (hierarchy [sample_application 1] [sample_version 1 1]
       [set_end_date (sample_machine 1 "image-1" 1) (Some 100);
        sample_machine 2 "image-2" 1])
  = (Returned 0%nat,
     hierarchy [sample_application 1] [sample_version 1 1]
       [set_end_date (sample_machine 1 "image-1" 1) (Some 100);
        sample_machine 2 "image-2" 1]).
Proof.
  apply (@LifecycleFacts.end_date_missing_second_run ends_after unending
           [second_image] 100 200 100 200 1%nat two_machines).
  - intros m H. unfold unending. now rewrite H.
  - reflexivity.
Defined.

Lemma prune_machines_for_inactive_provider_witness :
  prune_machines_for ends_after unending unending no_current_version
    stamp_version stamp_application delete_grants
    (fun _ => Some first_image_cloud) (fun _ _ => true)
    inactive_provider false false true 100 single_chain
  = (Raised UnboundLocalError, single_chain).
Proof.
  apply LifecycleFacts.prune_machines_for_inactive_provider. reflexivity.
Defined.

Section Sweeps.
Variable only_current : Z -> ApplicationVersion -> bool.
Variable only_current_source : ProviderMachine -> bool.
Variable source_in_range : ProviderMachine -> bool.
Variable inactive_versions : Store -> Application -> bool.
Variable version_end_date_all : ApplicationVersion -> Z -> Job unit.
Variable application_end_date_all : Application -> Z -> Job unit.
Variable remove_membership : ApplicationVersion -> Group -> Job unit.
Variable get_account_driver : Provider -> option AccountDriver.
Variable machine_is_valid : AccountDriver -> CloudMachine -> bool.

(** X14.  A dry run of [prune_machines_for] is not read-only.  [dry_run] is
    handed to the first loop alone: on an active provider whose snapshot
    is not empty (or with [forced_removal]), the three sweeps that
    end-date versions without machines, applications without versions and
    improperly end-dated applications, and the membership cleaner, run on
    the store as they would without [dry_run]. *)
Theorem prune_machines_for_dry_run_still_sweeps (provider : Provider)
  (account_driver : AccountDriver) (forced_removal validate : bool) (now : Z)
  (s : Store) :
  is_active provider = true ->
  get_account_driver provider = Some account_driver ->
  filter
    (fun cloud_machine =>
       negb validate || machine_is_valid account_driver cloud_machine)
    (list_all_images account_driver) <> [] \/ forced_removal = true ->
  resolvable (current_machines_of only_current_source provider s) s ->
  prune_machines_for only_current only_current_source source_in_range
    inactive_versions version_end_date_all application_end_date_all
    remove_membership get_account_driver machine_is_valid
    provider true forced_removal validate now s
  = (ver_count <-
       _remove_versions_without_machines version_end_date_all (Some now) now ;;
     app_count <-
       _remove_applications_without_versions application_end_date_all
         (Some now) now ;;
     app_count' <-
       _update_improperly_enddated_applications inactive_versions
         application_end_date_all (Some now) now ;;
     _clean_memberships remove_membership
       (current_machines_of only_current_source provider s)) s.
Proof.
  intros Hactive Hdriver Hsnapshot Hkeys.
  unfold prune_machines_for. rewrite Hactive, Hdriver.
  unfold bind at 1. unfold ret at 1. cbv beta iota.
  set (cloud_machines :=
         filter
           (fun cloud_machine =>
              negb validate || machine_is_valid account_driver cloud_machine)
           (list_all_images account_driver)) in *.
  assert (Hguard : is_null (hd_error cloud_machines) && negb forced_removal
                   = false).
  { destruct Hsnapshot as [Hne| ->]; [|apply andb_false_r].
    destruct cloud_machines; [now elim Hne|reflexivity]. }
  rewrite Hguard.
  unfold bind at 1. unfold query at 1. cbv beta iota.
  fold (current_machines_of only_current_source provider s).
  unfold bind at 1.
  destruct (end_date_missing_counts_total only_current cloud_machines
              (Some now) true now Hkeys) as (s' & Hrun & Hdry).
  rewrite Hrun, (Hdry eq_refl). reflexivity.
Qed.
End Sweeps.

Lemma stray_version_resolvable :
  resolvable (current_machines_of unending active_provider stray_version)
    stray_version.
Proof.
  split.
  - intros m [<-|[]]; simpl; auto.
  - intros v [<-|[<-|[]]]; simpl; auto.
Defined.

Lemma prune_machines_for_dry_run_still_sweeps_witness :
  prune_machines_for ends_after unending unending no_current_version
    stamp_version stamp_application delete_grants
    (fun _ => Some first_image_cloud) (fun _ _ => true)
    active_provider true false true 100 stray_version
  = (Returned tt,
     hierarchy [sample_application 1]
       [sample_version 1 1;
        set_version_end_date (sample_version 2 1) (Some 100)]
       [sample_machine 1 "image-1" 1]).
Proof.
  rewrite (@prune_machines_for_dry_run_still_sweeps ends_after unending
             unending no_current_version stamp_version stamp_application
             delete_grants (fun _ => Some first_image_cloud)
             (fun _ _ => true) active_provider first_image_cloud false true
             100 stray_version).
  - reflexivity.
  - reflexivity.
  - reflexivity.
  - left. discriminate.
  - exact stray_version_resolvable.
Defined.

Section Cleaner.
Variable remove_membership : ApplicationVersion -> Group -> Job unit.

(** X15.  The cleaner passes over machines that are shared with fewer than 128
    groups at each of the three levels: when that holds for every machine
    it is given, it asks for no removal and the store is as before. *)
Theorem clean_memberships_spares_small_sets
  (db_machines : list ProviderMachine) (s : Store) :
  (forall db_machine, In db_machine db_machines ->
     exists v a,
       version_row (application_version db_machine) s = Some v /\
       application_row (application v) s = Some a /\
       (List.length
          (members_of (machine_id db_machine)
             (provider_machine_memberships s)) < 128)%nat /\
       (List.length
          (members_of (version_id v) (application_version_memberships s))
        < 128)%nat /\
       (List.length
          (members_of (application_id a) (application_memberships s))
        < 128)%nat) ->
  _clean_memberships remove_membership db_machines s = (Returned tt, s).
Proof.
  unfold _clean_memberships.
  induction db_machines as [|db_machine rest IH]; intros H; simpl.
  - reflexivity.
  - destruct (H db_machine (or_introl eq_refl))
      as (v & a & Hv & Ha & H1 & H2 & H3).
    unfold bind.
    rewrite (@LifecycleFacts.clean_memberships_of_small_sets
               remove_membership db_machine v a s Hv Ha H1 H2 H3).
    apply IH. intros m Hm. apply H. now right.
Qed.

Lemma for_each_app {A : Type} (body : A -> Job unit) (first second : list A)
  (s : Store) :
  for_each body (first ++ second) s
  = (for_each body first ;; for_each body second) s.
Proof.
  revert s. induction first as [|x first IH]; intros s; simpl.
  - reflexivity.
  - unfold bind. destruct (body x s) as [[[]|e] s1]; [|reflexivity].
    rewrite IH. reflexivity.
Qed.

(** X16.  The cleaner stops at the third level.  Let the cleaner have
    passed the machines before [db_machine], and let [db_machine] then
    have fewer than 128 join rows of its own and fewer than 128 on its
    version, but 128 or more on its application.  The rows of the
    application are to be ordered by 'group_ptr__name', which names no
    field of a join row: the cleaner raises [FieldError]; no
    [remove_membership] is called for [db_machine], whatever that
    collaborator does, so that the store is as the machines before it
    left it; and the machines after it are not cleaned. *)
Theorem clean_memberships_application_level_raises
  (db_machine : ProviderMachine) (v : ApplicationVersion) (a : Application)
  (before rest : list ProviderMachine) (s s0 : Store) :
  _clean_memberships remove_membership before s = (Returned tt, s0) ->
  version_row (application_version db_machine) s0 = Some v ->
  application_row (application v) s0 = Some a ->
  (List.length
     (members_of (machine_id db_machine) (provider_machine_memberships s0))
   < 128)%nat ->
  (List.length
     (members_of (version_id v) (application_version_memberships s0))
   < 128)%nat ->
  (128 <= List.length
            (members_of (application_id a) (application_memberships s0)))%nat ->
  _clean_memberships remove_membership (before ++ db_machine :: rest) s
  = (Raised FieldError, s0).
Proof.
  intros Hbefore Hv Ha H1 H2 H3.
  apply Nat.ltb_lt in H1. apply Nat.ltb_lt in H2. apply Nat.ltb_ge in H3.
  unfold version_row in Hv. unfold application_row in Ha.
  assert (Hone : clean_memberships_of remove_membership db_machine s0
                 = (Raised FieldError, s0)).
  { unfold clean_memberships_of, bind, query, ret, get_version,
      get_application.
    simpl. rewrite H1. simpl. rewrite Hv. simpl. rewrite H2. simpl.
    rewrite Hv, Ha. simpl. rewrite H3. reflexivity. }
  unfold _clean_memberships in *. rewrite for_each_app.
  unfold bind at 1. rewrite Hbefore. simpl. unfold bind. now rewrite Hone.
Qed.
End Cleaner.

Lemma clean_memberships_spares_small_sets_witness :
  _clean_memberships delete_grants [sample_machine 1 "image-1" 1]
    single_chain
  = (Returned tt, single_chain).
Proof.
  apply (@clean_memberships_spares_small_sets delete_grants
           [sample_machine 1 "image-1" 1] single_chain).
  intros db_machine [<-|[]].
  exists (sample_version 1 1), (sample_application 1).
  repeat split; simpl; lia.
Defined.

Lemma clean_memberships_application_level_raises_witness :
  _clean_memberships delete_grants
    ([] ++ sample_machine 1 "image-1" 1 :: []) crowded_application
  = (Raised FieldError, crowded_application).
Proof.
  apply (@clean_memberships_application_level_raises delete_grants
           (sample_machine 1 "image-1" 1) (sample_version 1 1)
           (sample_application 1) [] [] crowded_application
           crowded_application).
  - reflexivity.
  - reflexivity.
  - reflexivity.
  - simpl. lia.
  - simpl. lia.
  - vm_compute. repeat constructor.
Defined.

(** With 128 groups on the application and none on the machine or the
    version, the pass ends in [FieldError] and every grant is still
    there. *)
Example clean_memberships_keeps_crowded_application :
  List.length
    (application_memberships
       (snd (_clean_memberships delete_grants
               [sample_machine 1 "image-1" 1] crowded_application)))
  = 128%nat.
Proof. vm_compute. reflexivity. Qed.

(** *** [add_application_membership] *)

Lemma has_application_grant_count (app : Application) (g : Group)
  (s : Store) :
  Nat.eqb
    (Query.count (fun r => Nat.eqb (group_id (group r)) (group_id g))
       (members_of (application_id app) (application_memberships s)))
    0
  = negb (has_application_grant app g s).
Proof.
  destruct (Nat.eqb _ 0) eqn:E.
  - unfold has_application_grant.
    now rewrite (LifecycleFacts.no_grant_yet app g s E).
  - symmetry. apply negb_false_iff. unfold has_application_grant.
    apply Nat.eqb_neq in E.
    destruct (existsb _ (application_memberships s)) eqn:X; [reflexivity|].
    exfalso. apply E. apply QueryFacts.count_zero_iff. intros r Hr.
    unfold members_of in Hr. apply filter_In in Hr. destruct Hr as [Hin Hres].
    destruct (Nat.eqb (group_id (group r)) (group_id g)) eqn:G;
      [|reflexivity].
    assert (existsb
              (same_grant {| resource := application_id app; group := g |})
              (application_memberships s) = true); [|congruence].
    apply existsb_exists. exists r. split; [assumption|].
    unfold same_grant. simpl. now rewrite Hres, G.
Qed.

Lemma has_application_grant_kept (app : Application) (g : Group)
  (s : Store) (added : list Membership) :
  has_application_grant app g s = true ->
  has_application_grant app g
    (with_application_memberships s (application_memberships s ++ added))
  = true.
Proof.
  unfold has_application_grant. simpl. rewrite existsb_app.
  intros ->. reflexivity.
Qed.

Lemma add_application_membership_cons (app : Application) (g : Group)
  (rest : list Group) (dry_run : bool) (s : Store) :
  add_application_membership app {| identity_memberships := g :: rest |}
    dry_run s
  = add_application_membership app {| identity_memberships := rest |} dry_run
      (if has_application_grant app g s || dry_run
       then s
       else
         with_application_memberships s
           (application_memberships s
            ++ [ {| resource := application_id app; group := g |} ])).
Proof.
  unfold add_application_membership. cbn [for_each identity_memberships].
  unfold bind, query. rewrite has_application_grant_count.
  destruct (has_application_grant app g s), dry_run; reflexivity.
Qed.

Lemma add_application_membership_loop (app : Application)
  (gs : list Group) (s : Store) :
  exists added,
    add_application_membership app {| identity_memberships := gs |} false s
    = (Returned tt,
       with_application_memberships s (application_memberships s ++ added))
    /\ (forall g, In g gs ->
          has_application_grant app g
            (with_application_memberships s
               (application_memberships s ++ added)) = true)
    /\ ((forall g, In g gs -> has_application_grant app g s = true) ->
        added = []).
Proof.
  revert s. induction gs as [|g rest IH]; intros s.
  - exists []. rewrite app_nil_r. destruct s; simpl.
    split; [reflexivity|]. split; [intros g []|reflexivity].
  - rewrite add_application_membership_cons, orb_false_r.
    destruct (has_application_grant app g s) eqn:Hg.
    + destruct (IH s) as (added & Hrun & Hall & Hnone).
      exists added. rewrite Hrun.
      repeat split.
      * intros g' [<-|Hin]; [now apply has_application_grant_kept|].
        now apply Hall.
      * intros Hyes. apply Hnone. intros g' Hin. apply Hyes. now right.
    + set (s1 := with_application_memberships s
                   (application_memberships s
                    ++ [ {| resource := application_id app; group := g |} ])).
      destruct (IH s1) as (added & Hrun & Hall & Hnone).
      exists ({| resource := application_id app; group := g |} :: added).
      rewrite Hrun. unfold s1. simpl. rewrite <- app_assoc. simpl.
      repeat split.
      * intros g' [<-|Hin].
        -- unfold has_application_grant. simpl. rewrite existsb_app. simpl.
           unfold same_grant at 2. simpl. rewrite !Nat.eqb_refl. simpl.
           apply orb_true_r.
        -- specialize (Hall g' Hin). unfold s1 in Hall. simpl in Hall.
           rewrite <- app_assoc in Hall. exact Hall.
      * intros Hyes. rewrite (Hyes g (or_introl eq_refl)) in Hg.
        discriminate.
Qed.

(** X17.  [add_application_membership] shares the application with every group
    of the identity.  It always runs to its end; without [dry_run], join
    rows are appended to the membership table of the application so that
    every group of the identity has one afterwards; run again on the
    result it changes nothing; and with [dry_run] it changes nothing in
    the first place. *)
Theorem add_application_membership_grants_every_group (app : Application)
  (identity : Identity) (s : Store) :
  (exists added,
     add_application_membership app identity false s
     = (Returned tt,
        with_application_memberships s (application_memberships s ++ added)))
  /\
  (forall g, In g (identity_memberships identity) ->
     has_application_grant app g
       (snd (add_application_membership app identity false s)) = true) /\
  add_application_membership app identity false
    (snd (add_application_membership app identity false s))
  = (Returned tt, snd (add_application_membership app identity false s)) /\
  add_application_membership app identity true s = (Returned tt, s).
Proof.
  destruct identity as [gs]. simpl identity_memberships.
  destruct (add_application_membership_loop app gs s)
    as (added & Hrun & Hall & _).
  split; [now exists added|]. rewrite Hrun. simpl. split; [exact Hall|].
  split.
  - destruct (add_application_membership_loop app gs
                (with_application_memberships s
                   (application_memberships s ++ added)))
      as (again & Hrun2 & _ & Hnone).
    rewrite Hrun2. rewrite (Hnone Hall). simpl. rewrite app_nil_r.
    reflexivity.
  - clear. induction gs as [|g rest IH]; [reflexivity|].
    rewrite add_application_membership_cons, orb_true_r. exact IH.
Qed.

End ReconciliationFacts.

(** ** Properties of [strfdelta] *)

Module FormattingFacts.
Import Effects Diagnostics Formatting.
Local Open Scope Z_scope.

(** X18.  [strfdelta] loses at most the seconds that its format has no field
    for.  Whatever the fields of the format and whatever the duration,
    negative ones included: the units of [return_map] are those of D, H,
    M, S that the format names, in that order; what they stand for and
    the remainder left over add up to the duration in seconds; the
    remainder is zero when the format names S; and a format that names M
    but not S drops less than a minute. *)
Theorem strfdelta_units_add_up (keys : list (option string))
  (remainder : Z) :
  dict_keys (fst (strfdelta_units keys remainder))
  = filter (fun unit => in_keys unit keys) ["D"; "H"; "M"; "S"]%string /\
  seconds_of (fst (strfdelta_units keys remainder))
  + snd (strfdelta_units keys remainder) = remainder /\
  (in_keys "S" keys = true -> snd (strfdelta_units keys remainder) = 0) /\
  (in_keys "S" keys = false -> in_keys "M" keys = true ->
   0 <= snd (strfdelta_units keys remainder) < 60).
Proof.
  unfold strfdelta_units, units_loop.
  destruct (in_keys "D" keys) eqn:D, (in_keys "H" keys) eqn:H,
    (in_keys "M" keys) eqn:M, (in_keys "S" keys) eqn:S;
    cbn -[Z.div Z.modulo Z.mul Z.add in_keys];
    rewrite ?D, ?H, ?M, ?S;
    (split; [reflexivity|]);
    (split; [|split; intros; try discriminate]);
    Z.to_euclidean_division_equations; lia.
Qed.

(** X19.  With the four fields in the format, a format such as the standard one,
    the duration is cut into days, hours below 24, minutes below 60 and
    seconds below 60; the sign of a negative duration goes to the days
    alone. *)
Theorem strfdelta_standard_ranges (keys : list (option string))
  (remainder : Z) :
  in_keys "D" keys = true -> in_keys "H" keys = true ->
  in_keys "M" keys = true -> in_keys "S" keys = true ->
  exists D H M S,
    fst (strfdelta_units keys remainder)
    = [("D"%string, D); ("H"%string, H); ("M"%string, M); ("S"%string, S)] /\
    D * 86400 + H * 3600 + M * 60 + S = remainder /\
    0 <= H < 24 /\ 0 <= M < 60 /\ 0 <= S < 60 /\
    (remainder < 0 <-> D < 0).
Proof.
  intros HD HH HM HS. unfold strfdelta_units, units_loop.
  rewrite HD, HH, HM, HS. cbn -[Z.div Z.modulo Z.mul Z.add].
  eexists _, _, _, _. split; [reflexivity|].
  Z.to_euclidean_division_equations; lia.
Qed.

Lemma strfdelta_standard_ranges_witness :
  exists D H M S,
    fst (strfdelta_units standard_keys (-1))
    = [("D"%string, D); ("H"%string, H); ("M"%string, M); ("S"%string, S)] /\
    D * 86400 + H * 3600 + M * 60 + S = -1 /\
    0 <= H < 24 /\ 0 <= M < 60 /\ 0 <= S < 60 /\
    (-1 < 0 <-> D < 0).
Proof.
  apply (@strfdelta_standard_ranges standard_keys (-1)); reflexivity.
Defined.

(** One second short of nothing reads as minus one day, 23 hours, 59
    minutes and 59 seconds. *)
Example strfdelta_minus_one_second :
  fst (strfdelta_units standard_keys (-1))
  = [("D"%string, -1); ("H"%string, 23); ("M"%string, 59);
     ("S"%string, 59)].
Proof. reflexivity. Qed.

End FormattingFacts.

(** ** Properties of the remembered answers *)

Module MemoFacts.
Import Effects Diagnostics Memo MemoScenarios.

Section Dictionary.
Variables K V : Type.
Variable eqb : K -> K -> bool.
Hypothesis eqb_eq : forall a b, eqb a b = true <-> a = b.

Lemma lookup_assign_same (d : list (K * V)) (key : K) (value : V) :
  lookup eqb (assign eqb d key value) key = Some value.
Proof.
  induction d as [|[k v] rest IH]; simpl.
  - now rewrite (proj2 (eqb_eq key key) eq_refl).
  - destruct (eqb k key) eqn:E; simpl; rewrite E; [reflexivity|exact IH].
Qed.

Lemma lookup_assign_other (d : list (K * V)) (key other : K) (value : V) :
  key <> other ->
  lookup eqb (assign eqb d key value) other = lookup eqb d other.
Proof.
  intros Hne. induction d as [|[k v] rest IH]; simpl.
  - destruct (eqb key other) eqn:E; [|reflexivity].
    apply eqb_eq in E. contradiction.
  - destruct (eqb k key) eqn:E; simpl.
    + apply eqb_eq in E. subst k.
      destruct (eqb key other) eqn:E2; [|reflexivity].
      apply eqb_eq in E2. contradiction.
    + destruct (eqb k other); [reflexivity|exact IH].
Qed.
End Dictionary.

Lemma image_key_eqb_eq (a b : nat * string) :
  image_key_eqb a b = true <-> a = b.
Proof.
  destruct a as [p i], b as [q j]. unfold image_key_eqb. simpl.
  rewrite andb_true_iff, Nat.eqb_eq, String.eqb_eq. split.
  - intros [-> ->]. reflexivity.
  - intros H. injection H as -> ->. auto.
Qed.

Lemma image_key_dec (a b : nat * string) : a = b \/ a <> b.
Proof.
  destruct (image_key_eqb a b) eqn:E.
  - left. now apply image_key_eqb_eq.
  - right. intros H. apply image_key_eqb_eq in H. congruence.
Qed.

(** An image that is remembered stays remembered. *)
Lemma memoized_image_keeps (account_driver : AccountDriver)
  (db_machine : Lifecycle.ProviderMachine) (image_maps : ImageMaps)
  (key : nat * string) (cloud_machine : Lifecycle.CloudMachine) :
  lookup image_key_eqb image_maps key = Some (Some cloud_machine) ->
  lookup image_key_eqb
    (snd (memoized_image account_driver db_machine image_maps)) key
  = Some (Some cloud_machine).
Proof.
  intros H. unfold memoized_image.
  set (k := (Lifecycle.provider (Lifecycle.instance_source db_machine),
             Lifecycle.identifier (Lifecycle.instance_source db_machine))).
  destruct (image_key_dec k key) as [->|Hne].
  - rewrite H. exact H.
  - destruct (lookup image_key_eqb image_maps k) as [[c|]|]; simpl;
      [exact H| |];
      rewrite (@lookup_assign_other _ _ image_key_eqb image_key_eqb_eq);
      assumption.
Qed.

Lemma image_calls_keep
  (calls : list (AccountDriver * Lifecycle.ProviderMachine))
  (image_maps : ImageMaps) (key : nat * string)
  (cloud_machine : Lifecycle.CloudMachine) :
  lookup image_key_eqb image_maps key = Some (Some cloud_machine) ->
  lookup image_key_eqb (image_calls calls image_maps) key
  = Some (Some cloud_machine).
Proof.
  unfold image_calls. revert image_maps.
  induction calls as [|[d m] rest IH]; intros image_maps H; simpl.
  - exact H.
  - apply IH. now apply memoized_image_keeps.
Qed.

(** X20.  The first image found for a machine is the answer for good.  Once
    [memoized_image] has answered an image for a provider and an
    identifier, every later call for that provider and identifier answers
    the same image and leaves the dictionary alone, whatever calls were
    made in between and whatever account driver is handed in: the driver
    is not asked again. *)
Theorem memoized_image_keeps_first_answer (account_driver : AccountDriver)
  (db_machine : Lifecycle.ProviderMachine) (image_maps : ImageMaps)
  (cloud_machine : Lifecycle.CloudMachine) :
  fst (memoized_image account_driver db_machine image_maps)
  = Some cloud_machine ->
  forall calls later_driver later_machine,
    Lifecycle.provider (Lifecycle.instance_source later_machine)
    = Lifecycle.provider (Lifecycle.instance_source db_machine) ->
    Lifecycle.identifier (Lifecycle.instance_source later_machine)
    = Lifecycle.identifier (Lifecycle.instance_source db_machine) ->
    let image_maps' :=
      image_calls calls
        (snd (memoized_image account_driver db_machine image_maps)) in
    memoized_image later_driver later_machine image_maps'
    = (Some cloud_machine, image_maps').
Proof.
  intros Hfirst calls later_driver later_machine Hp Hi. cbv zeta.
  set (key := (Lifecycle.provider (Lifecycle.instance_source db_machine),
               Lifecycle.identifier (Lifecycle.instance_source db_machine))).
  assert (Hstored :
            lookup image_key_eqb
              (snd (memoized_image account_driver db_machine image_maps)) key
            = Some (Some cloud_machine)).
  { revert Hfirst. unfold memoized_image. fold key.
    destruct (lookup image_key_eqb image_maps key) as [[c|]|] eqn:L; simpl.
    - intros [= ->]. exact L.
    - intros ->. apply (@lookup_assign_same _ _ image_key_eqb image_key_eqb_eq).
    - intros ->.
      apply (@lookup_assign_same _ _ image_key_eqb image_key_eqb_eq). }
  apply (image_calls_keep calls) in Hstored.
  unfold memoized_image at 1. rewrite Hp, Hi. fold key. now rewrite Hstored.
Qed.

Lemma memoized_image_keeps_first_answer_witness :
  memoized_image cloud_without_image
    (LifecycleScenarios.sample_machine 1 "image-1" 1)
    (image_calls
       [(cloud_with_image, LifecycleScenarios.sample_machine 2 "image-2" 1)]
       (snd (memoized_image cloud_with_image
               (LifecycleScenarios.sample_machine 1 "image-1" 1) [])))
  = (Some first_image,
     image_calls
       [(cloud_with_image, LifecycleScenarios.sample_machine 2 "image-2" 1)]
       (snd (memoized_image cloud_with_image
               (LifecycleScenarios.sample_machine 1 "image-1" 1) []))).
Proof.
  apply (@memoized_image_keeps_first_answer cloud_with_image
           (LifecycleScenarios.sample_machine 1 "image-1" 1) [] first_image);
    reflexivity.
Defined.

(** X21.  An image that was not found is asked for again.  When the dictionary
    has no image for the machine and the driver finds none, the next call
    for the machine goes to the driver it is given and answers what that
    driver finds. *)
Theorem memoized_image_asks_again (account_driver later_driver : AccountDriver)
  (db_machine : Lifecycle.ProviderMachine) (image_maps : ImageMaps) :
  fst (memoized_image account_driver db_machine image_maps) = None ->
  fst (memoized_image later_driver db_machine
         (snd (memoized_image account_driver db_machine image_maps)))
  = get_image later_driver
      (Lifecycle.identifier (Lifecycle.instance_source db_machine)).
Proof.
  unfold memoized_image.
  set (key := (Lifecycle.provider (Lifecycle.instance_source db_machine),
               Lifecycle.identifier (Lifecycle.instance_source db_machine))).
  destruct (lookup image_key_eqb image_maps key) as [[c|]|] eqn:L; simpl.
  - discriminate.
  - intros ->.
    now rewrite (@lookup_assign_same _ _ image_key_eqb image_key_eqb_eq).
  - intros ->.
    now rewrite (@lookup_assign_same _ _ image_key_eqb image_key_eqb_eq).
Qed.

Lemma memoized_image_asks_again_witness :
  fst (memoized_image cloud_with_image
         (LifecycleScenarios.sample_machine 1 "image-1" 1)
         (snd (memoized_image cloud_without_image
                 (LifecycleScenarios.sample_machine 1 "image-1" 1) [])))
  = get_image cloud_with_image
      (Lifecycle.identifier
         (Lifecycle.instance_source
            (LifecycleScenarios.sample_machine 1 "image-1" 1))).
Proof.
  apply (@memoized_image_asks_again cloud_without_image cloud_with_image
           (LifecycleScenarios.sample_machine 1 "image-1" 1) []).
  reflexivity.
Defined.

Lemma nat_eqb_eq (a b : nat) : Nat.eqb a b = true <-> a = b.
Proof. apply Nat.eqb_eq. Qed.

(** X22.  [memoized_driver] remembers drivers, never the lack of one.  It
    raises exactly when the dictionary has no driver for the provider of
    the machine and none can be made, and then the dictionary is as
    before; when it answers a driver, the dictionary has that driver for
    the provider, and a later call for the machine answers it without
    asking for a new one, whatever [get_account_driver] would give. *)
Theorem memoized_driver_remembers_drivers_only
  (get_account_driver : nat -> option AccountDriver)
  (machine : Lifecycle.ProviderMachine)
  (account_drivers : list (nat * AccountDriver)) :
  let provider := Lifecycle.provider (Lifecycle.instance_source machine) in
  match memoized_driver get_account_driver machine account_drivers with
  | (Raised e, account_drivers') =>
      e = CannotInstantiate provider /\
      account_drivers' = account_drivers /\
      lookup Nat.eqb account_drivers provider = None /\
      get_account_driver provider = None
  | (Returned account_driver, account_drivers') =>
      lookup Nat.eqb account_drivers' provider = Some account_driver /\
      (lookup Nat.eqb account_drivers provider = None ->
       get_account_driver provider = Some account_driver) /\
      forall get_account_driver',
        memoized_driver get_account_driver' machine account_drivers'
        = (Returned account_driver, account_drivers')
  end.
Proof.
  cbv zeta. unfold memoized_driver.
  set (provider := Lifecycle.provider (Lifecycle.instance_source machine)).
  destruct (lookup Nat.eqb account_drivers provider) as [d|] eqn:L.
  - split; [exact L|]. split; [discriminate|]. intros f. now rewrite L.
  - destruct (get_account_driver provider) as [d|] eqn:G.
    + pose proof (@lookup_assign_same _ _ Nat.eqb nat_eqb_eq account_drivers
                    provider d) as Hs.
      split; [exact Hs|]. split; [reflexivity|]. intros f. now rewrite Hs.
    + repeat split; assumption.
Qed.

(** *** Tenant names *)

Lemma dict_get_set {V : Type} (d : Dict V) (key other : string) (value : V) :
  dict_get (dict_set d key value) other
  = if String.eqb key other then Some value else dict_get d other.
Proof.
  induction d as [|[k v] rest IH]; simpl.
  - reflexivity.
  - destruct (String.eqb k key) eqn:E; simpl.
    + apply String.eqb_eq in E. subst k.
      destruct (String.eqb key other); reflexivity.
    + destruct (String.eqb k other) eqn:E2.
      * destruct (String.eqb key other) eqn:E3; [|reflexivity].
        apply String.eqb_eq in E2, E3. subst. rewrite String.eqb_refl in E.
        discriminate.
      * exact IH.
Qed.

Lemma tenant_names_from_projects (projects : list Tenant)
  (names : Dict string) (key name : string) :
  dict_get
    (fold_left
       (fun names tenant =>
          dict_set names (tenant_id tenant) (tenant_name tenant))
       projects names) key = Some name ->
  dict_get names key = Some name \/
  exists tenant,
    In tenant projects /\ tenant_id tenant = key /\ tenant_name tenant = name.
Proof.
  revert names. induction projects as [|t rest IH]; intros names; simpl.
  - now left.
  - intros H. apply IH in H. destruct H as [H|(tenant & Hin & Hid & Hn)].
    + rewrite dict_get_set in H.
      destruct (String.eqb (tenant_id t) key) eqn:E; [|now left].
      right. exists t. apply String.eqb_eq in E. injection H as H.
      repeat split; auto.
    + right. exists tenant. auto.
Qed.

Lemma current_members_loop (names : Dict string)
  (shared : list ImageMember) (current_tenants : list string) (n : string) :
  In n
    (fold_left
       (fun current_tenants membership =>
          let tenant_id := member_id membership in
          match dict_get names tenant_id with
          | Some (String _ _ as tenant_name) =>
              current_tenants ++ [tenant_name]
          | _ => current_tenants
          end)
       shared current_tenants)
  <-> In n current_tenants \/
      (n <> EmptyString /\
       exists membership,
         In membership shared /\
         dict_get names (member_id membership) = Some n).
Proof.
  revert current_tenants.
  induction shared as [|m rest IH]; intros current_tenants; simpl.
  - split; [now left|]. intros [H|(_ & m & [] & _)]. exact H.
  - rewrite IH. clear IH.
    destruct (dict_get names (member_id m)) as [[|c tail]|] eqn:G.
    + split.
      * intros [H|(Hne & m' & Hin & Hg)]; [now left|].
        right. split; [exact Hne|]. exists m'. auto.
      * intros [H|(Hne & m' & [<-|Hin] & Hg)]; [now left| |].
        -- rewrite G in Hg. injection Hg as <-. now elim Hne.
        -- right. split; [exact Hne|]. exists m'. auto.
    + rewrite in_app_iff. simpl. split.
      * intros [[H|[<-|[]]]|(Hne & m' & Hin & Hg)].
        -- now left.
        -- right. split; [discriminate|]. exists m. auto.
        -- right. split; [exact Hne|]. exists m'. auto.
      * intros [H|(Hne & m' & [<-|Hin] & Hg)].
        -- left. now left.
        -- rewrite G in Hg. injection Hg as <-. left. right. now left.
        -- right. split; [exact Hne|]. exists m'. auto.
    + split.
      * intros [H|(Hne & m' & Hin & Hg)]; [now left|].
        right. split; [exact Hne|]. exists m'. auto.
      * intros [H|(Hne & m' & [<-|Hin] & Hg)]; [now left| |].
        -- rewrite G in Hg. discriminate.
        -- right. split; [exact Hne|]. exists m'. auto.
Qed.

(** X23.  [get_current_members] names the members that are known.  A name is
    in its answer exactly when it is not empty and the dictionary has it
    for the tenant of one of the rows of the sharing list of the image;
    with the dictionary of [tenant_id_to_name_map], every name of the
    answer is the name of a project that the driver lists under the id
    of such a row. *)
Theorem get_current_members_names_known_projects
  (account_driver : AccountDriver) (machine : Lifecycle.ProviderMachine) :
  (forall tenant_id_name_map n,
     In n (get_current_members account_driver machine tenant_id_name_map)
     <-> n <> EmptyString /\
         exists membership,
           In membership
             (shared_images_for account_driver
                (Lifecycle.identifier (Lifecycle.instance_source machine))) /\
           dict_get tenant_id_name_map (member_id membership) = Some n) /\
  (forall n,
     In n (get_current_members account_driver machine
             (tenant_id_to_name_map account_driver)) ->
     exists membership tenant,
       In membership
         (shared_images_for account_driver
            (Lifecycle.identifier (Lifecycle.instance_source machine))) /\
       In tenant (list_projects account_driver) /\
       tenant_id tenant = member_id membership /\
       tenant_name tenant = n).
Proof.
  assert (H1 : forall tenant_id_name_map n,
     In n (get_current_members account_driver machine tenant_id_name_map)
     <-> n <> EmptyString /\
         exists membership,
           In membership
             (shared_images_for account_driver
                (Lifecycle.identifier (Lifecycle.instance_source machine))) /\
           dict_get tenant_id_name_map (member_id membership) = Some n).
  { intros names n. unfold get_current_members.
    rewrite current_members_loop. simpl. tauto. }
  split; [exact H1|].
  intros n Hin. apply H1 in Hin. destruct Hin as (_ & m & Hm & Hg).
  unfold tenant_id_to_name_map in Hg.
  apply tenant_names_from_projects in Hg.
  destruct Hg as [Hg|(tenant & Hin & Hid & Hn)]; [discriminate|].
  exists m, tenant. auto.
Qed.

(** Of three rows of the sharing list, one names a project with a name,
    one a project without, one no project: the first is the answer. *)
Example get_current_members_sample :
  get_current_members cloud_with_image
    (LifecycleScenarios.sample_machine 1 "image-1" 1)
    (tenant_id_to_name_map cloud_with_image)
  = ["alice"%string].
Proof. reflexivity. Qed.

End MemoFacts.

(** ** Properties of [_share_image] *)

Module SharingFacts.
Import Effects Effects.Notations Sharing SharingScenarios.

Section ShareImage.
Variable update_reply : string -> option Exception.
Variable share_reply : string -> string -> option Exception.

(** X24.  [_share_image] is silent on a dry run and for a tenant that is a
    member already.  With [dry_run], or when every tenant name of the
    identity is among the members, no call reaches the cloud, whatever the
    image; the function returns, unless more than one tenant name is
    missing, which is the safety check. *)
Theorem share_image_silent (cloud_machine : CloudMachine)
  (credentials : list Credential) (members : list string) (dry_run : bool)
  (calls : list CloudCall) :
  dry_run = true \/ missing_tenant credentials members = [] ->
  _share_image update_reply share_reply cloud_machine credentials members
    dry_run calls
  = (if Nat.leb 2 (List.length (missing_tenant credentials members))
     then Raised SafetyCheck
     else Returned tt,
     calls).
Proof.
  intros H. unfold _share_image.
  destruct (missing_tenant credentials members) as [|t [|t' rest]] eqn:E.
  - reflexivity.
  - destruct H as [->|H]; [|discriminate]. simpl.
    unfold bind, ret.
    destruct (match is_public cloud_machine with
              | Some attribute => attribute
              | None => _
              end); reflexivity.
  - reflexivity.
Qed.

(** X25.  What [_share_image] lets through.  Not a dry run, one tenant name
    missing: the image is shared after it was made "shared" when it was
    public, and a [GlanceConflict] or [GlanceForbidden] from the sharing
    call is swallowed whatever its message; an exception leaves the
    function only when the update of the visibility raises, and then
    nothing is shared, or when the sharing call raises something else. *)
Theorem share_image_swallows_glance_errors (cloud_machine : CloudMachine)
  (credentials : list Credential) (members : list string)
  (tenant_name : Credential) (calls : list CloudCall) :
  missing_tenant credentials members = [tenant_name] ->
  let public :=
    match is_public cloud_machine with
    | Some attribute => attribute
    | None =>
        match visibility cloud_machine with
        | Some v => String.eqb v "public"
        | None => false
        end
    end in
  let update := UpdateVisibilityShared (id cloud_machine) in
  let share := ShareImage (id cloud_machine) (value tenant_name) in
  let run :=
    _share_image update_reply share_reply cloud_machine credentials members
      false calls in
  match (if public then update_reply (id cloud_machine) else None) with
  | Some e => run = (Raised e, calls ++ [update])
  | None =>
      snd run = calls ++ (if public then [update] else []) ++ [share] /\
      match share_reply (id cloud_machine) (value tenant_name) with
      | None => fst run = Returned tt
      | Some (GlanceConflict _) => fst run = Returned tt
      | Some (GlanceForbidden _) => fst run = Returned tt
      | Some e => fst run = Raised e
      end
  end.
Proof.
  intros E. cbv zeta. unfold _share_image. rewrite E.
  destruct (match is_public cloud_machine with
            | Some attribute => attribute
            | None => _
            end); simpl.
  - unfold bind, call, swallow_glance_errors.
    destruct (update_reply (id cloud_machine)) as [e|]; [reflexivity|].
    rewrite <- app_assoc.
    destruct (share_reply (id cloud_machine) (value tenant_name))
      as [[| | |]|]; simpl; split; reflexivity.
  - unfold bind, ret, call, swallow_glance_errors.
    destruct (share_reply (id cloud_machine) (value tenant_name))
      as [[| | |]|]; simpl; split; reflexivity.
Qed.
End ShareImage.

Lemma share_image_silent_witness :
  _share_image fine shares public_image [alice] [] true []
  = (Returned tt, []).
Proof.
  apply (@share_image_silent fine shares public_image [alice] [] true []).
  now left.
Defined.

Lemma share_image_swallows_glance_errors_witness :
  snd (_share_image fine conflicts public_image [alice] [] false [])
  = [] ++ [UpdateVisibilityShared "image-1"] ++ [ShareImage "image-1" "alice"]
  /\
  fst (_share_image fine conflicts public_image [alice] [] false [])
  = Returned tt.
Proof.
  apply (@share_image_swallows_glance_errors fine conflicts public_image
           [alice] [] alice []).
  reflexivity.
Defined.

End SharingFacts.

(** ** Properties of the enforcement for one user *)

Module EnforcementForUserFacts.
Import Effects Effects.Notations Enforcement EnforcementForUser.

Section ForUser.
Variables Store Exception Identity Instance : Type.
Variable allocation_source_overage_enforcement_for :
  AllocationSource -> AtmosphereUser -> Identity ->
  M Store Exception (list Instance).

Lemma for_identities_collects (allocation_source : AllocationSource)
  (user : AtmosphereUser) (identities : list Identity)
  (user_instances : list Instance) (s : Store) :
  exists affected s',
    for_identities allocation_source_overage_enforcement_for allocation_source
      user identities user_instances s
    = (Returned (user_instances ++ affected), s') /\
    forall before,
      for_identities allocation_source_overage_enforcement_for
        allocation_source user identities before s
      = (Returned (before ++ affected), s').
Proof.
  revert user_instances s.
  induction identities as [|identity rest IH]; intros user_instances s;
    cbn [for_identities].
  - exists [], s. unfold ret. rewrite app_nil_r. split; [reflexivity|].
    intros before. now rewrite app_nil_r.
  - unfold bind, log_and_go_on, ret.
    destruct (allocation_source_overage_enforcement_for allocation_source
                user identity s) as [[found|e] s1].
    + destruct (IH (user_instances ++ found) s1) as (affected & s' & H & Hall).
      exists (found ++ affected), s'. rewrite app_assoc. split; [exact H|].
      intros before. rewrite app_assoc. apply Hall.
    + destruct (IH user_instances s1) as (affected & s' & H & Hall).
      exists affected, s'. split; [exact H|]. exact Hall.
Qed.

(** X26.  One identity that fails does not stop the enforcement for a user.
    [allocation_source_overage_enforcement_for_user] never raises; an
    identity whose enforcement raises adds no instance, and what it wrote
    before raising stays written; and the identities that come after it
    are enforced all the same: the answer for a list of identities
    followed by another is the answer for the first list followed by the
    answer for the second, run on the store that the first left. *)
Theorem enforcement_for_user_survives_failures
  (current_identities : AtmosphereUser -> list Identity)
  (allocation_source : AllocationSource) (user : AtmosphereUser) :
  (forall s, exists user_instances s',
     allocation_source_overage_enforcement_for_user
       allocation_source_overage_enforcement_for current_identities
       allocation_source user s
     = (Returned user_instances, s')) /\
  (forall identity e s s',
     allocation_source_overage_enforcement_for allocation_source user identity
       s = (Raised e, s') ->
     for_identities allocation_source_overage_enforcement_for
       allocation_source user [identity] [] s
     = (Returned [], s')) /\
  (forall first second s,
   exists affected affected' s1 s2,
     for_identities allocation_source_overage_enforcement_for
       allocation_source user first [] s = (Returned affected, s1) /\
     for_identities allocation_source_overage_enforcement_for
       allocation_source user second [] s1 = (Returned affected', s2) /\
     for_identities allocation_source_overage_enforcement_for
       allocation_source user (first ++ second) [] s
     = (Returned (affected ++ affected'), s2)).
Proof.
  split; [|split].
  - intros s. unfold allocation_source_overage_enforcement_for_user.
    destruct (for_identities_collects allocation_source user
                (current_identities user) [] s) as (affected & s' & H & _).
    exists affected, s'. exact H.
  - intros identity e s s' H. cbn [for_identities].
    unfold bind, log_and_go_on, ret. now rewrite H.
  - intros first. induction first as [|identity rest IH]; intros second s.
    + destruct (for_identities_collects allocation_source user second [] s)
        as (affected' & s2 & H & _).
      exists [], affected', s, s2. simpl in H. simpl. auto.
    + cbn [for_identities app]. unfold bind, log_and_go_on, ret.
      destruct (allocation_source_overage_enforcement_for allocation_source
                  user identity s) as [[found|e] s0]; simpl.
      * destruct (IH second s0) as (a & a' & s1 & s2 & H1 & H2 & H3).
        destruct (for_identities_collects allocation_source user rest [] s0)
          as (x & sx & Hx & Hxall).
        destruct (for_identities_collects allocation_source user
                    (rest ++ second) [] s0) as (y & sy & Hy & Hyall).
        simpl in Hx, Hy. rewrite Hx in H1. injection H1 as -> ->.
        rewrite Hy in H3. injection H3 as -> ->.
        exists (found ++ a), a', s1, s2.
        rewrite (Hxall found), (Hyall found), app_assoc. auto.
      * destruct (IH second s0) as (a & a' & s1 & s2 & H1 & H2 & H3).
        exists a, a', s1, s2. auto.
Qed.
End ForUser.

End EnforcementForUserFacts.

(** ** Properties of [monitor_sizes_for] *)

Module SizesFacts.
Import Effects Effects.Notations Sizes SizesScenarios.
Local Open Scope Z_scope.

Section MonitorSizes.
Variable convert_esh_size : CloudSize -> nat -> Job Size.

Lemma unknown_sizes_loop_skips (admin_driver : AdminDriver)
  (provider_uuid : nat) (skipped rest : list Size)
  (libcloud_size : option (option LibcloudSize)) :
  (forall size, In size skipped ->
     alias size = "N/A"%string \/
     get_size admin_driver (alias size) = HTTPFailure 404) ->
  unknown_sizes_loop convert_esh_size admin_driver provider_uuid
    (skipped ++ rest) libcloud_size
  = unknown_sizes_loop convert_esh_size admin_driver provider_uuid rest
      libcloud_size.
Proof.
  induction skipped as [|size more IH]; intros H; simpl; [reflexivity|].
  destruct (H size (or_introl eq_refl)) as [Ha|Hr].
  - rewrite Ha. simpl. apply IH. intros x Hx. apply H. now right.
  - destruct (String.eqb (alias size) "N/A");
      [|rewrite Hr; simpl];
      apply IH; intros x Hx; apply H; now right.
Qed.

(** X27.  A lookup that fails before any has returned stops the task.  Among
    the sizes named 'Unknown Size', let every size before [size] be the
    sentinel 'N/A' or not found (404), and let the lookup of [size] end in
    a [BaseHTTPError] with another code.  The handler lets that error
    pass, and the loop goes on to read [libcloud_size], to which nothing
    was assigned: the loop raises [UnboundLocalError], and the sizes after
    [size] are not looked up. *)
Theorem unknown_sizes_loop_reads_unassigned (admin_driver : AdminDriver)
  (provider_uuid : nat) (skipped rest : list Size) (size : Size) (code : Z)
  (table : list Size) :
  (forall earlier, In earlier skipped ->
     alias earlier = "N/A"%string \/
     get_size admin_driver (alias earlier) = HTTPFailure 404) ->
  alias size <> "N/A"%string ->
  get_size admin_driver (alias size) = HTTPFailure code ->
  code <> 404 ->
  unknown_sizes_loop convert_esh_size admin_driver provider_uuid
    (skipped ++ size :: rest) None table
  = (Raised UnboundLocalError, table).
Proof.
  intros Hskipped Halias Hreply Hcode.
  rewrite unknown_sizes_loop_skips by exact Hskipped. simpl.
  apply String.eqb_neq in Halias. rewrite Halias, Hreply.
  apply Z.eqb_neq in Hcode. rewrite Hcode. reflexivity.
Qed.

(** A lookup that fails after one has returned converts the size of the
    earlier lookup again.  Let the lookup of [first] return a size, and
    the lookup of [second], the size after it, end in a [BaseHTTPError]
    other than 404: the size found for [first] is converted for [first]
    and once more for [second]. *)
Theorem unknown_sizes_loop_reuses_last_answer (admin_driver : AdminDriver)
  (provider_uuid : nat) (first second : Size) (rest : list Size)
  (found : LibcloudSize) (code : Z)
  (libcloud_size : option (option LibcloudSize)) :
  alias first <> "N/A"%string ->
  alias second <> "N/A"%string ->
  get_size admin_driver (alias first) = Found (Some found) ->
  get_size admin_driver (alias second) = HTTPFailure code ->
  code <> 404 ->
  unknown_sizes_loop convert_esh_size admin_driver provider_uuid
    (first :: second :: rest) libcloud_size
  = (_ <- convert_esh_size (OSSize found) provider_uuid ;;
     _ <- convert_esh_size (OSSize found) provider_uuid ;;
     unknown_sizes_loop convert_esh_size admin_driver provider_uuid rest
       (Some (Some found))).
Proof.
  intros H1 H2 R1 R2 Hcode. simpl.
  apply String.eqb_neq in H1, H2. apply Z.eqb_neq in Hcode.
  rewrite H1, H2, R1, R2, Hcode. reflexivity.
Qed.
End MonitorSizes.

Lemma unknown_sizes_loop_reads_unassigned_witness :
  unknown_sizes_loop record_size flaky_cloud 1
    ([unknown_size 1 "N/A"] ++ unknown_size 2 "large"
                               :: [unknown_size 3 "small"]) None []
  = (Raised UnboundLocalError, []).
Proof.
  apply (@unknown_sizes_loop_reads_unassigned record_size flaky_cloud 1%nat
           [unknown_size 1 "N/A"] [unknown_size 3 "small"]
           (unknown_size 2 "large") 500 []).
  - intros earlier [<-|[]]. now left.
  - discriminate.
  - reflexivity.
  - discriminate.
Defined.

Lemma unknown_sizes_loop_reuses_last_answer_witness :
  unknown_sizes_loop record_size flaky_cloud 1
    (unknown_size 1 "small" :: unknown_size 2 "large" :: []) None
  = (_ <- record_size (OSSize small) 1%nat ;;
     _ <- record_size (OSSize small) 1%nat ;;
     unknown_sizes_loop record_size flaky_cloud 1 [] (Some (Some small))).
Proof.
  apply (@unknown_sizes_loop_reuses_last_answer record_size flaky_cloud 1%nat
           (unknown_size 1 "small") (unknown_size 2 "large") [] small 500
           None).
  - discriminate.
  - discriminate.
  - reflexivity.
  - reflexivity.
  - discriminate.
Defined.

(** The whole task on the flaky cloud: one unknown size is found, the
    next one is not, and the size found is recorded twice. *)
Example monitor_sizes_for_converts_twice :
  monitor_sizes_for (fun _ => true) record_size 1 flaky_cloud 100
    [unknown_size 0 "small"; unknown_size 1 "large"]
  = (Returned [],
     [set_end_date (unknown_size 0 "small") (Some 100);
      set_end_date (unknown_size 1 "large") (Some 100);
      {| size_id := 2; alias := "small"; name := "small";
         provider := 1; end_date := None |};
      {| size_id := 3; alias := "small"; name := "small";
         provider := 1; end_date := None |}]).
Proof. reflexivity. Qed.

End SizesFacts.

(** ** Properties of the admin of allocation sources *)

Module AdminFacts.
Import Effects Effects.Notations Diagnostics Admin AdminScenarios.
Local Open Scope Z_scope.

Lemma date_eqb_eq (a b : option Z) : date_eqb a b = true <-> a = b.
Proof.
  destruct a as [x|], b as [y|]; simpl; try (split; congruence).
  rewrite Z.eqb_eq. split; congruence.
Qed.

Section SaveModel.
Variable Exception : Type.
Variable reply : ApiCall -> option Exception.

(** X28.  What an edit of an allocation source in the admin passes on.  On a
    change, nothing is created and the name is not sent: an edit that
    leaves the renewal strategy, the compute allowed and the end date as
    they were loaded makes no call at all, a new name included.  And
    after any change of the end date, taking the end date off included,
    the method does not return without a call of [perform_destroy]. *)
Theorem save_model_sends_no_name (obj : AllocationSource) (initial : Initial)
  (calls : list ApiCall) :
  let run := save_model reply obj initial true calls in
  exists made,
    snd run = calls ++ made /\
    (forall c, In c made ->
       match c with
       | Create _ => False
       | Update data _ => dict_get data "name" = None
       | PerformDestroy data _ => dict_get data "name" = None
       end) /\
    (initial_renewal_strategy initial = renewal_strategy obj ->
     initial_compute_allowed initial = compute_allowed obj ->
     initial_end_date initial = end_date obj ->
     made = [] /\ fst run = Returned tt) /\
    (initial_end_date initial <> end_date obj ->
     fst run = Returned tt ->
     exists data, In (PerformDestroy data (uuid obj)) made).
Proof.
  cbv zeta. unfold save_model. simpl negb. cbv iota.
  set (d1 := if negb (String.eqb (initial_renewal_strategy initial)
                        (renewal_strategy obj))
             then dict_set [] "renewal_strategy" (Text (renewal_strategy obj))
             else []).
  set (d2 := if negb (initial_compute_allowed initial =? compute_allowed obj)
             then dict_set d1 "compute_allowed" (Number (compute_allowed obj))
             else d1).
  assert (Hname : dict_get d2 "name" = None).
  { unfold d2, d1.
    destruct (negb (String.eqb _ _)), (negb (_ =? _)); reflexivity. }
  assert (Hsame : initial_renewal_strategy initial = renewal_strategy obj ->
                  initial_compute_allowed initial = compute_allowed obj ->
                  d2 = []).
  { intros H1 H2. unfold d2, d1.
    rewrite H1, H2, String.eqb_refl, Z.eqb_refl. reflexivity. }
  assert (Hdate : date_eqb (initial_end_date initial) (end_date obj) = false
                  <-> initial_end_date initial <> end_date obj).
  { rewrite <- date_eqb_eq.
    destruct (date_eqb (initial_end_date initial) (end_date obj));
      split; congruence. }
  unfold bind, api, ret.
  destruct d2 as [|entry more] eqn:D.
  - destruct (date_eqb (initial_end_date initial) (end_date obj)) eqn:E;
      simpl.
    + exists []. rewrite app_nil_r.
      split; [reflexivity|]. split; [intros c []|].
      split; [intros _ _ _; now split|].
      intros H. apply Hdate in H. discriminate.
    + exists [PerformDestroy [] (uuid obj)].
      split; [destruct (reply _); reflexivity|].
      split; [intros c [<-|[]]; reflexivity|].
      split.
      * intros _ _ H. apply Hdate in H; [contradiction|reflexivity].
      * intros _ _. exists []. now left.
  - destruct (reply (Update (entry :: more) (uuid obj))) as [e|] eqn:R.
    + exists [Update (entry :: more) (uuid obj)]. simpl.
      split; [reflexivity|].
      split; [intros c [<-|[]]; exact Hname|].
      split; [intros H1 H2 _; discriminate (Hsame H1 H2)|].
      intros _ H. discriminate.
    + destruct (date_eqb (initial_end_date initial) (end_date obj)) eqn:E;
        simpl.
      * exists [Update (entry :: more) (uuid obj)].
        split; [reflexivity|].
        split; [intros c [<-|[]]; exact Hname|].
        split; [intros H1 H2 _; discriminate (Hsame H1 H2)|].
        intros H. apply Hdate in H. discriminate.
      * exists [Update (entry :: more) (uuid obj);
                PerformDestroy (entry :: more) (uuid obj)].
        split; [destruct (reply (PerformDestroy _ _)); simpl;
                rewrite <- app_assoc; reflexivity|].
        split; [intros c [<-|[<-|[]]]; exact Hname|].
        split; [intros H1 H2 _; discriminate (Hsame H1 H2)|].
        intros _ _. exists (entry :: more). right. now left.
Qed.
End SaveModel.

(** A new name alone: no call.  The end date taken off: the allocation
    source is destroyed. *)
Example save_model_samples :
  save_model (fun _ => @None unit) renamed loaded true [] = (Returned tt, [])
  /\
  save_model (fun _ => @None unit) reopened loaded true []
  = (Returned tt, [PerformDestroy [] "a1"]).
Proof. split; reflexivity. Qed.

End AdminFacts.

(** ** Properties of the views that share an identity *)

Module IdentityMembershipViewFacts.
Import Effects Effects.Notations IdentityMembershipView.

Section Views.
Variables Store User Identity Group Membership : Type.
Variable get_identity : Store -> string -> option Identity.
Variable get_group : Store -> string -> option Group.
Variable can_share : Identity -> User -> bool.
Variable share : Identity -> Group -> M Store Exception Membership.
Variable unshare : Identity -> Group -> M Store Exception Membership.
Variable identity_of : Membership -> Identity.
Variable memberships_of : Store -> string -> list Membership.

(** X29.  Only who may share an identity gets it shared or unshared.  When the
    identity does not exist, or the user may not share it, [post] and
    [delete] leave the store as it was and answer no identity: [delete]
    answers 404 or 401; [post] answers 404 or 401 as well, or raises
    [KeyError] for a request without a group.  And [get] answers one
    identity at most, however many memberships there are. *)
Theorem sharing_needs_can_share (user : User) (group_name : option string)
  (name : string) (identity_uuid : string) (s : Store) :
  (forall identity, get_identity s identity_uuid = Some identity ->
                    can_share identity user = false) ->
  (post get_identity get_group can_share share identity_of user group_name
     identity_uuid s = (Returned (Failure 404), s) \/
   post get_identity get_group can_share share identity_of user group_name
     identity_uuid s = (Returned (Failure 401), s) \/
   (group_name = None /\
    post get_identity get_group can_share share identity_of user group_name
      identity_uuid s = (Raised KeyError, s))) /\
  (delete get_identity get_group can_share unshare identity_of user
     identity_uuid name s = (Returned (Failure 404), s) \/
   delete get_identity get_group can_share unshare identity_of user
     identity_uuid name s = (Returned (Failure 401), s)) /\
  (exists id_list,
     get identity_of memberships_of identity_uuid s = (Returned (Ok id_list), s)
     /\ (List.length id_list <= 1)%nat).
Proof.
  intros H. unfold post, delete, get.
  destruct (get_identity s identity_uuid) as [identity|].
  - rewrite (H identity eq_refl). simpl. split; [|split].
    + destruct group_name as [g|]; [|right; right; now split].
      destruct (get_group s g); [right; left|left]; reflexivity.
    + now right.
    + eexists. split; [reflexivity|].
      destruct (memberships_of s identity_uuid); simpl; auto.
  - split; [|split].
    + now left.
    + now left.
    + eexists. split; [reflexivity|].
      destruct (memberships_of s identity_uuid); simpl; auto.
Qed.

(** X30.  A group that does not exist is a 404 for [post] and an exception for
    [delete].  For an identity that the user may share and a name that no
    group has, [post] answers 404, while [delete], which looks the group
    up outside of any handler, raises; both leave the store as it was. *)
Theorem unknown_group_is_handled_by_post_only (user : User)
  (identity : Identity) (identity_uuid group_name : string) (s : Store) :
  get_identity s identity_uuid = Some identity ->
  can_share identity user = true ->
  get_group s group_name = None ->
  post get_identity get_group can_share share identity_of user
    (Some group_name) identity_uuid s = (Returned (Failure 404), s) /\
  delete get_identity get_group can_share unshare identity_of user
    identity_uuid group_name s = (Raised GroupDoesNotExist, s).
Proof.
  intros Hi Hc Hg. unfold post, delete. rewrite Hi, Hg, Hc. simpl.
  now split.
Qed.
End Views.

Lemma sharing_needs_can_share_witness :
  (post (fun (_ : unit) (_ : string) => Some tt)
     (fun _ _ => Some tt) (fun (_ : unit) (_ : unit) => false)
     (fun _ _ s => (Returned tt, s)) (fun (_ : unit) => tt) tt
     (Some "staff"%string) "i1"%string tt = (Returned (Failure 404), tt) \/
   post (fun (_ : unit) (_ : string) => Some tt)
     (fun _ _ => Some tt) (fun (_ : unit) (_ : unit) => false)
     (fun _ _ s => (Returned tt, s)) (fun (_ : unit) => tt) tt
     (Some "staff"%string) "i1"%string tt = (Returned (Failure 401), tt) \/
   (Some "staff"%string = None /\
    post (fun (_ : unit) (_ : string) => Some tt)
      (fun _ _ => Some tt) (fun (_ : unit) (_ : unit) => false)
      (fun _ _ s => (Returned tt, s)) (fun (_ : unit) => tt) tt
      (Some "staff"%string) "i1"%string tt = (Raised KeyError, tt))) /\
  (delete (fun (_ : unit) (_ : string) => Some tt)
     (fun _ _ => Some tt) (fun (_ : unit) (_ : unit) => false)
     (fun _ _ s => (Returned tt, s)) (fun (_ : unit) => tt) tt
     "i1"%string "staff"%string tt = (Returned (Failure 404), tt) \/
   delete (fun (_ : unit) (_ : string) => Some tt)
     (fun _ _ => Some tt) (fun (_ : unit) (_ : unit) => false)
     (fun _ _ s => (Returned tt, s)) (fun (_ : unit) => tt) tt
     "i1"%string "staff"%string tt = (Returned (Failure 401), tt)) /\
  (exists id_list,
     get (fun (_ : unit) => tt) (fun (_ : unit) (_ : string) => [tt; tt])
       "i1"%string tt = (Returned (Ok id_list), tt)
     /\ (List.length id_list <= 1)%nat).
Proof.
  apply (@sharing_needs_can_share unit unit unit unit unit
           (fun _ _ => Some tt) (fun _ _ => Some tt) (fun _ _ => false)
           (fun _ _ s => (Returned tt, s)) (fun _ _ s => (Returned tt, s))
           (fun _ => tt) (fun _ _ => [tt; tt]) tt (Some "staff"%string)
           "staff"%string "i1"%string tt).
  reflexivity.
Defined.

Lemma unknown_group_is_handled_by_post_only_witness :
  post (fun (_ : unit) (_ : string) => Some tt)
    (fun _ _ => @None unit) (fun (_ : unit) (_ : unit) => true)
    (fun _ _ s => (Returned tt, s)) (fun (_ : unit) => tt) tt
    (Some "staff"%string) "i1"%string tt = (Returned (Failure 404), tt) /\
  delete (fun (_ : unit) (_ : string) => Some tt)
    (fun _ _ => @None unit) (fun (_ : unit) (_ : unit) => true)
    (fun _ _ s => (Returned tt, s)) (fun (_ : unit) => tt) tt
    "i1"%string "staff"%string tt = (Raised GroupDoesNotExist, tt).
Proof.
  apply (@unknown_group_is_handled_by_post_only unit unit unit unit unit
           (fun _ _ => Some tt) (fun _ _ => None) (fun _ _ => true)
           (fun _ _ s => (Returned tt, s)) (fun _ _ s => (Returned tt, s))
           (fun _ => tt) tt tt "i1"%string "staff"%string tt);
    reflexivity.
Defined.

End IdentityMembershipViewFacts.
